(** * dysgu/call_component.pyx: classification, consensus and support filter

    A shallow embedding of the core of [call_component.pyx]: the
    alignment-pair classifier ([classify_d] and its four regimes), the
    soft-clip resolver ([mask_soft_clips]), the breakpoint consensus
    ([break_ops], [make_call]), the evidence aggregators ([normal_attrs],
    [extended_attrs]), the support filters that close [single] and
    [one_edge], and the regional annotation
    ([get_raw_coverage_information]).  Around this core it embeds the
    items built from pairs of alignments ([make_sv_alignment_item] with
    the query coordinates), the choice of the pair
    ([guess_informative_pair], [informative_pair]) and the two paths from
    the reads to the call ([call_from_reads], [one_edge], [single]).
    [get_reads], [multi] and [call_from_block_model] read the alignment
    file and walk the read graph; they are not embedded.

    Conventions of the embedding.
    - Python integers and the values of [cdef int] variables are [Z].  The
      attributes of an [AlignmentItem] and the [int] parameters are C ints:
      a value handed in is taken to lie in the 32-bit range, and a Python
      integer stored into a [cdef int] is taken to fit.  In the consensus
      ([break_ops], [infer_unmapped_insertion_break_point], [make_call])
      the sums and differences the compiled code computes on C ints are
      wrapped to 32 bits, with [wrap32].  Elsewhere the code only
      subtracts one coordinate from another or adds up the lengths of one
      cigar, which stays in range for the coordinates and the reads of an
      alignment file, and is written in [Z].
    - The truth value of a Python integer is [truthy].
    - Python dictionaries are [gmap string pyval]; the subscript of a
      missing key raises [KeyError].
    - A computation that may raise has type [res A]: [Ok a] or [Raise e].
    - A dictionary that is iterated ([defaultdict], [Counter]) is an
      association list in the order of insertion, which is the order Python
      iterates in.
    - A floating point number is the rational it denotes.  In the
      consensus every floating point operation is the exact operation
      followed by the rounding to the nearest number of the format, ties
      to even: [float64] for NumPy and Python floats, [float32] for a C
      [float].  Infinities, NaN and numbers below the normal range do not
      arise from lists of C ints, and are not modelled.  The means of the
      evidence aggregators are exact rationals: their rounding is not
      modelled. *)

From Stdlib Require Import ZArith QArith Qabs Qround Ascii String List Lia Bool DecimalString.
From stdpp Require Import base gmap strings list fin_maps.

Local Open Scope string_scope.
Local Open Scope Z_scope.

(** ** Python values, exceptions *)

Inductive exn : Type :=
| KeyError (k : string)
| IndexError
| ZeroDivisionError
| ValueError
| TypeError.

Inductive res (A : Type) : Type :=
| Ok (a : A)
| Raise (e : exn).
Arguments Ok {A} a.
Arguments Raise {A} e.

#[global] Instance res_ret : MRet res := fun A a => Ok a.

#[global] Instance res_bind : MBind res := fun A B k m =>
  match m with
  | Ok a => k a
  | Raise e => Raise e
  end.

Definition truthy (z : Z) : bool := negb (z =? 0).

Definition of_bool (b : bool) : Z := if b then 1 else 0.

(** [str(i)] for a Python integer. *)
Definition py_str_int (z : Z) : string := NilZero.string_of_int (Z.to_int z).

(** ** AlignmentItem *)

Record AlignmentItem : Type := mkItem {
  chrA : Z; chrB : Z; priA : Z; priB : Z; rA : Z; rB : Z;
  posA : Z; endA : Z; posB : Z; endB : Z;
  strandA : Z; strandB : Z;
  left_clipA : Z; right_clipA : Z; left_clipB : Z; right_clipB : Z;
  breakA_precise : Z; breakB_precise : Z; breakA : Z; breakB : Z;
  a_qstart : Z; a_qend : Z; b_qstart : Z; b_qend : Z;
  query_gap : Z; read_overlaps_mate : Z;
  svtype : string; join_type : string
}.

(** [AlignmentItem.__cinit__] *)
Definition new_AlignmentItem
    (chrA chrB priA priB rA rB posA endA posB endB strandA strandB
     left_clipA right_clipA left_clipB right_clipB
     a_qstart a_qend b_qstart b_qend read_overlaps_mate : Z) : AlignmentItem :=
  {| chrA := chrA; chrB := chrB; priA := priA; priB := priB; rA := rA; rB := rB;
     posA := posA; endA := endA; posB := posB; endB := endB;
     strandA := strandA; strandB := strandB;
     left_clipA := left_clipA; right_clipA := right_clipA;
     left_clipB := left_clipB; right_clipB := right_clipB;
     breakA_precise := 0; breakB_precise := 0; breakA := -1; breakB := -1;
     a_qstart := a_qstart; a_qend := a_qend; b_qstart := b_qstart; b_qend := b_qend;
     query_gap := -1; read_overlaps_mate := read_overlaps_mate;
     svtype := ""; join_type := "" |}.

(** Attribute assignment [v.f = x], one setter per assigned attribute. *)
Definition set_breakA (v : AlignmentItem) (x : Z) : AlignmentItem :=
  mkItem (chrA v) (chrB v) (priA v) (priB v) (rA v) (rB v) (posA v) (endA v) (posB v) (endB v)
    (strandA v) (strandB v) (left_clipA v) (right_clipA v) (left_clipB v) (right_clipB v)
    (breakA_precise v) (breakB_precise v) x (breakB v)
    (a_qstart v) (a_qend v) (b_qstart v) (b_qend v) (query_gap v) (read_overlaps_mate v)
    (svtype v) (join_type v).

Definition set_breakB (v : AlignmentItem) (x : Z) : AlignmentItem :=
  mkItem (chrA v) (chrB v) (priA v) (priB v) (rA v) (rB v) (posA v) (endA v) (posB v) (endB v)
    (strandA v) (strandB v) (left_clipA v) (right_clipA v) (left_clipB v) (right_clipB v)
    (breakA_precise v) (breakB_precise v) (breakA v) x
    (a_qstart v) (a_qend v) (b_qstart v) (b_qend v) (query_gap v) (read_overlaps_mate v)
    (svtype v) (join_type v).

Definition set_breakA_precise (v : AlignmentItem) (x : Z) : AlignmentItem :=
  mkItem (chrA v) (chrB v) (priA v) (priB v) (rA v) (rB v) (posA v) (endA v) (posB v) (endB v)
    (strandA v) (strandB v) (left_clipA v) (right_clipA v) (left_clipB v) (right_clipB v)
    x (breakB_precise v) (breakA v) (breakB v)
    (a_qstart v) (a_qend v) (b_qstart v) (b_qend v) (query_gap v) (read_overlaps_mate v)
    (svtype v) (join_type v).

Definition set_breakB_precise (v : AlignmentItem) (x : Z) : AlignmentItem :=
  mkItem (chrA v) (chrB v) (priA v) (priB v) (rA v) (rB v) (posA v) (endA v) (posB v) (endB v)
    (strandA v) (strandB v) (left_clipA v) (right_clipA v) (left_clipB v) (right_clipB v)
    (breakA_precise v) x (breakA v) (breakB v)
    (a_qstart v) (a_qend v) (b_qstart v) (b_qend v) (query_gap v) (read_overlaps_mate v)
    (svtype v) (join_type v).

Definition set_query_gap (v : AlignmentItem) (x : Z) : AlignmentItem :=
  mkItem (chrA v) (chrB v) (priA v) (priB v) (rA v) (rB v) (posA v) (endA v) (posB v) (endB v)
    (strandA v) (strandB v) (left_clipA v) (right_clipA v) (left_clipB v) (right_clipB v)
    (breakA_precise v) (breakB_precise v) (breakA v) (breakB v)
    (a_qstart v) (a_qend v) (b_qstart v) (b_qend v) x (read_overlaps_mate v)
    (svtype v) (join_type v).

Definition set_svtype (v : AlignmentItem) (x : string) : AlignmentItem :=
  mkItem (chrA v) (chrB v) (priA v) (priB v) (rA v) (rB v) (posA v) (endA v) (posB v) (endB v)
    (strandA v) (strandB v) (left_clipA v) (right_clipA v) (left_clipB v) (right_clipB v)
    (breakA_precise v) (breakB_precise v) (breakA v) (breakB v)
    (a_qstart v) (a_qend v) (b_qstart v) (b_qend v) (query_gap v) (read_overlaps_mate v)
    x (join_type v).

Definition set_join_type (v : AlignmentItem) (x : string) : AlignmentItem :=
  mkItem (chrA v) (chrB v) (priA v) (priB v) (rA v) (rB v) (posA v) (endA v) (posB v) (endB v)
    (strandA v) (strandB v) (left_clipA v) (right_clipA v) (left_clipB v) (right_clipB v)
    (breakA_precise v) (breakB_precise v) (breakA v) (breakB v)
    (a_qstart v) (a_qend v) (b_qstart v) (b_qend v) (query_gap v) (read_overlaps_mate v)
    (svtype v) x.

(** Modelled from the spec: [is_overlapping] is cimported from
    [dysgu.map_set_utils], which is not among the sources.  The spec calls it
    positional overlap of the two alignments' spans; the definition kept as a
    comment in [call_component.pyx] is [int(max(x1, y1) <= min(x2, y2))]. *)
Definition is_overlapping (x1 x2 y1 y2 : Z) : bool :=
  Z.max x1 y1 <=? Z.min x2 y2.

(** ** Alignment-pair classifier

    Each regime mutates the item in place; here it returns the updated item.
    [query_gap'] and [ref_gap'] are the locals [query_gap] and [ref_gap]. *)

(** [two_primary], line 822. *)
Definition two_primary (v : AlignmentItem) : AlignmentItem :=
  if ((posA v <? posB v) || ((posA v =? posB v) && (endA v <? endB v))) then
    if ((strandA v =? 3) && (strandB v =? 5)) then
      let v := set_breakA v (endA v) in
      let v := if truthy (right_clipA v) then set_breakA_precise v 1 else v in
      let v := set_breakB v (posB v) in
      let v := if truthy (left_clipB v) then set_breakB_precise v 1 else v in
      let v := set_svtype v "DEL" in
      set_join_type v "3to5"
    else if ((strandA v =? 5) && (strandB v =? 3)) then
      let v := set_breakA v (posA v) in
      let v := if truthy (left_clipA v) then set_breakA_precise v 1 else v in
      let v := set_breakB v (endB v) in
      let v := if truthy (right_clipB v) then set_breakB_precise v 1 else v in
      let v := set_svtype v "DUP" in
      set_join_type v "5to3"
    else if (strandA v =? 5) then
      if (negb (truthy (left_clipA v) || truthy (left_clipB v)) && (truthy (right_clipA v) || truthy (right_clipB v))) then
        let v := set_breakA v (endA v) in
        let v := if truthy (right_clipA v) then set_breakA_precise v 1 else v in
        let v := set_breakB v (endB v) in
        let v := if truthy (right_clipB v) then set_breakB_precise v 1 else v in
        let v := set_svtype v "INV" in
        set_join_type v "3to3"
      else
        let v := set_breakA v (posA v) in
        let v := if truthy (left_clipA v) then set_breakA_precise v 1 else v in
        let v := set_breakB v (posB v) in
        let v := if truthy (right_clipB v) then set_breakB_precise v 1 else v in
        let v := set_svtype v "INV" in
        set_join_type v "5to5"
    else if (negb (truthy (right_clipA v) || truthy (right_clipB v)) && (truthy (left_clipA v) || truthy (left_clipB v))) then
      if (((posA v <? posB v) && truthy (left_clipB v)) || ((posB v <? posA v) && truthy (left_clipA v))) then
        let v := set_breakA v (endA v) in
        let v := if truthy (right_clipA v) then set_breakA_precise v 1 else v in
        let v := set_breakB v (endB v) in
        let v := if truthy (right_clipB v) then set_breakB_precise v 1 else v in
        let v := set_svtype v "INV" in
        set_join_type v "3to3"
      else
        let v := set_breakA v (posA v) in
        let v := if truthy (left_clipA v) then set_breakA_precise v 1 else v in
        let v := set_breakB v (posB v) in
        let v := if truthy (left_clipB v) then set_breakB_precise v 1 else v in
        let v := set_svtype v "INV" in
        set_join_type v "5to5"
    else
      let v := set_breakA v (endA v) in
      let v := if truthy (left_clipA v) then set_breakA_precise v 1 else v in
      let v := set_breakB v (endB v) in
      let v := if truthy (right_clipB v) then set_breakB_precise v 1 else v in
      let v := set_svtype v "INV" in
      set_join_type v "3to3"
  else if ((strandA v =? 5) && (strandB v =? 3)) then
    let v := set_breakA v (posA v) in
    let v := if truthy (left_clipA v) then set_breakA_precise v 1 else v in
    let v := set_breakB v (endB v) in
    let v := if truthy (right_clipB v) then set_breakB_precise v 1 else v in
    let v := set_svtype v "DEL" in
    set_join_type v "3to5"
  else if ((strandB v =? 5) && (strandA v =? 3)) then
    let v := set_breakA v (endA v) in
    let v := if truthy (right_clipA v) then set_breakA_precise v 1 else v in
    let v := set_breakB v (posB v) in
    let v := if truthy (left_clipB v) then set_breakB_precise v 1 else v in
    let v := set_svtype v "DUP" in
    set_join_type v "5to3"
  else if (strandA v =? 5) then
    if (negb (truthy (left_clipA v) || truthy (left_clipB v)) && (truthy (right_clipA v) || truthy (right_clipB v))) then
      let v := set_breakA v (endA v) in
      let v := if truthy (right_clipA v) then set_breakA_precise v 1 else v in
      let v := set_breakB v (endB v) in
      let v := if truthy (right_clipB v) then set_breakB_precise v 1 else v in
      let v := set_svtype v "INV" in
      set_join_type v "3to3"
    else
      let v := set_breakA v (posA v) in
      let v := if truthy (left_clipA v) then set_breakA_precise v 1 else v in
      let v := set_breakB v (posB v) in
      let v := if truthy (right_clipB v) then set_breakB_precise v 1 else v in
      let v := set_svtype v "INV" in
      set_join_type v "5to5"
  else if (strandA v =? 3) then
    if (negb (truthy (right_clipA v) || truthy (right_clipB v)) && (truthy (left_clipA v) || truthy (left_clipB v))) then
      let v := set_breakA v (posA v) in
      let v := if truthy (right_clipA v) then set_breakA_precise v 1 else v in
      let v := set_breakB v (posB v) in
      let v := if truthy (right_clipB v) then set_breakB_precise v 1 else v in
      let v := set_svtype v "INV" in
      set_join_type v "5to5"
    else
      let v := set_breakA v (endA v) in
      let v := if truthy (left_clipA v) then set_breakA_precise v 1 else v in
      let v := set_breakB v (endB v) in
      let v := if truthy (right_clipB v) then set_breakB_precise v 1 else v in
      let v := set_svtype v "INV" in
      set_join_type v "3to3"
  else v.

(** [same_read], line 1013. *)
Definition same_read (v : AlignmentItem) : AlignmentItem :=
  if ((posA v <? posB v) || ((posA v =? posB v) && (endA v <=? endB v))) then
    if (strandA v =? strandB v) then
      if is_overlapping (posA v) (endA v) (posB v) (endB v) then
        let v :=
          if truthy (left_clipA v) then
            let v := set_breakA v (posA v) in
            set_breakA_precise v 1
          else if truthy (right_clipA v) then
            let v := set_breakA v (endA v) in
            set_breakA_precise v 1
          else
            set_breakA v (endA v) in
        let v :=
          if truthy (left_clipB v) then
            let v := set_breakB v (posB v) in
            set_breakB_precise v 1
          else if truthy (right_clipB v) then
            let v := set_breakB v (endB v) in
            set_breakB_precise v 1
          else
            set_breakB v (endB v) in
        let query_gap' := b_qstart v - a_qend v in
        let ref_gap' := breakB v - breakA v in
        let v :=
          if (ref_gap' <? query_gap') then
            let v := set_svtype v "INS" in
            set_query_gap v query_gap'
          else
            set_svtype v "DUP" in
        set_join_type v "5to3"
      else if (negb (truthy (left_clipA v)) && negb (truthy (right_clipB v))) then
        let v := set_breakA v (endA v) in
        let v := if truthy (right_clipA v) then set_breakA_precise v 1 else v in
        let v := set_breakB v (posB v) in
        let v := if truthy (left_clipB v) then set_breakB_precise v 1 else v in
        let query_gap' := b_qstart v - a_qend v in
        let ref_gap' := breakB v - breakA v in
        if (ref_gap' <? query_gap') then
          let v := set_svtype v "INS" in
          let v := set_join_type v "3to5" in
          set_query_gap v query_gap'
        else if truthy (read_overlaps_mate v) then
          let v := set_svtype v "DUP" in
          set_join_type v "5to3"
        else
          let v := set_svtype v "DEL" in
          set_join_type v "3to5"
      else if (negb (truthy (right_clipA v)) && negb (truthy (left_clipB v))) then
        let v := set_breakA v (posA v) in
        let v := if truthy (left_clipA v) then set_breakA_precise v 1 else v in
        let v := set_breakB v (endB v) in
        let v := if truthy (right_clipB v) then set_breakB_precise v 1 else v in
        let v := set_svtype v "DUP" in
        set_join_type v "5to3"
      else if (negb (truthy (left_clipA v)) && negb (truthy (left_clipB v))) then
        let v := set_breakA v (endA v) in
        let v := if truthy (right_clipA v) then set_breakA_precise v 1 else v in
        let v := set_breakB v (endB v) in
        let v := if truthy (right_clipB v) then set_breakB_precise v 1 else v in
        let v := set_svtype v "INV" in
        set_join_type v "3to3"
      else
        let v := set_breakA v (posA v) in
        let v := if truthy (left_clipA v) then set_breakA_precise v 1 else v in
        let v := set_breakB v (posB v) in
        let v := if truthy (left_clipB v) then set_breakB_precise v 1 else v in
        let v := set_svtype v "INV" in
        set_join_type v "5to5"
    else if ((strandA v =? 5) && (strandB v =? 3)) then
      if (negb (truthy (left_clipA v)) && negb (truthy (left_clipB v))) then
        let v := set_breakA v (endA v) in
        let v := if truthy (right_clipA v) then set_breakA_precise v 1 else v in
        let v := set_breakB v (endB v) in
        let v := if truthy (right_clipB v) then set_breakB_precise v 1 else v in
        let v := set_svtype v "INV" in
        set_join_type v "3to3"
      else if (negb (truthy (right_clipA v)) && negb (truthy (right_clipB v))) then
        let v := set_breakA v (posA v) in
        let v := if truthy (left_clipA v) then set_breakA_precise v 1 else v in
        let v := set_breakB v (posB v) in
        let v := if truthy (left_clipB v) then set_breakB_precise v 1 else v in
        let v := set_svtype v "INV" in
        set_join_type v "5to5"
      else if is_overlapping (posA v) (endA v) (posB v) (endB v) then
        let v := set_breakA v (posA v) in
        let v := if truthy (left_clipA v) then set_breakA_precise v 1 else v in
        let v := set_breakB v (endB v) in
        let v := if truthy (right_clipB v) then set_breakB_precise v 1 else v in
        let v := set_svtype v "INV:DUP" in
        set_join_type v "5to3"
      else if (truthy (right_clipA v) && truthy (left_clipB v)) then
        let v := set_breakA v (endA v) in
        let v := set_breakB v (posB v) in
        let v := set_svtype v "INV" in
        set_join_type v "3to5"
      else
        let v := set_breakA v (posA v) in
        let v := set_breakB v (endB v) in
        let v := set_svtype v "INV" in
        set_join_type v "5to3"
    else if (truthy (left_clipA v) && truthy (left_clipB v)) then
      let v := set_breakA_precise v 1 in
      let v := set_breakB_precise v 1 in
      let v := set_breakA v (posA v) in
      let v := set_breakB v (posB v) in
      let v := set_svtype v "INV" in
      set_join_type v "5to5"
    else if (truthy (right_clipA v) && truthy (right_clipB v)) then
      let v := set_breakA v (endA v) in
      let v := set_breakB v (endB v) in
      let v := set_breakA_precise v 1 in
      let v := set_breakB_precise v 1 in
      let v := set_svtype v "INV" in
      set_join_type v "3to3"
    else
      let v := set_breakA v (posA v) in
      let v := set_breakB v (posB v) in
      let v := set_svtype v "INV" in
      if (strandA v =? 5) then
        set_join_type v "5to5"
      else
        set_join_type v "3to3"
  else if (strandA v =? strandB v) then
    if is_overlapping (posA v) (endA v) (posB v) (endB v) then
      let v :=
        if truthy (left_clipA v) then
          let v := set_breakA v (posA v) in
          set_breakA_precise v 1
        else if truthy (right_clipA v) then
          let v := set_breakA v (endA v) in
          set_breakA_precise v 1
        else
          set_breakA v (endA v) in
      let v :=
        if truthy (left_clipB v) then
          let v := set_breakB v (posB v) in
          set_breakB_precise v 1
        else if truthy (right_clipB v) then
          let v := set_breakB v (endB v) in
          set_breakB_precise v 1
        else
          set_breakB v (endB v) in
      let query_gap' := b_qend v - a_qstart v in
      let ref_gap' := breakB v - breakA v in
      let v :=
        if (ref_gap' <? query_gap') then
          let v := set_svtype v "INS" in
          set_query_gap v query_gap'
        else
          set_svtype v "DUP" in
      set_join_type v "5to3"
    else if (negb (truthy (left_clipB v)) && negb (truthy (right_clipA v))) then
      let v := set_breakA v (posA v) in
      let v := set_breakB v (endB v) in
      let v := set_breakA_precise v 1 in
      let v := set_breakB_precise v 1 in
      let query_gap' := b_qstart v - a_qend v in
      let ref_gap' := breakA v - breakB v in
      if (ref_gap' <? query_gap') then
        let v := set_svtype v "INS" in
        let v := set_join_type v "3to5" in
        set_query_gap v query_gap'
      else if truthy (read_overlaps_mate v) then
        let v := set_svtype v "DUP" in
        set_join_type v "5to3"
      else
        let v := set_svtype v "DEL" in
        set_join_type v "3to5"
    else if (negb (truthy (right_clipB v)) && negb (truthy (left_clipA v))) then
      let v := set_breakA v (endA v) in
      let v := set_breakB v (posB v) in
      let v := set_breakA_precise v 1 in
      let v := set_breakB_precise v 1 in
      let v := set_svtype v "DUP" in
      set_join_type v "5to3"
    else
      let v := set_breakA v (posA v) in
      let v := set_breakB v (posB v) in
      let v := set_svtype v "BND" in
      set_join_type v ((py_str_int (strandA v) ++ "to" ++ py_str_int (strandB v))%string)
  else if (truthy (left_clipA v) && truthy (left_clipB v)) then
    let v := set_breakA_precise v 1 in
    let v := set_breakB_precise v 1 in
    let v := set_breakA v (posA v) in
    let v := set_breakB v (posB v) in
    let v := set_svtype v "INV" in
    set_join_type v "5to5"
  else if (truthy (right_clipA v) && truthy (right_clipB v)) then
    let v := set_breakA_precise v 1 in
    let v := set_breakB_precise v 1 in
    let v := set_breakA v (endA v) in
    let v := set_breakB v (endB v) in
    let v := set_svtype v "INV" in
    set_join_type v "3to3"
  else
    let v := set_breakA v (posA v) in
    let v := set_breakB v (posB v) in
    let v := set_svtype v "INV" in
    if (strandA v =? 5) then
      set_join_type v "5to5"
    else
      set_join_type v "3to3".

(** [different_read], line 1280. *)
Definition different_read (v : AlignmentItem) : AlignmentItem :=
  if ((posA v <? posB v) || ((posA v =? posB v) && (endA v <=? endB v))) then
    if ((strandA v =? 3) && (strandB v =? 5)) then
      let v := set_breakA v (endA v) in
      let v := if truthy (right_clipA v) then set_breakA_precise v 1 else v in
      let v := set_breakB v (posB v) in
      let v := if truthy (left_clipB v) then set_breakB_precise v 1 else v in
      let v := set_svtype v "INS" in
      set_join_type v "3to5"
    else if ((strandA v =? 5) && (strandB v =? 3)) then
      let v := set_breakA v (posA v) in
      let v := if truthy (left_clipA v) then set_breakA_precise v 1 else v in
      let v := set_breakB v (endB v) in
      let v := if truthy (right_clipB v) then set_breakB_precise v 1 else v in
      let v := set_svtype v "DUP" in
      set_join_type v "5to3"
    else if (strandA v =? strandB v) then
      if is_overlapping (posA v) (endA v) (posB v) (endB v) then
        if (strandA v =? 3) then
          let v := set_breakA v (endA v) in
          let v := if truthy (right_clipA v) then set_breakA_precise v 1 else v in
          let v := set_breakB v (endB v) in
          let v := if truthy (right_clipB v) then set_breakB_precise v 1 else v in
          let v := set_svtype v "INV" in
          set_join_type v "3to3"
        else
          let v := set_breakA v (posA v) in
          let v := if truthy (left_clipA v) then set_breakA_precise v 1 else v in
          let v := set_breakB v (posB v) in
          let v := if truthy (left_clipB v) then set_breakB_precise v 1 else v in
          let v := set_svtype v "INV" in
          set_join_type v "5to5"
      else if (negb (truthy (right_clipA v)) && negb (truthy (right_clipB v))) then
        let v := set_breakA v (posA v) in
        let v := if truthy (left_clipA v) then set_breakA_precise v 1 else v in
        let v := set_breakB v (posB v) in
        let v := if truthy (left_clipB v) then set_breakB_precise v 1 else v in
        let v := set_svtype v "INV" in
        set_join_type v "5to5"
      else if (negb (truthy (left_clipA v)) && negb (truthy (left_clipB v))) then
        let v := set_breakA v (endA v) in
        let v := if truthy (right_clipA v) then set_breakA_precise v 1 else v in
        let v := set_breakB v (endB v) in
        let v := if truthy (right_clipB v) then set_breakB_precise v 1 else v in
        let v := set_svtype v "INV" in
        set_join_type v "3to3"
      else if (truthy (right_clipA v) && truthy (left_clipB v)) then
        let v := set_breakA v (endA v) in
        let v := set_breakA_precise v 1 in
        let v := set_breakB v (posB v) in
        let v := set_breakB_precise v 1 in
        let v := set_svtype v "INV:DUP" in
        set_join_type v "5to3"
      else
        let v := set_breakA v (posA v) in
        let v := set_breakA_precise v 1 in
        let v := set_breakB v (endB v) in
        let v := set_breakB_precise v 1 in
        let v := set_svtype v "INV:DUP" in
        set_join_type v "3to5"
    else v
  else if ((strandA v =? 5) && (strandB v =? 3)) then
    let v := set_breakA v (posA v) in
    let v := if truthy (left_clipA v) then set_breakA_precise v 1 else v in
    let v := set_breakB v (endB v) in
    let v := if truthy (right_clipB v) then set_breakB_precise v 1 else v in
    let v := set_svtype v "INS" in
    set_join_type v "3to5"
  else if ((strandA v =? 3) && (strandB v =? 5)) then
    let v := set_breakA v (endA v) in
    let v := if truthy (right_clipA v) then set_breakA_precise v 1 else v in
    let v := set_breakB v (posB v) in
    let v := if truthy (left_clipB v) then set_breakB_precise v 1 else v in
    let v := set_svtype v "DUP" in
    set_join_type v "5to3"
  else if (strandA v =? strandB v) then
    if is_overlapping (posA v) (endA v) (posB v) (endB v) then
      let v :=
        if truthy (left_clipA v) then
          let v := set_breakA v (posA v) in
          set_breakA_precise v 1
        else if truthy (right_clipA v) then
          let v := set_breakA v (endA v) in
          set_breakA_precise v 1
        else
          set_breakA v (endA v) in
      let v :=
        if truthy (left_clipB v) then
          let v := set_breakB v (posB v) in
          set_breakB_precise v 1
        else if truthy (right_clipB v) then
          let v := set_breakB v (endB v) in
          set_breakB_precise v 1
        else
          set_breakB v (endB v) in
      let v := set_svtype v "DUP" in
      set_join_type v "5to3"
    else if (truthy (right_clipA v) && truthy (left_clipB v)) then
      let v := set_breakA v (endA v) in
      let v := set_breakB v (posB v) in
      let v := set_breakA_precise v 1 in
      let v := set_breakB_precise v 1 in
      let v := set_svtype v "DEL" in
      set_join_type v "3to5"
    else if (truthy (left_clipA v) && truthy (right_clipB v)) then
      let v := set_breakA v (posA v) in
      let v := set_breakB v (endB v) in
      let v := set_breakA_precise v 1 in
      let v := set_breakB_precise v 1 in
      let v := set_svtype v "DUP" in
      set_join_type v "5to3"
    else if (negb (truthy (left_clipB v)) && negb (truthy (left_clipA v))) then
      let v := set_breakB v (endB v) in
      let v := if truthy (right_clipB v) then set_breakB_precise v 1 else v in
      let v := set_breakA v (endA v) in
      let v := if truthy (right_clipA v) then set_breakA_precise v 1 else v in
      let v := set_svtype v "INV" in
      set_join_type v "3to3"
    else if (negb (truthy (right_clipB v)) && negb (truthy (right_clipA v))) then
      let v := set_breakB v (posB v) in
      let v := if truthy (left_clipB v) then set_breakB_precise v 1 else v in
      let v := set_breakA v (posA v) in
      let v := if truthy (left_clipA v) then set_breakA_precise v 1 else v in
      let v := set_svtype v "INV" in
      set_join_type v "5to5"
    else if (strandA v =? 3) then
      let v := set_breakA v (endA v) in
      let v := if truthy (right_clipA v) then set_breakA_precise v 1 else v in
      let v := set_breakB v (endB v) in
      let v := if truthy (right_clipB v) then set_breakB_precise v 1 else v in
      let v := set_svtype v "INV" in
      set_join_type v "3to3"
    else
      let v := set_breakA v (posA v) in
      let v := if truthy (left_clipA v) then set_breakA_precise v 1 else v in
      let v := set_breakB v (posB v) in
      let v := if truthy (left_clipB v) then set_breakB_precise v 1 else v in
      let v := set_svtype v "INV" in
      set_join_type v "5to5"
  else v.

(** [translocation], line 1482. *)
Definition translocation (v : AlignmentItem) : AlignmentItem :=
  let v := set_svtype v "TRA" in
  let v :=
    if truthy (left_clipA v) then
      let v := set_breakA v (posA v) in
      set_breakA_precise v 1
    else if truthy (right_clipA v) then
      let v := set_breakA v (endA v) in
      set_breakA_precise v 1
    else
      let v := set_breakA v (posA v) in
      set_breakA_precise v 1 in
  let v :=
    if truthy (left_clipB v) then
      let v := set_breakB v (posB v) in
      set_breakB_precise v 1
    else if truthy (right_clipB v) then
      let v := set_breakB v (endB v) in
      set_breakB_precise v 1
    else
      let v := set_breakB v (posB v) in
      set_breakB_precise v 1 in
  set_join_type v ((py_str_int (strandA v) ++ "to" ++ py_str_int (strandB v))%string).

(** [classify_d], line 1512. *)
Definition classify_d (v : AlignmentItem) : AlignmentItem :=
  let v := set_breakA_precise v 0 in
  let v := set_breakB_precise v 0 in
  if negb (chrA v =? chrB v) then
    translocation v
  else if truthy (priA v) && truthy (priB v) then
    two_primary v
  else if rA v =? rB v then
    same_read v
  else
    different_read v.

(** ** Soft-clip resolver *)

(** A cigar is pysam's [cigartuples]: a list of (operation, length). *)
Definition cigar : Type := list (Z * Z).

(** [ct[0]] and [ct[-1]] on a Python list. *)
Definition py_first {A : Type} (l : list A) : res A :=
  match l with
  | [] => Raise IndexError
  | x :: _ => Ok x
  end.

Definition py_last {A : Type} (l : list A) : res A :=
  match List.rev l with
  | [] => Raise IndexError
  | x :: _ => Ok x
  end.

(** [mask_soft_clips], line 1680. *)
Definition mask_soft_clips (aflag bflag : Z) (a_ct b_ct : cigar) : res (Z * Z * Z * Z) :=
  a_0 ← py_first a_ct;
  a_1 ← py_last a_ct;
  b_0 ← py_first b_ct;
  b_1 ← py_last b_ct;
  let left_clipA := if (a_0.1 =? 4) || (a_0.1 =? 5) then 1 else 0 in
  let right_clipA := if (a_1.1 =? 4) || (a_1.1 =? 5) then 1 else 0 in
  let left_clipB := if (b_0.1 =? 4) || (b_0.1 =? 5) then 1 else 0 in
  let right_clipB := if (b_1.1 =? 4) || (b_1.1 =? 5) then 1 else 0 in
  let a_template_start := 0 in
  let b_template_start := 0 in
  if Z.land aflag 64 =? Z.land bflag 64 then
    if (truthy left_clipB && truthy right_clipB) || (truthy left_clipA && truthy right_clipA) then
      let a_template_start :=
        if truthy (Z.land aflag 16) then
          if negb (a_1.1 =? 0) then a_1.2 else a_template_start
        else
          if negb (a_0.1 =? 0) then a_0.2 else a_template_start in
      let b_template_start :=
        if truthy (Z.land bflag 16) then
          if negb (b_1.1 =? 0) then b_1.2 else b_template_start
        else
          if negb (b_0.1 =? 0) then b_0.2 else b_template_start in
      let '(left_clipB, right_clipB) :=
        if truthy left_clipB && truthy right_clipB then
          if b_template_start <? a_template_start then
            if negb (truthy (Z.land bflag 16)) then (0, right_clipB) else (left_clipB, 0)
          else
            if negb (truthy (Z.land bflag 16)) then (left_clipB, 0) else (0, right_clipB)
        else (left_clipB, right_clipB) in
      let '(left_clipA, right_clipA) :=
        if truthy left_clipA && truthy right_clipA then
          if a_template_start <? b_template_start then
            if negb (truthy (Z.land aflag 16)) then (0, right_clipA) else (left_clipA, 0)
          else
            if negb (truthy (Z.land aflag 16)) then (left_clipA, 0) else (0, right_clipA)
        else (left_clipA, right_clipA) in
      Ok (left_clipA, right_clipA, left_clipB, right_clipB)
    else
      Ok (left_clipA, right_clipA, left_clipB, right_clipB)
  else
    let '(left_clipB, right_clipB) :=
      if truthy left_clipB && truthy right_clipB then
        if b_0.2 >? b_1.2 then (left_clipB, 0) else (0, right_clipB)
      else (left_clipB, right_clipB) in
    let '(left_clipA, right_clipA) :=
      if truthy left_clipA && truthy right_clipA then
        if a_0.2 >? a_1.2 then (left_clipA, 0) else (0, right_clipA)
      else (left_clipA, right_clipA) in
    Ok (left_clipA, right_clipA, left_clipB, right_clipB).

(** ** Python dictionaries *)

Inductive pyval : Type :=
| PInt (z : Z)
| PFloat (q : Q)
| PStr (s : string)
| PBool (b : bool)
| PNone
| PList (l : list Q).

(** [d[k]] *)
Definition getitem (d : gmap string pyval) (k : string) : res pyval :=
  match d !! k with
  | Some x => Ok x
  | None => Raise (KeyError k)
  end.

(** [d[k]] where the code goes on to use an integer. *)
Definition getint (d : gmap string pyval) (k : string) : res Z :=
  x ← getitem d k;
  match x with
  | PInt z => Ok z
  | PBool b => Ok (of_bool b)
  | _ => Raise TypeError
  end.

(** [d[k] += n] *)
Definition iadd (d : gmap string pyval) (k : string) (n : Z) : res (gmap string pyval) :=
  z ← getint d k;
  Ok (<[k := PInt (z + n)]> d).

(** [d[k].append(x)] *)
Definition append (d : gmap string pyval) (k : string) (x : Q) : res (gmap string pyval) :=
  v ← getitem d k;
  match v with
  | PList l => Ok (<[k := PList (l ++ [x])%list]> d)
  | _ => Raise TypeError
  end.

(** Truth value of a Python object. *)
Definition py_bool (x : pyval) : bool :=
  match x with
  | PInt z => truthy z
  | PFloat q => negb (Qeq_bool q 0)
  | PStr s => negb (String.eqb s "")
  | PBool b => b
  | PNone => false
  | PList l => negb (Nat.eqb (length l) 0)
  end.

(** Numbers as exact rationals. *)
Definition py_num (x : pyval) : option Q :=
  match x with
  | PInt z => Some (inject_Z z)
  | PFloat q => Some q
  | PBool b => Some (inject_Z (of_bool b))
  | _ => None
  end.

(** Equality of two lists of floats, element by element. *)
Fixpoint qlist_eqb (l m : list Q) : bool :=
  match l, m with
  | [], [] => true
  | x :: l', y :: m' => Qeq_bool x y && qlist_eqb l' m'
  | _, _ => false
  end.

(** [x == y] *)
Definition py_eq (x y : pyval) : bool :=
  match py_num x, py_num y with
  | Some p, Some q => Qeq_bool p q
  | _, _ =>
    match x, y with
    | PStr s, PStr t => String.eqb s t
    | PNone, PNone => true
    | PList l, PList m => qlist_eqb l m
    | _, _ => false
    end
  end.

(** [x < y]; ordering a string against a number raises. *)
Definition py_lt (x y : pyval) : res bool :=
  match py_num x, py_num y with
  | Some p, Some q => Ok (negb (Qle_bool q p))
  | _, _ =>
    match x, y with
    | PStr s, PStr t => Ok (String.ltb s t)
    | _, _ => Raise TypeError
    end
  end.

(** ** C ints and floating point numbers *)

(** The value a 32-bit C int takes for the integer [z]: two's complement
    wrap-around. *)
Definition wrap32 (z : Z) : Z := (z + 2147483648) mod 4294967296 - 2147483648.
#[global] Arguments wrap32 : simpl never.

(** The range of a C int. *)
Definition int32 (z : Z) : Prop := -2147483648 <= z <= 2147483647.

(** [abs(x)] of a C int. *)
Definition c_abs (z : Z) : Z := wrap32 (Z.abs z).

(** The integer nearest to [n / d] for [n >= 0]; of two nearest ones, the
    even one. *)
Definition round_half_even (n : Z) (d : positive) : Z :=
  let q := n / Z.pos d in
  match 2 * (n mod Z.pos d) ?= Z.pos d with
  | Lt => q
  | Eq => if Z.even q then q else q + 1
  | Gt => q + 1
  end.

(** The binary floating point number with [prec] significant bits nearest
    to [q], ties to even.  With [2 ^ k <= |q| < 2 ^ (k + 1)] the numbers of
    the format around [q] are the multiples of [2 ^ (k - prec + 1)]. *)
Definition round_float (prec : Z) (q : Q) : Q :=
  let n := Z.abs (Qnum q) in
  let d := Qden q in
  if n =? 0 then 0%Q
  else
    let k := Z.log2 n - Z.log2 (Z.pos d) in
    let k := if (if 0 <=? k then Z.pos d * 2 ^ k <=? n else Z.pos d <=? n * 2 ^ (- k))
             then k else k - 1 in
    let e := k - prec + 1 in
    let m := if 0 <=? e then round_half_even n (d * Z.to_pos (2 ^ e))
             else round_half_even (n * 2 ^ (- e)) d in
    if 0 <=? e then inject_Z (Z.sgn (Qnum q) * m * 2 ^ e)
    else Qred (Z.sgn (Qnum q) * m # Z.to_pos (2 ^ (- e))).

(** A C [double], a Python or NumPy float. *)
Definition float64 : Q -> Q := round_float 53.

(** A C [float]. *)
Definition float32 : Q -> Q := round_float 24.

(** ** NumPy reductions *)

(** [int(x)] of a float: truncation toward zero. *)
Definition py_int (q : Q) : Z := Z.quot (Qnum q) (Z.pos (Qden q)).

Fixpoint insert_by {A : Type} (leb : A -> A -> bool) (x : A) (l : list A) : list A :=
  match l with
  | [] => [x]
  | y :: l' => if leb x y then x :: l else y :: insert_by leb x l'
  end.

(** [sorted(l)] with the order [leb]. *)
Definition sorted_by {A : Type} (leb : A -> A -> bool) (l : list A) : list A :=
  foldr (insert_by leb) [] l.

Definition qsum (l : list Q) : Q := foldr Qplus 0%Q l.

(** [np.mean(l)]; the callers test [len(l) > 0] first. *)
Definition np_mean (l : list Q) : Q :=
  (qsum l / inject_Z (Z.of_nat (length l)))%Q.

(** [np.median(l)] of integers: NumPy takes the mean, in float64, of the
    middle element of the sorted list, or of the two middle ones. *)
Definition np_median (l : list Z) : Q :=
  let s := sorted_by Z.leb l in
  let n := length s in
  if Nat.even n then
    float64 (float64 (float64 (inject_Z (nth (n / 2 - 1)%nat s 0%Z)) +
                      float64 (inject_Z (nth (n / 2)%nat s 0%Z))) / 2)%Q
  else float64 (inject_Z (nth (n / 2)%nat s 0)).

(** [a[i]] on a non-empty array, a negative index counting from the end. *)
Definition np_take (a : list Z) (i : Z) : Z :=
  nth (Z.to_nat (if i <? 0 then Z.of_nat (length a) + i else i)) a 0.

(** [np.percentile(l, [97.5])] with NumPy's default method, linear
    interpolation, on a list of integers.  The quantile is
    [97.5 / 100]; the virtual index [(n - 1) * quantile] is split in the
    index below and the weight [gamma] of the element above; an index at
    or beyond the last one is replaced by -1.  The interpolation is NumPy's
    [_lerp]: [a + (b - a) * gamma], replaced by
    [b - (b - a) * (1 - gamma)] where [gamma >= 0.5], each operation in
    float64. *)
Definition np_percentile_97_5 (l : list Z) : res Q :=
  match l with
  | [] => Raise IndexError
  | _ =>
    let arr := sorted_by Z.leb l in
    let values_count := Z.of_nat (length arr) in
    let quantile := float64 ((975 # 10) / 100) in
    let virtual_index := float64 (inject_Z (values_count - 1) * quantile) in
    let above := Qle_bool (inject_Z (values_count - 1)) virtual_index in
    let previous_index := if above then -1 else Qfloor virtual_index in
    let next_index := if above then -1 else Qfloor virtual_index + 1 in
    let previous := np_take arr previous_index in
    let next := np_take arr next_index in
    let gamma := float64 (virtual_index - inject_Z previous_index) in
    let diff_b_a := next - previous in
    if Qle_bool (1 # 2) gamma then
      Ok (float64 (inject_Z next -
                   float64 (inject_Z diff_b_a * float64 (1 - gamma))))%Q
    else
      Ok (float64 (inject_Z previous + float64 (inject_Z diff_b_a * gamma)))%Q
  end.

(** ** Breakpoint consensus *)

(** Order on the sweep events [(position, delta, precise)]: Python's tuple
    comparison. *)
Definition op_leb (x y : Z * Z * Z) : bool :=
  let '(a1, b1, c1) := x in
  let '(a2, b2, c2) := y in
  (a1 <? a2) || ((a1 =? a2) && ((b1 <? b2) || ((b1 =? b2) && (c1 <=? c2)))).

(** The scan [for idx, item in enumerate(ops)] of [break_ops], with state
    [(cum_sum, max_sum, max_sum_i)]. *)
Fixpoint sweep (ops : list (Z * Z * Z)) (idx : nat) (st : Z * Z * nat) : Z * Z * nat :=
  match ops with
  | [] => st
  | item :: ops' =>
    let '(cum_sum, max_sum, max_sum_i) := st in
    let cum_sum := cum_sum + item.1.2 in
    if cum_sum >? max_sum then sweep ops' (S idx) (cum_sum, cum_sum, idx)
    else sweep ops' (S idx) (cum_sum, max_sum, max_sum_i)
  end.

(** [break_ops], line 1535.  [i], [limit] and [v] are C ints, so the far
    end [i + limit] of an interval and the end [i + v] of a precise one
    wrap; [median_pos] is a C [float]; [int(...) - median_pos] is a Python
    float. *)
Definition break_ops (positions precise : list Z) (limit : Z) (median_pos : Q)
    : res (Z * Z * Z) :=
  let median_pos := float32 median_pos in
  let ops := flat_map (fun i => [(i, 1, 0); (wrap32 (i + limit), -1, 0)]) positions in
  let v := if limit <? 0 then -1 else 1 in
  let ops := (ops ++ flat_map (fun i =>
    [(i, 1, 1); if v =? -1 then (wrap32 (wrap32 (i + v) + 1), -1, 1)
                else (wrap32 (i + v), -1, 1)]) precise)%list in
  let ops := if limit <? 0 then sorted_by (fun x y => op_leb y x) ops
             else sorted_by op_leb ops in
  let '(_, _, max_sum_i) := sweep ops 0%nat (0, 0, 0%nat) in
  match ops !! max_sum_i with
  | None => Raise IndexError
  | Some (break_point, _, is_precise) =>
    let is_precise :=
      if negb (truthy is_precise) then
        if existsb (fun i => i =? break_point) precise then 1 else is_precise
      else is_precise in
    if truthy is_precise && (1 <? Z.of_nat (length precise)) then
      Ok (break_point, 0, is_precise)
    else
      pct ← np_percentile_97_5 positions;
      Ok (break_point,
          py_int (Qabs (float64 (inject_Z (py_int pct) - median_pos))),
          is_precise)
  end.

(** [a < b] on floats. *)
Definition Qlt_bool (a b : Q) : bool := negb (Qle_bool b a).

(** [infer_unmapped_insertion_break_point], line 1580.  The breakpoints
    are C ints: their difference and the steps of 1 wrap.  [sep / 2] and
    [cipos95A / 2] are C doubles, exact for a 32-bit numerator. *)
Definition infer_unmapped_insertion_break_point
    (main_A_break cipos95A preciseA main_B_break cipos95B preciseB : Z)
    : Z * Z * Z * Z * Z * Z * Z :=
  let svlen := 0 in
  let '(main_A_break, main_B_break, svlen) :=
    if negb (truthy preciseA) && negb (truthy preciseB) then
      let sep := c_abs (wrap32 (main_B_break - main_A_break)) in
      let svlen := Z.min sep (Z.max cipos95A cipos95B) in
      let mid := py_int (inject_Z sep / 2) + Z.min main_A_break main_B_break in
      (mid, wrap32 (mid + 1), svlen)
    else (main_A_break, main_B_break, svlen) in
  let '(main_A_break, svlen) :=
    if negb (truthy preciseA) && truthy preciseB then
      let main_A_break :=
        if main_A_break <? main_B_break then wrap32 (main_B_break - 1)
        else wrap32 (main_B_break + 1) in
      (main_A_break, py_int (inject_Z cipos95A / 2))
    else (main_A_break, svlen) in
  let '(main_B_break, svlen) :=
    if negb (truthy preciseB) && truthy preciseA then
      let main_B_break :=
        if main_A_break <? main_B_break then wrap32 (main_A_break + 1)
        else wrap32 (main_A_break - 1) in
      (main_B_break, py_int (inject_Z cipos95B / 2))
    else (main_B_break, svlen) in
  (main_A_break, cipos95A, preciseA, main_B_break, cipos95B, preciseB, svlen).

(** Lines 1627 to 1658 of [make_call]: the two sweeps, with the sign of
    the limit, a C int, chosen by [svtype] and [jointype].  The result is
    [(main_A_break, cipos95A, preciseA, main_B_break, cipos95B, preciseB)]. *)
Definition make_call_sides (positionsA positionsB breakA_precise breakB_precise : list Z)
    (svtype jointype : string) (limit : Z) (median_A median_B : Q)
    : res (Z * Z * Z * Z * Z * Z) :=
  if String.eqb svtype "DEL" then
    if Qlt_bool median_A median_B then
      '(main_A_break, cipos95A, preciseA) ← break_ops positionsA breakA_precise limit median_A;
      '(main_B_break, cipos95B, preciseB) ← break_ops positionsB breakB_precise (wrap32 (- limit)) median_B;
      Ok (main_A_break, cipos95A, preciseA, main_B_break, cipos95B, preciseB)
    else
      '(main_B_break, cipos95B, preciseA) ← break_ops positionsB breakB_precise limit median_B;
      '(main_A_break, cipos95A, preciseB) ← break_ops positionsA breakA_precise (wrap32 (- limit)) median_A;
      Ok (main_A_break, cipos95A, preciseA, main_B_break, cipos95B, preciseB)
  else if String.eqb svtype "DUP" then
    if Qlt_bool median_A median_B then
      '(main_A_break, cipos95A, preciseA) ← break_ops positionsA breakA_precise (wrap32 (- limit)) median_A;
      '(main_B_break, cipos95B, preciseB) ← break_ops positionsB breakB_precise limit median_B;
      Ok (main_A_break, cipos95A, preciseA, main_B_break, cipos95B, preciseB)
    else
      '(main_A_break, cipos95A, preciseA) ← break_ops positionsA breakA_precise limit median_A;
      '(main_B_break, cipos95B, preciseB) ← break_ops positionsB breakB_precise (wrap32 (- limit)) median_B;
      Ok (main_A_break, cipos95A, preciseA, main_B_break, cipos95B, preciseB)
  else if String.eqb jointype "3to3" then
    '(main_A_break, cipos95A, preciseA) ← break_ops positionsA breakA_precise limit median_A;
    '(main_B_break, cipos95B, preciseB) ← break_ops positionsB breakB_precise limit median_B;
    Ok (main_A_break, cipos95A, preciseA, main_B_break, cipos95B, preciseB)
  else if String.eqb jointype "5to5" then
    '(main_A_break, cipos95A, preciseA) ← break_ops positionsA breakA_precise (wrap32 (- limit)) median_A;
    '(main_B_break, cipos95B, preciseB) ← break_ops positionsB breakB_precise (wrap32 (- limit)) median_B;
    Ok (main_A_break, cipos95A, preciseA, main_B_break, cipos95B, preciseB)
  else if String.eqb jointype "3to5" then
    '(main_A_break, cipos95A, preciseA) ← break_ops positionsA breakA_precise limit median_A;
    '(main_B_break, cipos95B, preciseB) ← break_ops positionsB breakB_precise (wrap32 (- limit)) median_B;
    Ok (main_A_break, cipos95A, preciseA, main_B_break, cipos95B, preciseB)
  else
    '(main_A_break, cipos95A, preciseA) ← break_ops positionsA breakA_precise (wrap32 (- limit)) median_A;
    '(main_B_break, cipos95B, preciseB) ← break_ops positionsB breakB_precise limit median_B;
    Ok (main_A_break, cipos95A, preciseA, main_B_break, cipos95B, preciseB).

(** [q_gaps = [i.query_gap for i in informative if i.query_gap != -1]] *)
Definition recorded_gaps (informative : list AlignmentItem) : list Z :=
  List.filter (fun g => negb (g =? -1)) (map query_gap informative).

(** Lines 1661 to 1672 of [make_call]: the length of the variant, and for
    an insertion without a recorded gap the adjusted breakpoints.  The sum
    of the recorded gaps is an integer, exact in float64; the mean is the
    rounded quotient.  The distance of the breakpoints is computed on C
    ints. *)
Definition make_call_svlen (informative : list AlignmentItem) (informative_0 : AlignmentItem)
    (svtype : string) (sides : Z * Z * Z * Z * Z * Z) : Z * Z * Z * Z * Z * Z * Z :=
  let '(main_A_break, cipos95A, preciseA, main_B_break, cipos95B, preciseB) := sides in
  if chrA informative_0 =? chrB informative_0 then
    if String.eqb svtype "INS" then
      let q_gaps := recorded_gaps informative in
      if 0 <? Z.of_nat (length q_gaps) then
        (main_A_break, cipos95A, preciseA, main_B_break, cipos95B, preciseB,
         py_int (float64 (np_mean (map inject_Z q_gaps))))
      else
        infer_unmapped_insertion_break_point
          main_A_break cipos95A preciseA main_B_break cipos95B preciseB
    else
      (main_A_break, cipos95A, preciseA, main_B_break, cipos95B, preciseB,
       c_abs (wrap32 (main_B_break - main_A_break)))
  else
    (main_A_break, cipos95A, preciseA, main_B_break, cipos95B, preciseB, 0).

(** [make_call], line 1612.  [limit] is a C int and the two medians are C
    floats: NumPy's float64 median is rounded to 24 bits when it is stored.
    On an empty list every path of the source ends in an exception, at the
    latest at [informative[0]]; the embedding raises at once. *)
Definition make_call (informative : list AlignmentItem) (breakA_precise breakB_precise : list Z)
    (svtype jointype : string) (insert_size insert_stdev : Z) : res (gmap string pyval) :=
  match informative with
  | [] => Raise IndexError
  | informative_0 :: _ =>
    let limit := wrap32 (insert_size + insert_stdev) in
    let positionsA := map breakA informative in
    let positionsB := map breakB informative in
    let median_A := float32 (np_median positionsA) in
    let median_B := float32 (np_median positionsB) in
    sides ← make_call_sides positionsA positionsB breakA_precise breakB_precise
               svtype jointype limit median_A median_B;
    let '(main_A_break, cipos95A, preciseA, main_B_break, cipos95B, preciseB, svlen) :=
      make_call_svlen informative informative_0 svtype sides in
    Ok (<["svtype" := PStr svtype]> (<["join_type" := PStr jointype]> (
        <["chrA" := PInt (chrA informative_0)]> (<["chrB" := PInt (chrB informative_0)]> (
        <["cipos95A" := PInt cipos95A]> (<["cipos95B" := PInt cipos95B]> (
        <["posA" := PInt main_A_break]> (<["posB" := PInt main_B_break]> (
        <["preciseA" := PInt preciseA]> (<["preciseB" := PInt preciseB]> (
        <["svlen" := PInt svlen]> ∅)))))))))))
  end.

(** ** Evidence aggregator *)

(** The part of pysam's [AlignedSegment] that the aggregators read.  An
    optional tag is [None] when [has_tag] is false. *)
Record AlignedSegment : Type := mkRead {
  qname : string;
  flag : Z;
  cigartuples : cigar;
  mapq : Z;
  tag_DP : option Q;
  tag_DN : option Q;
  tag_DA : option Q;
  tag_NM : option Q;
  tag_AS : option Q;
  tag_SA : option string
}.

(** [s.count(";")] *)
Fixpoint count_semicolon (s : string) : Z :=
  match s with
  | EmptyString => 0
  | String c s' => (if Ascii.eqb c ";"%char then 1 else 0) + count_semicolon s'
  end.

(** [n_aligned_bases], line 65. *)
Definition n_aligned_bases (ct : cigar) : Q * Q * Q :=
  let '(aligned, large_gaps, n_small_gaps) :=
    fold_left (fun '(aligned, large_gaps, n_small_gaps) '(opp, l) =>
      if opp =? 0 then (aligned + l, large_gaps, n_small_gaps)
      else if (opp =? 1) || (opp =? 2) then
        if l >=? 30 then (aligned, large_gaps + l, n_small_gaps)
        else (aligned, large_gaps, n_small_gaps + 1)
      else (aligned, large_gaps, n_small_gaps)) ct (0, 0, 0) in
  (inject_Z aligned, inject_Z large_gaps, inject_Z n_small_gaps).

(** [x / y] on C floats; Cython raises on a zero divisor. *)
Definition fdiv (x y : Q) : res Q :=
  if Qeq_bool y 0 then Raise ZeroDivisionError else Ok (x / y)%Q.

(** [if a.has_tag(t): r[k].append(float(a.get_tag(t)))] *)
Definition append_tag (r : gmap string pyval) (k : string) (t : option Q)
    : res (gmap string pyval) :=
  match t with
  | Some x => append r k x
  | None => Ok r
  end.

(** [if a.has_tag("SA"): r["n_sa"].append(a.get_tag("SA").count(";"))] *)
Definition append_n_sa (r : gmap string pyval) (a : AlignedSegment) : res (gmap string pyval) :=
  match tag_SA a with
  | Some sa => append r "n_sa" (inject_Z (count_semicolon sa))
  | None => Ok r
  end.

(** The [NM] block of a primary read. *)
Definition append_NMpri (r : gmap string pyval) (a : AlignedSegment) (a_bases large_gaps : Q)
    : res (gmap string pyval) :=
  match tag_NM a with
  | Some nm =>
    if negb (Qeq_bool a_bases 0) then
      r ← append r "NMpri" (nm / a_bases)%Q;
      append r "NMbase" ((nm - large_gaps) / a_bases)%Q
    else append r "NMpri" 0%Q
  | None => Ok r
  end.

(** The [NM] block of a supplementary read. *)
Definition append_NMsupp (r : gmap string pyval) (a : AlignedSegment) (a_bases : Q)
    : res (gmap string pyval) :=
  match tag_NM a with
  | Some nm =>
    if negb (Qeq_bool a_bases 0) then append r "NMsupp" (nm / a_bases)%Q
    else append r "NMsupp" 0%Q
  | None => Ok r
  end.

(** [if flag & 16: r["minus"] += 1 else: r["plus"] += 1] *)
Definition count_strand (r : gmap string pyval) (flag : Z) : res (gmap string pyval) :=
  if truthy (Z.land flag 16) then iadd r "minus" 1 else iadd r "plus" 1.

(** [ct = a.cigartuples; if ct[0][0] == 4 or ct[-1][0] == 4: r["sc"] += 1] *)
Definition count_soft_clip (r : gmap string pyval) (a : AlignedSegment) : res (gmap string pyval) :=
  let ct := cigartuples a in
  c_0 ← py_first ct;
  if c_0.1 =? 4 then iadd r "sc" 1
  else
    c_1 ← py_last ct;
    if c_1.1 =? 4 then iadd r "sc" 1 else Ok r.

(** State of the loops: the dictionary [r] and the sets [paired_end], [seen]. *)
Definition attr_state : Type := gmap string pyval * gset string * gset string.

(** Sequential [for a in reads: body]. *)
Fixpoint for_reads (body : attr_state -> AlignedSegment -> res attr_state)
    (reads : list AlignedSegment) (st : attr_state) : res attr_state :=
  match reads with
  | [] => Ok st
  | a :: reads' => st ← body st a; for_reads body reads' st
  end.

(** [for k in keys: if len(r[k]) > 0: r[k] = f(r[k]) else: r[k] = 0] *)
Fixpoint reduce_lists (f : list Q -> pyval) (keys : list string) (r : gmap string pyval)
    : res (gmap string pyval) :=
  match keys with
  | [] => Ok r
  | k :: keys' =>
    x ← getitem r k;
    match x with
    | PList l =>
      reduce_lists f keys' (<[k := if 0 <? Z.of_nat (length l) then f l else PInt 0]> r)
    | _ => Raise TypeError
    end
  end.

(** [max(l)] of a non-empty list of floats. *)
Definition qmax (l : list Q) : Q :=
  match l with
  | [] => 0%Q
  | x :: l' => fold_left (fun m y => if Qlt_bool m y then y else m) l' x
  end.

(** The reductions that close both aggregators. *)
Definition reduce_attrs (mean_keys : list string) (r : gmap string pyval)
    : res (gmap string pyval) :=
  r ← reduce_lists (fun l => PFloat (np_mean l * 100)%Q) ["NMpri"; "NMsupp"; "NMbase"; "n_gaps"] r;
  r ← reduce_lists (fun l => PFloat (np_mean l)) mean_keys r;
  reduce_lists (fun l => PInt (py_int (qmax l))) ["maxASsupp"] r.

(** [r["n_gaps"].append(n_small_gaps / a_bases)]: the subscript is
    evaluated before the argument. *)
Definition append_n_gaps (r : gmap string pyval) (n_small_gaps a_bases : Q)
    : res (gmap string pyval) :=
  _ ← getitem r "n_gaps";
  x ← fdiv n_small_gaps a_bases;
  append r "n_gaps" x.

(** The block of a primary read in the first loop of either aggregator;
    [da] says whether the [DA] tag is collected (extended mode). *)
Definition primary_block (da : bool) (is_insertion : bool) (st : attr_state)
    (a : AlignedSegment) (a_bases large_gaps : Q) : res attr_state :=
  let '(r, paired_end, seen) := st in
  let qname := qname a in
  let flag := flag a in
  let has_sa := bool_decide (is_Some (tag_SA a)) in
  r ← append r "MAPQpri" (inject_Z (mapq a));
  '(r, paired_end, pe_support) ←
    (if bool_decide (qname ∈ paired_end) then
       r ← iadd r "pe" 1; Ok (r, paired_end, 1)
     else Ok (r, {[qname]} ∪ paired_end, 0));
  r ← (if negb (truthy pe_support) && is_insertion then
         if (has_sa && truthy (Z.land flag 2)) || truthy (Z.land flag 8) then iadd r "pe" 1
         else Ok r
       else Ok r);
  r ← (if da then append_tag r "DApri" (tag_DA a) else Ok r);
  r ← append_NMpri r a a_bases large_gaps;
  Ok (r, paired_end, seen).

(** The block of a supplementary read; [w] is the weight, 1 in the first
    loop and 2 for spanning reads. *)
Definition supplementary_block (da : bool) (w : Z) (r : gmap string pyval)
    (a : AlignedSegment) (a_bases : Q) : res (gmap string pyval) :=
  r ← iadd r "supp" w;
  r ← append r "MAPQsupp" (inject_Z (mapq a));
  r ← (if da then append_tag r "DAsupp" (tag_DA a) else Ok r);
  r ← append_NMsupp r a a_bases;
  append_tag r "maxASsupp" (tag_AS a).

(** The block of a primary read in the loop over spanning reads. *)
Definition spanning_primary_block (da : bool) (st : attr_state)
    (a : AlignedSegment) (a_bases large_gaps : Q) : res attr_state :=
  let '(r, paired_end, seen) := st in
  r ← append r "MAPQpri" (inject_Z (mapq a));
  '(r, paired_end) ←
    (if bool_decide (qname a ∈ paired_end) then r ← iadd r "pe" 2; Ok (r, paired_end)
     else Ok (r, {[qname a]} ∪ paired_end));
  r ← (if da then append_tag r "DApri" (tag_DA a) else Ok r);
  r ← append_NMpri r a a_bases large_gaps;
  Ok (r, paired_end, seen).

(** [if qname not in seen: ...; seen.add(qname)] of the extended mode. *)
Definition once_per_template (st : attr_state) (a : AlignedSegment) : res attr_state :=
  let '(r, paired_end, seen) := st in
  if negb (bool_decide (qname a ∈ seen)) then
    r ← append_tag r "DP" (tag_DP a);
    r ← append_tag r "DN" (tag_DN a);
    Ok (r, paired_end, {[qname a]} ∪ seen)
  else Ok st.

(** [normal_attrs], line 236. *)
Definition normal_attrs (reads1 reads2 spanning : list AlignedSegment)
    (min_support : Z) (svtype : pyval) : res (gmap string pyval) :=
  let r : gmap string pyval :=
    <["pe" := PInt 0]> (<["supp" := PInt 0]> (<["sc" := PInt 0]> (
    <["NMpri" := PList []]> (<["NMsupp" := PList []]> (<["maxASsupp" := PList []]> (
    <["MAPQpri" := PList []]> (<["MAPQsupp" := PList []]> (
    <["plus" := PInt 0]> (<["minus" := PInt 0]> (<["NP" := PInt 0]> (
    <["spanning" := PInt (Z.of_nat (length spanning))]> (
    <["NMbase" := PList []]> (<["n_gaps" := PList []]> (<["n_sa" := PList []]> ∅)))))))))))))) in
  let is_insertion := py_eq svtype (PStr "INS") in
  st ← for_reads (fun st a =>
      let '(r, paired_end, seen) := st in
      let flag := flag a in
      r ← append_n_sa r a;
      let '(a_bases, large_gaps, n_small_gaps) := n_aligned_bases (cigartuples a) in
      r ← append_n_gaps r n_small_gaps a_bases;
      r ← (if truthy (Z.land flag 2) then iadd r "NP" 1 else Ok r);
      '(r, paired_end, seen) ←
        (if truthy (Z.land flag 2304) then
           r ← supplementary_block false 1 r a a_bases; Ok (r, paired_end, seen)
         else primary_block false is_insertion (r, paired_end, seen) a a_bases large_gaps);
      r ← count_strand r flag;
      r ← count_soft_clip r a;
      Ok (r, paired_end, seen))
    (reads1 ++ reads2)%list (r, ∅, ∅);
  st ← for_reads (fun st a =>
      let '(r, paired_end, seen) := st in
      let flag := flag a in
      let '(a_bases, large_gaps, n_small_gaps) := n_aligned_bases (cigartuples a) in
      r ← append_n_sa r a;
      r ← append_n_gaps r n_small_gaps a_bases;
      r ← (if truthy (Z.land flag 2) then iadd r "NP" 1 else Ok r);
      '(r, paired_end, seen) ←
        (if negb (truthy (Z.land flag 256)) then
           spanning_primary_block false (r, paired_end, seen) a a_bases large_gaps
         else if truthy (Z.land flag 2304) then
           r ← supplementary_block false 2 r a a_bases; Ok (r, paired_end, seen)
         else Ok (r, paired_end, seen));
      r ← count_strand r flag;
      Ok (r, paired_end, seen))
    spanning st;
  reduce_attrs ["MAPQpri"; "MAPQsupp"; "n_sa"] st.1.1.

(** [extended_attrs], line 80. *)
Definition extended_attrs (reads1 reads2 spanning : list AlignedSegment)
    (min_support : Z) (svtype : pyval) : res (gmap string pyval) :=
  let r : gmap string pyval :=
    <["pe" := PInt 0]> (<["supp" := PInt 0]> (<["sc" := PInt 0]> (
    <["DP" := PList []]> (<["DApri" := PList []]> (<["DN" := PList []]> (
    <["NMpri" := PList []]> (<["NP" := PInt 0]> (<["DAsupp" := PList []]> (
    <["NMsupp" := PList []]> (<["maxASsupp" := PList []]> (
    <["MAPQpri" := PList []]> (<["MAPQsupp" := PList []]> (
    <["plus" := PInt 0]> (<["minus" := PInt 0]> (
    <["spanning" := PInt (Z.of_nat (length spanning))]> (
    <["NMbase" := PList []]> (<["n_sa" := PList []]> ∅))))))))))))))))) in
  let is_insertion := py_eq svtype (PStr "INS") in
  st ← for_reads (fun st a =>
      '(r, paired_end, seen) ← once_per_template st a;
      let flag := flag a in
      r ← (if truthy (Z.land flag 2) then iadd r "NP" 1 else Ok r);
      r ← append_n_sa r a;
      let '(a_bases, large_gaps, n_small_gaps) := n_aligned_bases (cigartuples a) in
      r ← append_n_gaps r n_small_gaps a_bases;
      '(r, paired_end, seen) ←
        (if negb (truthy (Z.land flag 256)) then
           primary_block true is_insertion (r, paired_end, seen) a a_bases large_gaps
         else if truthy (Z.land flag 2304) then
           r ← supplementary_block true 1 r a a_bases; Ok (r, paired_end, seen)
         else Ok (r, paired_end, seen));
      r ← count_strand r flag;
      r ← count_soft_clip r a;
      Ok (r, paired_end, seen))
    (reads1 ++ reads2)%list (r, ∅, ∅);
  st ← for_reads (fun st a =>
      '(r, paired_end, seen) ← once_per_template st a;
      let flag := flag a in
      r ← (if truthy (Z.land flag 2) then iadd r "NP" 1 else Ok r);
      r ← append_n_sa r a;
      let '(a_bases, large_gaps, n_small_gaps) := n_aligned_bases (cigartuples a) in
      r ← append_n_gaps r n_small_gaps a_bases;
      '(r, paired_end, seen) ←
        (if truthy (Z.land flag 2304) then
           r ← supplementary_block true 2 r a a_bases; Ok (r, paired_end, seen)
         else spanning_primary_block true (r, paired_end, seen) a a_bases large_gaps);
      r ← count_strand r flag;
      Ok (r, paired_end, seen))
    spanning st;
  let r := st.1.1 in
  pe ← getint r "pe";
  supp ← getint r "supp";
  if pe + supp <? min_support then Ok ∅
  else reduce_attrs ["DP"; "DApri"; "DN"; "DAsupp"; "MAPQpri"; "MAPQsupp"; "n_sa"] r.

(** [count_attributes], line 366. *)
Definition count_attributes (reads1 reads2 spanning : list AlignedSegment)
    (min_support extended_tags : Z) (svtype : pyval) : res (gmap string pyval) :=
  if truthy extended_tags then extended_attrs reads1 reads2 spanning min_support svtype
  else normal_attrs reads1 reads2 spanning min_support svtype.

(** ** Cluster orchestrator: from the aggregation to the returned call *)

(** What the assembler hands back when it built a contig. *)
Record assembly : Type := mkAssembly {
  contig : pyval;
  left_clips : Z;
  right_clips : Z;
  ref_bases : Z
}.

(** A spanning tuple [(op, rname, event_pos, end, length, alignment)]. *)
Definition spanning_tuple : Type := Z * Z * Z * Z * Z * AlignedSegment.

Section Collaborators.

(** [assembler.base_assemble(reads, pos, window)]; [None] stands for no
    result and for a result without a contig. *)
Variable base_assemble : list AlignedSegment -> pyval -> Z -> option assembly.

(** [if info[k]: as = assembler.base_assemble(reads, info[p], 500)] *)
Definition assemble_if (info : gmap string pyval) (k p : string) (reads : list AlignedSegment)
    : res (option assembly) :=
  precise ← getitem info k;
  if py_bool precise then
    pos ← getitem info p;
    Ok (base_assemble reads pos 500)
  else Ok None.

(** Lines 750 to 797 of [single]: what follows the consensus.  The
    arguments are the locals at that point. *)
Definition single_tail (info : gmap string pyval)
    (informative_reads u_reads v_reads : list AlignedSegment)
    (spanning_alignments : list spanning_tuple)
    (min_found_support min_support to_assemble extended_tags : Z)
    : res (gmap string pyval) :=
  svtype ← getitem info "svtype";
  attrs ← count_attributes informative_reads [] (map snd spanning_alignments)
             min_support extended_tags svtype;
  pe ← getint attrs "pe";
  supp ← getint attrs "supp";
  spanning ← getint attrs "spanning";
  let attrs := if min_found_support >? pe + supp + 2 * spanning
               then <["pe" := PInt min_found_support]> attrs else attrs in
  if Nat.eqb (size attrs) 0 then Ok ∅
  else
    pe ← getint attrs "pe";
    supp ← getint attrs "supp";
    spanning ← getint attrs "spanning";
    keep ←
      (if pe + supp + 2 * spanning <? min_support then
         if py_eq svtype (PStr "INS") then
           sc ← getint attrs "sc";
           Ok ((supp + spanning >? 0) && (supp + sc + spanning >? min_support))
         else Ok false
       else Ok true);
    if negb keep then Ok ∅
    else
      let info := attrs ∪ info in
      let n_spanning := Z.of_nat (length spanning_alignments) in
      '(as1, as2) ←
        (if truthy to_assemble || (0 <? n_spanning) then
           as1 ← assemble_if info "preciseA" "posA" u_reads;
           as2 ← assemble_if info "preciseB" "posB" v_reads;
           Ok (as1, as2)
         else Ok (None : option assembly, None : option assembly));
      let info := <["linked" := PInt 0]> info in
      let info := <["block_edge" := PInt 0]> info in
      let info := <["contig" := PNone]> info in
      let info := <["contig2" := PNone]> info in
      let rbases := 0 in
      let '(info, rbases) :=
        match as1 with
        | Some a1 =>
          if truthy (left_clips a1) || truthy (right_clips a1) || (0 <? n_spanning)
          then (<["contig" := contig a1]> info, rbases + ref_bases a1)
          else (info, rbases)
        | None => (info, rbases)
        end in
      let '(info, rbases) :=
        match as2 with
        | Some a2 =>
          if truthy (left_clips a2) || truthy (right_clips a2)
          then (<["contig2" := contig a2]> info, rbases + ref_bases a2)
          else (info, rbases)
        | None => (info, rbases)
        end in
      Ok (<["ref_bases" := PInt rbases]> info).

(** Lines 1951 to 1984 of [one_edge]: what follows the consensus. *)
Definition one_edge_tail (info : gmap string pyval)
    (u_reads v_reads : list AlignedSegment)
    (spanning_alignments : list spanning_tuple)
    (min_support block_edge assemble extended_tags : Z)
    : res (gmap string pyval) :=
  svtype ← getitem info "svtype";
  attrs ← count_attributes u_reads v_reads (map snd spanning_alignments)
             min_support extended_tags svtype;
  low ←
    (if Nat.eqb (size attrs) 0 then Ok true
     else
       pe ← getint attrs "pe";
       supp ← getint attrs "supp";
       Ok (pe + supp + Z.of_nat (length spanning_alignments) <? min_support));
  if (low : bool) then Ok ∅
  else
    let info := attrs ∪ info in
    '(as1, as2) ←
      (if truthy assemble then
         as1 ← assemble_if info "preciseA" "posA" u_reads;
         as2 ← assemble_if info "preciseB" "posB" v_reads;
         Ok (as1, as2)
       else Ok (None : option assembly, None : option assembly));
    let info := <["linked" := PInt 0]> info in
    let info := <["block_edge" := PInt block_edge]> info in
    let info := <["contig" := PNone]> info in
    let info := <["contig2" := PNone]> info in
    let rbases := 0 in
    let '(info, rbases) :=
      match as1 with
      | Some a1 => (<["contig" := contig a1]> info, rbases + ref_bases a1)
      | None => (info, rbases)
      end in
    let '(info, rbases) :=
      match as2 with
      | Some a2 => (<["contig2" := contig a2]> info, rbases + ref_bases a2)
      | None => (info, rbases)
      end in
    Ok (<["ref_bases" := PInt rbases]> info).

End Collaborators.

(** ** Regional annotation *)

(** [round(x, 3)], half to even. *)
Definition py_round3 (q : Q) : Q :=
  let x := (q * 1000)%Q in
  let f := Qfloor x in
  let d := (x - inject_Z f)%Q in
  let n := if Qlt_bool d (1 # 2) then f
           else if Qlt_bool (1 # 2) d then f + 1
           else if Z.even f then f else f + 1 in
  (inject_Z n / 1000)%Q.

(** The body of [if switch:], lines 2157 to 2165. *)
Definition swap_labels (r : gmap string pyval) : res (gmap string pyval) :=
  chrA ← getitem r "chrA";
  posA ← getitem r "posA";
  cipos95A ← getitem r "cipos95A";
  contig2 ← getitem r "contig2";
  x ← getitem r "chrB";
  let r := <["chrA" := x]> r in
  x ← getitem r "posB";
  let r := <["posA" := x]> r in
  x ← getitem r "cipos95B";
  let r := <["cipos95A" := x]> r in
  let r := <["chrB" := chrA]> r in
  let r := <["posB" := posA]> r in
  let r := <["cipos95B" := cipos95A]> r in
  x ← getitem r "contig";
  let r := <["contig2" := x]> r in
  let r := <["contig" := contig2]> r in
  Ok r.

Section Regions.

(** The collaborators of the annotation, with [regions], [regions_depth]
    and [infile] fixed: [io_funcs.intersecterpy],
    [list(regions[chrom].find_overlap(start, end))] as a list of intervals,
    [infile.get_tid], the table [regions_depth] and
    [coverage.calculate_coverage]. *)
Variable intersecterpy : pyval -> Z -> Z -> bool.
Variable find_overlap : pyval -> Z -> Z -> list (Z * Z).
Variable get_tid : pyval -> Z.
Variable depth_table : Type.
Variable regions_depth : gmap Z depth_table.
Variable calculate_coverage : Z -> Z -> depth_table -> Q.

(** Reads within 10 kb of [pos] on [chrom], 0 without a depth table. *)
Definition local_depth (chrom : pyval) (pos : Z) : pyval :=
  let chrom_i := get_tid chrom in
  match regions_depth !! chrom_i with
  | Some t => PFloat (py_round3 (calculate_coverage (pos - 10000) (pos + 10000) t))
  | None => PInt 0
  end.

(** The decision [(kind, switch)], lines 2117 to 2154. *)
Definition region_kind (r : gmap string pyval) : res (string * bool) :=
  chrA ← getitem r "chrA";
  posA ← getint r "posA";
  let ar := intersecterpy chrA posA (posA + 1) in
  chrB ← getitem r "chrB";
  posB ← getint r "posB";
  let br := intersecterpy chrB posB (posB + 1) in
  let kind := "extra-regional" in
  let switch :=
    if negb ar && negb br then
      if py_eq chrA chrB && (posA >? posB) then true else false
    else false in
  (* [switch = False]: the assignment above is overwritten *)
  let switch := false in
  let '(kind, switch) :=
    if (br && negb ar) || (negb br && ar) then
      ("hemi-regional", if negb br && ar then true else switch)
    else (kind, switch) in
  if ar && br then
    if py_eq chrA chrB then
      rA ← py_first (find_overlap chrA posA (posA + 1));
      rB ← py_first (find_overlap chrB posB (posB + 1));
      if (rA.1 =? rB.1) && (rA.2 =? rB.2) then
        Ok ("intra_regional", if posA >? posB then true else switch)
      else
        lt ← py_lt chrB chrA;
        let first := if (lt : bool) then chrB else chrA in
        Ok ("inter-regional", if negb (py_eq chrA first) then true else switch)
    else Ok ("inter-regional", switch)
  else Ok (kind, switch).

(** [get_raw_coverage_information], line 2115. *)
Definition get_raw_coverage_information (r : gmap string pyval) : res (gmap string pyval) :=
  '(kind, switch) ← region_kind r;
  r ← (if (switch : bool) then swap_labels r else Ok r);
  chrA ← getitem r "chrA";
  posA ← getint r "posA";
  reads_10kb ←
    (if String.eqb kind "hemi-regional" then Ok (local_depth chrA posA)
     else
       let reads_10kb_left := local_depth chrA posA in
       chrB ← getitem r "chrB";
       posB ← getint r "posB";
       let reads_10kb_right := local_depth chrB posB in
       gt ← py_lt reads_10kb_right reads_10kb_left;
       Ok (if (gt : bool) then reads_10kb_left else reads_10kb_right));
  let r := <["kind" := PStr kind]> r in
  let r := <["raw_reads_10kb" := reads_10kb]> r in
  chrA ← getitem r "chrA";
  chrB ← getitem r "chrB";
  let r := if negb (py_eq chrA chrB) then <["svlen" := PInt 1000000]> r else r in
  pe ← getint r "pe";
  supp ← getint r "supp";
  spanning ← getint r "spanning";
  Ok (<["su" := PInt (pe + supp + spanning)]> r).

End Regions.

(** ** Notions used in the statements *)

(** "A is first" as [same_read] and [different_read] test it. *)
Definition A_first (v : AlignmentItem) : bool :=
  (posA v <? posB v) || ((posA v =? posB v) && (endA v <=? endB v)).

(** The item as [classify_d] hands it to a regime: precision flags cleared. *)
Definition cleared (v : AlignmentItem) : AlignmentItem :=
  set_breakB_precise (set_breakA_precise v 0) 0.

(** [holds P x] is [P x]; it keeps a statement apart from the item under
    evaluation while a regime is executed symbolically. *)
Definition holds {A : Type} (P : A -> Prop) (x : A) : Prop := P x.

(** The keys exchanged by [swap_labels]. *)
Definition swapped_keys : list string :=
  ["chrA"; "posA"; "cipos95A"; "chrB"; "posB"; "cipos95B"; "contig"; "contig2"].

(** The keys the annotation writes after the swap. *)
Definition annotation_keys : list string :=
  ["kind"; "raw_reads_10kb"; "svlen"; "su"].

(** The dictionary [swap_labels] leaves, in terms of the fields it read. *)
Definition swapped (r : gmap string pyval)
    (chrA posA cipos95A contig chrB posB cipos95B contig2 : pyval) : gmap string pyval :=
  <["contig" := contig2]> (<["contig2" := contig]> (
  <["cipos95B" := cipos95A]> (<["posB" := posA]> (<["chrB" := chrA]> (
  <["cipos95A" := cipos95B]> (<["posA" := posB]> (<["chrA" := chrB]> r))))))).

(** A finished call as the annotation expects it: integer coordinates and
    support counts, and the fields it exchanges all present. *)
Definition annotatable (r : gmap string pyval) : Prop :=
  (exists a b, r !! "posA" = Some (PInt a) /\ r !! "posB" = Some (PInt b)) /\
  (forall k, k ∈ swapped_keys -> is_Some (r !! k)) /\
  (exists pe supp spanning,
     r !! "pe" = Some (PInt pe) /\ r !! "supp" = Some (PInt supp) /\
     r !! "spanning" = Some (PInt spanning)).

(** The dictionary of a computation that returned. *)
Definition or_empty (m : res (gmap string pyval)) : gmap string pyval :=
  match m with
  | Ok d => d
  | Raise _ => ∅
  end.

(** ** Concrete inputs *)

(** Different physical reads, same chromosome, A forward and first, B
    reverse and supplementary. *)
Definition item_c4 : AlignmentItem :=
  new_AlignmentItem 1 1 1 0 1 2 100 200 300 400 3 5 0 1 1 0 0 100 0 100 0.

(** The same physical read split in two overlapping same-strand pieces. *)
Definition item_c6 : AlignmentItem :=
  new_AlignmentItem 1 1 1 0 1 1 100 200 150 250 3 3 0 1 1 0 0 100 90 190 0.

(** The pair of [item_c6] with its labels exchanged: the same two pieces
    of the same read, the piece that starts first on the reference now
    being B. *)
Definition item_c6_swapped : AlignmentItem :=
  new_AlignmentItem 1 1 0 1 1 1 150 250 100 200 3 3 1 0 0 1 90 190 0 100 0.

(** Two primary mates around a deletion at a coordinate above [2 ^ 24]: A
    forward, clipped on the right at 100000001, B reverse, clipped on the
    left at 100000301. *)
Definition item_c8 : AlignmentItem :=
  new_AlignmentItem 1 1 1 1 1 2 99999901 100000001 100000301 100000401
    3 5 0 1 1 0 0 100 0 100 0.

(** Two primary mates on the reverse strand, A clipped on the left only and
    B clipped on the right only. *)
Definition item_c5 : AlignmentItem :=
  new_AlignmentItem 1 1 1 1 1 2 100 200 300 400 5 5 1 0 0 1 0 100 0 100 0.

(** Two primary mates, B first and forward, A reverse: deletion-shaped,
    with a clip on B's right end only. *)
Definition item_c2 : AlignmentItem :=
  new_AlignmentItem 1 1 1 1 1 2 500 600 100 200 5 3 0 0 0 1 0 100 0 100 0.

(** The call [make_call] returns for [item_c2] alone, with 200 as the only
    precise B position, insert size 300 and deviation 50. *)
Definition call_c2 : gmap string pyval :=
  <["svtype" := PStr "DEL"]> (<["join_type" := PStr "3to5"]> (
  <["chrA" := PInt 1]> (<["chrB" := PInt 1]> (
  <["cipos95A" := PInt 0]> (<["cipos95B" := PInt 0]> (
  <["posA" := PInt 500]> (<["posB" := PInt 200]> (
  <["preciseA" := PInt 1]> (<["preciseB" := PInt 0]> (
  <["svlen" := PInt 300]> ∅)))))))))).

(** The call [make_call] returns for [item_c6] alone, classified INS with a
    recorded query gap of -10. *)
Definition call_c7 : gmap string pyval :=
  <["svtype" := PStr "INS"]> (<["join_type" := PStr "5to3"]> (
  <["chrA" := PInt 1]> (<["chrB" := PInt 1]> (
  <["cipos95A" := PInt 0]> (<["cipos95B" := PInt 0]> (
  <["posA" := PInt 200]> (<["posB" := PInt 150]> (
  <["preciseA" := PInt 1]> (<["preciseB" := PInt 1]> (
  <["svlen" := PInt (-10)]> ∅)))))))))).

(** The call [make_call] returns for [item_c6_swapped] alone, classified
    DUP. *)
Definition call_c7_swapped : gmap string pyval :=
  <["svtype" := PStr "DUP"]> (<["join_type" := PStr "5to3"]> (
  <["chrA" := PInt 1]> (<["chrB" := PInt 1]> (
  <["cipos95A" := PInt 0]> (<["cipos95B" := PInt 0]> (
  <["posA" := PInt 150]> (<["posB" := PInt 200]> (
  <["preciseA" := PInt 1]> (<["preciseB" := PInt 1]> (
  <["svlen" := PInt 50]> ∅)))))))))).

(** The call [make_call] returns for [item_c8] alone, with one precise
    position on each side. *)
Definition call_c8 : gmap string pyval :=
  <["svtype" := PStr "DEL"]> (<["join_type" := PStr "3to5"]> (
  <["chrA" := PInt 1]> (<["chrB" := PInt 1]> (
  <["cipos95A" := PInt 1]> (<["cipos95B" := PInt 3]> (
  <["posA" := PInt 100000001]> (<["posB" := PInt 100000301]> (
  <["preciseA" := PInt 1]> (<["preciseB" := PInt 1]> (
  <["svlen" := PInt 300]> ∅)))))))))).

(** The call [make_call] returns for [item_c4] alone, classified INS. *)
Definition info_c1 : gmap string pyval :=
  <["svtype" := PStr "INS"]> (<["join_type" := PStr "3to5"]> (
  <["chrA" := PInt 1]> (<["chrB" := PInt 1]> (
  <["cipos95A" := PInt 0]> (<["cipos95B" := PInt 0]> (
  <["posA" := PInt 200]> (<["posB" := PInt 300]> (
  <["preciseA" := PInt 1]> (<["preciseB" := PInt 1]> (
  <["svlen" := PInt 0]> ∅)))))))))).

(** A primary read of template [t1], forward, clipped on the right. *)
Definition read_pri : AlignedSegment :=
  {| qname := "t1"; flag := 65; cigartuples := [(0, 100); (4, 50)]; mapq := 60;
     tag_DP := None; tag_DN := None; tag_DA := None; tag_NM := None; tag_AS := None;
     tag_SA := None |}.

(** A supplementary read of the same template, reverse, clipped on the left. *)
Definition read_supp : AlignedSegment :=
  {| qname := "t1"; flag := 2193; cigartuples := [(4, 100); (0, 50)]; mapq := 60;
     tag_DP := None; tag_DN := None; tag_DA := None; tag_NM := None; tag_AS := None;
     tag_SA := None |}.

(** The basic aggregate of the two reads of template [t1]. *)
Definition attrs_c1 : gmap string pyval :=
  or_empty (normal_attrs [read_pri] [read_supp] [] 2 (PStr "INS")).

(** An assembler that builds nothing. *)
Definition no_assembly (reads : list AlignedSegment) (pos : pyval) (window : Z)
    : option assembly := None.

(** A finished same-chromosome call: [call_c2] with the support counts and
    the contig fields the orchestrator adds. *)
Definition record_c10 : gmap string pyval :=
  <["contig" := PStr "ACGT"]> (<["contig2" := PNone]> (
  <["pe" := PInt 3]> (<["supp" := PInt 2]> (<["spanning" := PInt 0]> call_c2)))).

(** Regions that hold position 500 and nothing else, and no depth table. *)
Definition region_at_500 (chrom : pyval) (start stop : Z) : bool := start =? 500.

Definition no_overlap (chrom : pyval) (start stop : Z) : list (Z * Z) := [].

Definition tid_zero (chrom : pyval) : Z := 0.

Definition no_depth : gmap Z unit := ∅.

Definition unit_coverage (start stop : Z) (t : unit) : Q := 0%Q.

(** ** Further notions used in the statements *)

(** A cigar operation that is a soft or a hard clip, as [mask_soft_clips]
    tests it. *)
Definition clipped (c : Z * Z) : bool := (c.1 =? 4) || (c.1 =? 5).

(** The types and the join types the classifier writes. *)
Definition svtypes : list string :=
  ["DEL"; "DUP"; "INV"; "INS"; "TRA"; "BND"; "INV:DUP"].

Definition join_types : list string := ["3to5"; "5to3"; "3to3"; "5to5"].

(** The attributes of an item that the constructor takes are the same in
    [v] and [v']. *)
Definition same_alignments (v v' : AlignmentItem) : Prop :=
  chrA v' = chrA v /\ chrB v' = chrB v /\ priA v' = priA v /\ priB v' = priB v /\
  rA v' = rA v /\ rB v' = rB v /\
  posA v' = posA v /\ endA v' = endA v /\ posB v' = posB v /\ endB v' = endB v /\
  strandA v' = strandA v /\ strandB v' = strandB v /\
  left_clipA v' = left_clipA v /\ right_clipA v' = right_clipA v /\
  left_clipB v' = left_clipB v /\ right_clipB v' = right_clipB v /\
  a_qstart v' = a_qstart v /\ a_qend v' = a_qend v /\
  b_qstart v' = b_qstart v /\ b_qend v' = b_qend v /\
  read_overlaps_mate v' = read_overlaps_mate v.

(** What a classification does to an item: it keeps the alignments, and
    with both strands 3 or 5 it writes a type and a join type of the two
    vocabularies. *)
Definition classified (v v' : AlignmentItem) : Prop :=
  same_alignments v v' /\
  ((strandA v = 3 \/ strandA v = 5) -> (strandB v = 3 \/ strandB v = 5) ->
   In (svtype v') svtypes /\ In (join_type v') join_types).

(** The events [break_ops] sorts and scans: two for each position, two
    for each precise position. *)
Definition sweep_events (positions precise : list Z) (limit : Z) : list (Z * Z * Z) :=
  (flat_map (fun i => [(i, 1, 0); (wrap32 (i + limit), -1, 0)]) positions ++
   flat_map (fun i =>
     [(i, 1, 1); if (if limit <? 0 then -1 else 1) =? -1
                 then (wrap32 (wrap32 (i + (if limit <? 0 then -1 else 1)) + 1), -1, 1)
                 else (wrap32 (i + (if limit <? 0 then -1 else 1)), -1, 1)]) precise)%list.

(** The fields of a call as [make_call] returns it. *)
Definition call_keys : gset string :=
  list_to_set ["svtype"; "join_type"; "chrA"; "chrB"; "cipos95A"; "cipos95B";
               "posA"; "posB"; "preciseA"; "preciseB"; "svlen"].

(** ** The basic aggregator, loop by loop *)

(** The dictionary [normal_attrs] starts from, line 238. *)
Definition normal_init (n_spanning : Z) : gmap string pyval :=
  <["pe" := PInt 0]> (<["supp" := PInt 0]> (<["sc" := PInt 0]> (
  <["NMpri" := PList []]> (<["NMsupp" := PList []]> (<["maxASsupp" := PList []]> (
  <["MAPQpri" := PList []]> (<["MAPQsupp" := PList []]> (
  <["plus" := PInt 0]> (<["minus" := PInt 0]> (<["NP" := PInt 0]> (
  <["spanning" := PInt n_spanning]> (
  <["NMbase" := PList []]> (<["n_gaps" := PList []]> (<["n_sa" := PList []]> ∅)))))))))))))).

(** The body of its loop over [reads1] and [reads2], lines 249 to 303. *)
Definition normal_reads_step (is_insertion : bool) (st : attr_state) (a : AlignedSegment)
    : res attr_state :=
  let '(r, paired_end, seen) := st in
  let flag := flag a in
  r ← append_n_sa r a;
  let '(a_bases, large_gaps, n_small_gaps) := n_aligned_bases (cigartuples a) in
  r ← append_n_gaps r n_small_gaps a_bases;
  r ← (if truthy (Z.land flag 2) then iadd r "NP" 1 else Ok r);
  '(r, paired_end, seen) ←
    (if truthy (Z.land flag 2304) then
       r ← supplementary_block false 1 r a a_bases; Ok (r, paired_end, seen)
     else primary_block false is_insertion (r, paired_end, seen) a a_bases large_gaps);
  r ← count_strand r flag;
  r ← count_soft_clip r a;
  Ok (r, paired_end, seen).

(** The body of its loop over the spanning reads, lines 306 to 345. *)
Definition normal_spanning_step (st : attr_state) (a : AlignedSegment) : res attr_state :=
  let '(r, paired_end, seen) := st in
  let flag := flag a in
  let '(a_bases, large_gaps, n_small_gaps) := n_aligned_bases (cigartuples a) in
  r ← append_n_sa r a;
  r ← append_n_gaps r n_small_gaps a_bases;
  r ← (if truthy (Z.land flag 2) then iadd r "NP" 1 else Ok r);
  '(r, paired_end, seen) ←
    (if negb (truthy (Z.land flag 256)) then
       spanning_primary_block false (r, paired_end, seen) a a_bases large_gaps
     else if truthy (Z.land flag 2304) then
       r ← supplementary_block false 2 r a a_bases; Ok (r, paired_end, seen)
     else Ok (r, paired_end, seen));
  r ← count_strand r flag;
  Ok (r, paired_end, seen).

(** The read has aligned bases: the [a_bases] the aggregators divide by is
    not zero. *)
Definition has_aligned_bases (a : AlignedSegment) : bool :=
  negb (Qeq_bool (n_aligned_bases (cigartuples a)).1.1 0).

(** The number of reads of a list that pass a test. *)
Definition count_reads (f : AlignedSegment -> bool) (l : list AlignedSegment) : Z :=
  Z.of_nat (length (List.filter f l)).

(** The read is soft-clipped at an end, as the aggregators count it. *)
Definition soft_clipped (a : AlignedSegment) : bool :=
  match cigartuples a, List.rev (cigartuples a) with
  | c_0 :: _, c_1 :: _ => (c_0.1 =? 4) || (c_1.1 =? 4)
  | _, _ => false
  end.

(** The kind of value a key holds, and the kinds [normal_attrs] keeps
    under its keys while it loops. *)
Inductive kind : Type := KInt | KList | KOther.

Definition kind_of (x : pyval) : kind :=
  match x with
  | PInt _ => KInt
  | PList _ => KList
  | _ => KOther
  end.

Definition normal_shape : gmap string kind := kind_of <$> normal_init 0.

Definition well_shaped (r : gmap string pyval) : Prop := kind_of <$> r = normal_shape.

(** The integer under a key, 0 when the key holds no integer. *)
Definition counter (r : gmap string pyval) (k : string) : Z :=
  match r !! k with
  | Some (PInt z) => z
  | _ => 0
  end.

(** Increments of counters, as a list of (key, amount), and their total
    for one key. *)
Definition delta (d : list (string * Z)) (k : string) : Z :=
  foldr (fun '(k', n) acc => (if String.eqb k k' then n else 0) + acc) 0 d.

(** [r'] is [r] with the counters incremented by [d], every other key
    keeping its kind. *)
Definition bumped (d : list (string * Z)) (r r' : gmap string pyval) : Prop :=
  well_shaped r' /\ forall k, counter r' k = counter r k + delta d k.

(** The computation returns, with a result that satisfies [Q]. *)
Definition post {A : Type} (m : res A) (Q : A -> Prop) : Prop :=
  match m with
  | Ok a => Q a
  | Raise _ => False
  end.

(** A value that is a number. *)
Definition is_number (x : pyval) : Prop :=
  match x with
  | PInt _ | PFloat _ => True
  | _ => False
  end.

(** The keys of the aggregate [normal_attrs] returns. *)
Definition attr_keys : gset string :=
  list_to_set ["pe"; "supp"; "sc"; "NMpri"; "NMsupp"; "maxASsupp"; "MAPQpri"; "MAPQsupp";
               "plus"; "minus"; "NP"; "spanning"; "NMbase"; "n_gaps"; "n_sa"].

(** What a loop of the aggregator has done to the counters of [r0] when
    it reaches [r]: the exact increments of [plus], [minus], [supp], [sc]
    and [NP], and a bound on the increment of [pe]. *)
Definition counted (r0 r : gmap string pyval) (plus minus supp sc np pe_max : Z) : Prop :=
  well_shaped r /\
  counter r "plus" = counter r0 "plus" + plus /\
  counter r "minus" = counter r0 "minus" + minus /\
  counter r "supp" = counter r0 "supp" + supp /\
  counter r "sc" = counter r0 "sc" + sc /\
  counter r "NP" = counter r0 "NP" + np /\
  counter r "spanning" = counter r0 "spanning" /\
  counter r0 "pe" <= counter r "pe" <= counter r0 "pe" + pe_max.

(** A call with its coordinates and its support counts: what the
    annotation reads beside the two contigs. *)
Definition located (m : gmap string pyval) : Prop :=
  (exists a b, m !! "posA" = Some (PInt a) /\ m !! "posB" = Some (PInt b)) /\
  (forall k, k ∈ ["chrA"; "posA"; "cipos95A"; "chrB"; "posB"; "cipos95B"] ->
     is_Some (m !! k)) /\
  (exists pe supp spanning,
     m !! "pe" = Some (PInt pe) /\ m !! "supp" = Some (PInt supp) /\
     m !! "spanning" = Some (PInt spanning)).

(** The computation returns a dictionary that is not empty. *)
Definition returns_call (m : res (gmap string pyval)) : bool :=
  match m with
  | Ok d => negb (Nat.eqb (size d) 0)
  | Raise _ => false
  end.

(** The four labels the annotation gives a call. *)
Definition kinds : list string :=
  ["extra-regional"; "hemi-regional"; "intra_regional"; "inter-regional"].

(** No region at all; one region that covers every position. *)
Definition no_region (chrom : pyval) (start stop : Z) : bool := false.

Definition every_region (chrom : pyval) (start stop : Z) : bool := true.

Definition one_interval (chrom : pyval) (start stop : Z) : list (Z * Z) := [(0, 1000000)].

(** ** Alignments with their positions *)

(** An alignment as the orchestrators read it: the part the aggregators
    read, and beside it the attributes [rname], [pos], [reference_end],
    [rnext] and [tlen] of pysam's [AlignedSegment];  [read_length] is what
    [infer_read_length()] returns. *)
Record Alignment : Type := mkAlignment {
  segment :> AlignedSegment;
  rname : Z;
  pos : Z;
  reference_end : Z;
  rnext : Z;
  tlen : Z;
  read_length : Z
}.

(** A node of the read graph as [n2n] holds it: the tuple [(hash, flag,
    pos, rname, tell, cigar_index, event_pos)], of which [n[5]] and [n[6]]
    are read here. *)
Record node_info : Type := mkNode {
  n_hash : Z;
  n_flag : Z;
  n_pos : Z;
  n_rname : Z;
  n_tell : Z;
  n_cigar_index : Z;
  n_event_pos : Z
}.

(** [l[i]] on a Python list, negative indices counting from the end.  Out
    of range it raises, as Python does; every call below keeps its index
    in range. *)
Definition py_index {A : Type} (l : list A) (i : Z) : res A :=
  let n := Z.of_nat (length l) in
  let j := if i <? 0 then i + n else i in
  if (0 <=? j) && (j <? n) then
    match l !! Z.to_nat j with
    | Some x => Ok x
    | None => Raise IndexError
    end
  else Raise IndexError.

Definition set_left_clipA (v : AlignmentItem) (x : Z) : AlignmentItem :=
  mkItem (chrA v) (chrB v) (priA v) (priB v) (rA v) (rB v) (posA v) (endA v) (posB v) (endB v)
    (strandA v) (strandB v) x (right_clipA v) (left_clipB v) (right_clipB v)
    (breakA_precise v) (breakB_precise v) (breakA v) (breakB v)
    (a_qstart v) (a_qend v) (b_qstart v) (b_qend v) (query_gap v) (read_overlaps_mate v)
    (svtype v) (join_type v).

Definition set_right_clipA (v : AlignmentItem) (x : Z) : AlignmentItem :=
  mkItem (chrA v) (chrB v) (priA v) (priB v) (rA v) (rB v) (posA v) (endA v) (posB v) (endB v)
    (strandA v) (strandB v) (left_clipA v) x (left_clipB v) (right_clipB v)
    (breakA_precise v) (breakB_precise v) (breakA v) (breakB v)
    (a_qstart v) (a_qend v) (b_qstart v) (b_qend v) (query_gap v) (read_overlaps_mate v)
    (svtype v) (join_type v).

Definition set_left_clipB (v : AlignmentItem) (x : Z) : AlignmentItem :=
  mkItem (chrA v) (chrB v) (priA v) (priB v) (rA v) (rB v) (posA v) (endA v) (posB v) (endB v)
    (strandA v) (strandB v) (left_clipA v) (right_clipA v) x (right_clipB v)
    (breakA_precise v) (breakB_precise v) (breakA v) (breakB v)
    (a_qstart v) (a_qend v) (b_qstart v) (b_qend v) (query_gap v) (read_overlaps_mate v)
    (svtype v) (join_type v).

Definition set_right_clipB (v : AlignmentItem) (x : Z) : AlignmentItem :=
  mkItem (chrA v) (chrB v) (priA v) (priB v) (rA v) (rB v) (posA v) (endA v) (posB v) (endB v)
    (strandA v) (strandB v) (left_clipA v) (right_clipA v) (left_clipB v) x
    (breakA_precise v) (breakB_precise v) (breakA v) (breakB v)
    (a_qstart v) (a_qend v) (b_qstart v) (b_qend v) (query_gap v) (read_overlaps_mate v)
    (svtype v) (join_type v).

(** ** Query coordinates *)

(** The loop of [query_start_end_from_cigartuples], line 1760, from the
    state [(start, end, i)]; [qend] is the local [end]. *)
Fixpoint query_scan (ct : cigar) (start qend : Z) (i : bool) : Z * Z :=
  match ct with
  | [] => (start, qend)
  | (opp, slen) :: ct' =>
    if opp =? 0 then query_scan ct' start (qend + slen) true
    else if (opp =? 4) || (opp =? 5) then
      if negb i then query_scan ct' (start + slen) (qend + slen) true
      else (start, qend)
    else if opp =? 1 then query_scan ct' start (qend + slen) true
    else query_scan ct' start qend true
  end.

(** [query_start_end_from_cigartuples], line 1754. *)
Definition query_start_end_from_cigartuples (r : AlignedSegment) : Z * Z :=
  query_scan (cigartuples r) 0 0 false.

(** [start_end_query_pair], line 1776. *)
Definition start_end_query_pair (r1 r2 : Alignment) : Z * Z * Z * Z :=
  let '(s1, e1) := query_start_end_from_cigartuples r1 in
  let '(s2, e2) := query_start_end_from_cigartuples r2 in
  if Z.land (flag r1) 64 =? Z.land (flag r2) 64 then
    if negb (Z.land (flag r2) 16 =? Z.land (flag r1) 16) then
      let query_length := read_length r1 in
      let start_temp := query_length - e2 in
      let e2 := start_temp + e2 - s2 in
      let s2 := start_temp in
      (s1, e1, s2, e2)
    else (s1, e1, s2, e2)
  else (s1, e1, s2, e2).

(** ** Items of a pair of alignments *)

(** [same_read_overlaps_mate], line 501. *)
Definition same_read_overlaps_mate (a_chrom b_chrom a_start a_end b_start b_end : Z)
    (a b : AlignedSegment) : Z :=
  let aflag := flag a in
  let bflag := flag b in
  if truthy (Z.land aflag 1) && negb (truthy (Z.land aflag 8)) && (a_chrom =? b_chrom)
     && (Z.land aflag 64 =? Z.land bflag 64) then
    if is_overlapping b_start b_end a_start a_end then 1 else 0
  else 0.

(** The construction of an item from a pair, as [make_sv_alignment_item]
    (lines 536 to 576) and [call_from_reads] (lines 1820 to 1859) both
    write it; they differ in [read_overlaps_mate], which the first
    computes and the second sets to 0. *)
Definition pair_item (a b : Alignment) (read_overlaps_mate : Z) : res AlignmentItem :=
  let a_ct := cigartuples a in
  let b_ct := cigartuples b in
  let '(a_qstart, a_qend, b_qstart, b_qend) := start_end_query_pair a b in
  '(left_clip_a, right_clip_a, left_clip_b, right_clip_b) ←
    mask_soft_clips (flag a) (flag b) a_ct b_ct;
  let v_item :=
    new_AlignmentItem (rname a) (rname b)
      (of_bool (negb (truthy (Z.land (flag a) 2304))))
      (of_bool (negb (truthy (Z.land (flag b) 2304))))
      (if truthy (Z.land (flag a) 64) then 1 else 2)
      (if truthy (Z.land (flag b) 64) then 1 else 2)
      (pos a) (reference_end a) (pos b) (reference_end b)
      (if Z.land (flag a) 16 =? 0 then 3 else 5)
      (if Z.land (flag b) 16 =? 0 then 3 else 5)
      left_clip_a right_clip_a left_clip_b right_clip_b
      a_qstart a_qend b_qstart b_qend read_overlaps_mate in
  v_item ←
    (if truthy (left_clipA v_item) && truthy (right_clipA v_item) then
       a_0 ← py_first a_ct;
       a_1 ← py_last a_ct;
       if a_0.2 >=? a_1.2 then Ok (set_right_clipA v_item 0)
       else Ok (set_left_clipA v_item 0)
     else Ok v_item);
  v_item ←
    (if truthy (left_clipB v_item) && truthy (right_clipB v_item) then
       b_0 ← py_first b_ct;
       b_1 ← py_last b_ct;
       if b_0.2 >=? b_1.2 then Ok (set_right_clipB v_item 0)
       else Ok (set_left_clipB v_item 0)
     else Ok v_item);
  Ok v_item.

(** [make_sv_alignment_item], line 534. *)
Definition make_sv_alignment_item (a b : Alignment) : res AlignmentItem :=
  pair_item a b
    (same_read_overlaps_mate (rname a) (rname b) (pos a) (reference_end a)
       (pos b) (reference_end b) a b).

(** ** Choice of the informative pair *)

(** [within_read_end_position], line 375. *)
Definition within_read_end_position (event_pos svtype : Z) (cigartuples : cigar)
    (cigar_index : Z) : res Z :=
  if svtype =? 1 then Ok (event_pos + 1)
  else
    c ← py_index cigartuples cigar_index;
    Ok (event_pos + c.2).

(** [0 < cigar_index < len(a.cigartuples) - 1]: the alignment spans the
    event. *)
Definition spans_event (cigar_index : Z) (a : AlignedSegment) : bool :=
  (0 <? cigar_index) && (cigar_index <? Z.of_nat (length (cigartuples a)) - 1).

(** A spanning tuple [(op, rname, event_pos, end, length, alignment)] with
    the alignment and its positions. *)
Definition spanning_alignment : Type := Z * Z * Z * Z * Z * Alignment.

(** What [guess_informative_pair] returns: a pair, a spanning tuple or
    [None]. *)
Inductive guess : Type :=
| GuessPair (a b : Alignment)
| GuessSpanning (t : spanning_alignment)
| GuessNone.

(** The tuple of lines 432 to 437 (and 444 to 449). *)
Definition guess_spanning (cigar_info : node_info) (a : Alignment) : res guess :=
  let cigar_index := n_cigar_index cigar_info in
  let event_pos := n_event_pos cigar_info in
  ci ← py_index (cigartuples a) cigar_index;
  Ok (GuessSpanning
        (ci.1, rname a, event_pos,
         (if ci.1 =? 1 then event_pos + 1 else event_pos + ci.2 + 1),
         ci.2, a)).

(** The loop of lines 470 to 481, on the state [(pri_first, sup_first,
    pri_second, sup_second)]. *)
Definition guess_roles (aligns : list (node_info * Alignment))
    : option Alignment * option Alignment * option Alignment * option Alignment :=
  fold_left (fun '(pri_first, sup_first, pri_second, sup_second) '(_, i) =>
      if negb (truthy (Z.land (flag (segment i)) 2304)) then
        if truthy (Z.land (flag (segment i)) 64)
        then (Some i, sup_first, pri_second, sup_second)
        else (pri_first, sup_first, Some i, sup_second)
      else
        if truthy (Z.land (flag (segment i)) 64)
        then (pri_first, Some i, pri_second, sup_second)
        else (pri_first, sup_first, pri_second, Some i))
    aligns (None, None, None, None).

(** [guess_informative_pair], line 420.  An alignment object is true. *)
Definition guess_informative_pair (aligns : list (node_info * Alignment)) : res guess :=
  match aligns with
  | [(a_cigar_info, a); (b_cigar_info, b)] =>
    if spans_event (n_cigar_index a_cigar_info) a then guess_spanning a_cigar_info a
    else if spans_event (n_cigar_index b_cigar_info) b then guess_spanning b_cigar_info b
    else
      let a_pos := n_event_pos a_cigar_info in
      let b_pos := n_event_pos b_cigar_info in
      if a_pos <? b_pos then Ok (GuessPair a b) else Ok (GuessPair b a)
  | _ =>
    let '(pri_first, sup_first, pri_second, sup_second) := guess_roles aligns in
    let ab :=
      match pri_first, sup_first, pri_second, sup_second with
      | Some p, Some s, _, _ => Some (p, s)
      | _, _, Some p, Some s => Some (p, s)
      | Some p, _, Some q, _ => Some (p, q)
      | _, _, _, _ => None
      end in
    match ab with
    | None => Ok GuessNone
    | Some (a, b) => if pos a <? pos b then Ok (GuessPair a b) else Ok (GuessPair b a)
    end
  end.

(** The inner loop of [informative_pair], lines 808 to 814: the first [j]
    on the same read as [i] if there is one, and [pri_v] as the loop
    leaves it. *)
Fixpoint informative_pair_inner (ri_flag : Z) (v : list Alignment) (pri_v : option Alignment)
    : option Alignment * option Alignment :=
  match v with
  | [] => (None, pri_v)
  | j :: v' =>
    if Z.land (flag (segment j)) 64 =? ri_flag then (Some j, pri_v)
    else
      informative_pair_inner ri_flag v'
        (if negb (truthy (Z.land (flag (segment j)) 2304)) then Some j else pri_v)
  end.

(** The outer loop, lines 804 to 819. *)
Fixpoint informative_pair_outer (u v : list Alignment) (pri_u pri_v : option Alignment)
    : option (Alignment * Alignment) :=
  match u with
  | [] =>
    match pri_u, pri_v with
    | Some a, Some b => Some (a, b)
    | _, _ => None
    end
  | i :: u' =>
    let ri_flag := Z.land (flag (segment i)) 64 in
    let pri_u := if negb (truthy (Z.land (flag (segment i)) 2304)) then Some i else pri_u in
    match informative_pair_inner ri_flag v pri_v with
    | (Some j, _) => Some (i, j)
    | (None, pri_v) => informative_pair_outer u' v pri_u pri_v
    end
  end.

(** [informative_pair], line 800. *)
Definition informative_pair (u v : list Alignment) : option (Alignment * Alignment) :=
  informative_pair_outer u v None None.

(** ** Notions for the query coordinates and the pairs *)

(** The query bases that the [M] and [I] operations of a cigar consume. *)
Definition consumed (ct : cigar) : Z :=
  fold_right (fun '(opp, slen) acc =>
    (if (opp =? 0) || (opp =? 1) then slen else 0) + acc) 0 ct.

(** The length of the [M], [I], [S] and [H] operations of a cigar. *)
Definition clipped_query_length (ct : cigar) : Z :=
  fold_right (fun '(opp, slen) acc =>
    (if (opp =? 0) || (opp =? 1) || (opp =? 4) || (opp =? 5) then slen else 0) + acc) 0 ct.

(** The alignment is primary: neither secondary nor supplementary. *)
Definition is_primary (a : AlignedSegment) : bool := negb (truthy (Z.land (flag a) 2304)).

(** The two alignments are of the same read of the pair. *)
Definition same_read_bit (a b : AlignedSegment) : bool :=
  Z.land (flag a) 64 =? Z.land (flag b) 64.

(** An item as the constructors leave it: every attribute in its range,
    at most one clip on each side, nothing classified yet. *)
Definition well_formed_item (v : AlignmentItem) : Prop :=
  (priA v = 0 \/ priA v = 1) /\ (priB v = 0 \/ priB v = 1) /\
  (rA v = 1 \/ rA v = 2) /\ (rB v = 1 \/ rB v = 2) /\
  (strandA v = 3 \/ strandA v = 5) /\ (strandB v = 3 \/ strandB v = 5) /\
  (left_clipA v = 0 \/ left_clipA v = 1) /\ (right_clipA v = 0 \/ right_clipA v = 1) /\
  (left_clipB v = 0 \/ left_clipB v = 1) /\ (right_clipB v = 0 \/ right_clipB v = 1) /\
  ~ (left_clipA v = 1 /\ right_clipA v = 1) /\ ~ (left_clipB v = 1 /\ right_clipB v = 1) /\
  (read_overlaps_mate v = 0 \/ read_overlaps_mate v = 1) /\
  breakA v = -1 /\ breakB v = -1 /\ breakA_precise v = 0 /\ breakB_precise v = 0 /\
  query_gap v = -1 /\ svtype v = "" /\ join_type v = "".

(** Two alignments of one template, both with a cigar. *)
Definition read_a1 : Alignment :=
  {| segment := read_pri; rname := 1; pos := 100; reference_end := 200;
     rnext := 1; tlen := 400; read_length := 150 |}.

Definition read_a2 : Alignment :=
  {| segment := read_supp; rname := 1; pos := 300; reference_end := 350;
     rnext := 1; tlen := -400; read_length := 150 |}.

(** The four roles [guess_informative_pair] sorts the alignments of a
    template into: each one found is an alignment of the template with
    the flags of its role. *)
Definition roles_of (aligns : list (node_info * Alignment))
    (roles : option Alignment * option Alignment * option Alignment * option Alignment)
    : Prop :=
  let '(pri_first, sup_first, pri_second, sup_second) := roles in
  let found (role : option Alignment) (primary first : bool) :=
    forall i, role = Some i ->
      (exists n, In (n, i) aligns) /\ is_primary i = primary /\
      truthy (Z.land (flag (segment i)) 64) = first in
  found pri_first true true /\ found sup_first false true /\
  found pri_second true false /\ found sup_second false false.

(** ** Grouping and counting *)

(** [d[k].append(x)] on a [defaultdict(list)]: the keys stay in the order
    of their first insertion. *)
Fixpoint group_add {A : Type} (k : string) (x : A) (g : list (string * list A))
    : list (string * list A) :=
  match g with
  | [] => [(k, [x])]
  | (k', l) :: g' =>
    if String.eqb k k' then (k', (l ++ [x])%list) :: g' else (k', l) :: group_add k x g'
  end.

(** [for x in l: d[key(x)].append(x)] from an empty [defaultdict(list)]. *)
Definition group_by {A : Type} (key : A -> string) (l : list A) : list (string * list A) :=
  fold_left (fun g x => group_add (key x) x g) l [].

Fixpoint group_get {A : Type} (g : list (string * list A)) (k : string) : option (list A) :=
  match g with
  | [] => None
  | (k', l) :: g' => if String.eqb k k' then Some l else group_get g' k
  end.

(** [d[k]] on a [defaultdict(list)]. *)
Definition defaultdict_get {A : Type} (g : list (string * list A)) (k : string) : list A :=
  default [] (group_get g k).

(** [c[k] += 1] on a [Counter]. *)
Fixpoint counter_add {K : Type} (eqb : K -> K -> bool) (k : K) (c : list (K * Z))
    : list (K * Z) :=
  match c with
  | [] => [(k, 1)]
  | (k', n) :: c' =>
    if eqb k k' then (k', n + 1) :: c' else (k', n) :: counter_add eqb k c'
  end.

(** [Counter(l)], the keys in the order of their first occurrence. *)
Definition Counter {K : Type} (eqb : K -> K -> bool) (l : list K) : list (K * Z) :=
  fold_left (fun c k => counter_add eqb k c) l [].

(** [c.most_common()[0]]: the sort by count is stable, so among the keys
    of the greatest count the one met first comes first. *)
Definition most_common_0 {K : Type} (c : list (K * Z)) : res (K * Z) :=
  match c with
  | [] => Raise IndexError
  | x :: c' => Ok (fold_left (fun best y => if y.2 >? best.2 then y else best) c' x)
  end.

Definition pair_eqb (x y : string * string) : bool :=
  String.eqb x.1 y.1 && String.eqb x.2 y.2.

(** A loop whose body may raise, on the state [st]. *)
Fixpoint for_each {A S : Type} (body : S -> A -> res S) (l : list A) (st : S) : res S :=
  match l with
  | [] => Ok st
  | x :: l' => st ← body st x; for_each body l' st
  end.

(** ** Calls from the reads of two clusters *)

(** The statements that follow a classification, in [call_from_reads]
    (lines 1863 to 1868) and in [single] (lines 627 to 631), on the lists
    [(informative, precise_a, precise_b)]. *)
Definition record_item (st : list AlignmentItem * list Z * list Z) (v_item : AlignmentItem)
    : list AlignmentItem * list Z * list Z :=
  let '(informative, precise_a, precise_b) := st in
  let precise_a :=
    if truthy (breakA_precise v_item) then (precise_a ++ [breakA v_item])%list
    else precise_a in
  let precise_b :=
    if truthy (breakB_precise v_item) then (precise_b ++ [breakB v_item])%list
    else precise_b in
  ((informative ++ [v_item])%list, precise_a, precise_b).

(** The body of the loop of [call_from_reads], lines 1809 to 1868. *)
Definition call_from_reads_step (grp_u grp_v : list (string * list Alignment))
    (st : list AlignmentItem * list Z * list Z) (qname : string)
    : res (list AlignmentItem * list Z * list Z) :=
  let u := defaultdict_get grp_u qname in
  let v := defaultdict_get grp_v qname in
  let pair :=
    match u, v with
    | [u_0], [v_0] => Some (u_0, v_0)
    | _, _ => informative_pair u v
    end in
  match pair with
  | Some (a, b) =>
    v_item ← pair_item a b 0;
    Ok (record_item st (classify_d v_item))
  | None => Ok st
  end.

(** [call_from_reads], line 1790. *)
Definition call_from_reads (u_reads v_reads : list Alignment) (insert_size insert_stdev : Z)
    : res (gmap string pyval) :=
  let grp_u := group_by (fun r : Alignment => qname r) u_reads in
  let grp_v := group_by (fun r : Alignment => qname r) v_reads in
  let qnames :=
    List.filter (fun k => bool_decide (is_Some (group_get grp_v k))) (map fst grp_u) in
  '(informative, precise_a, precise_b) ←
    for_each (call_from_reads_step grp_u grp_v) qnames ([], [], []);
  match informative with
  | [] => Ok ∅
  | _ :: _ =>
    let call_informative :=
      Counter pair_eqb (map (fun i => (svtype i, join_type i)) informative) in
    '(svtype, jointype, _) ← most_common_0 call_informative;
    make_call informative precise_a precise_b svtype jointype insert_size insert_stdev
  end.

(** ** Calls from spanning alignments *)

Definition sp_op (t : spanning_alignment) : Z := t.1.1.1.1.1.
Definition sp_chrom (t : spanning_alignment) : Z := t.1.1.1.1.2.
Definition sp_posA (t : spanning_alignment) : Z := t.1.1.1.2.
Definition sp_posB (t : spanning_alignment) : Z := t.1.1.2.
Definition sp_len (t : spanning_alignment) : Z := t.1.2.
Definition sp_read (t : spanning_alignment) : Alignment := t.2.

(** A spanning tuple as the aggregation takes it. *)
Definition sp_tuple (t : spanning_alignment) : spanning_tuple := (t.1, segment t.2).

(** The consensus of the spanning alignments, lines 722 to 730 of [single]
    and 1928 to 1935 of [one_edge]:
    [(posA, posA_95, posB, posB_95, chrom, svlen)].  The median and the
    percentile are NumPy's, in float64; all the rest is on Python
    integers. *)
Definition spanning_consensus (spanning_alignments : list spanning_alignment)
    : res (Z * Z * Z * Z * Z * Z) :=
  let posA_arr := map sp_posA spanning_alignments in
  let posA := py_int (np_median posA_arr) in
  pctA ← np_percentile_97_5 posA_arr;
  let posA_95 := Z.abs (py_int pctA - posA) in
  let posB_arr := map sp_posB spanning_alignments in
  let posB := py_int (np_median posB_arr) in
  pctB ← np_percentile_97_5 posB_arr;
  let posB_95 := Z.abs (py_int pctB - posB) in
  first ← py_first spanning_alignments;
  let chrom := sp_chrom first in
  let svlen :=
    py_int (float64 (np_mean (map (fun i => inject_Z (sp_len i)) spanning_alignments))) in
  Ok (posA, posA_95, posB, posB_95, chrom, svlen).

(** The dictionary of lines 731 to 735 and 1936 to 1940. *)
Definition spanning_info (svtype_m chrom posA posB posA_95 posB_95 svlen : Z)
    : gmap string pyval :=
  <["svtype" := PStr (if svtype_m =? 2 then "DEL" else "INS")]> (
  <["join_type" := PStr "3to5"]> (
  <["chrA" := PInt chrom]> (<["chrB" := PInt chrom]> (
  <["posA" := PInt posA]> (<["posB" := PInt posB]> (
  <["cipos95A" := PInt posA_95]> (<["cipos95B" := PInt posB_95]> (
  <["preciseA" := PBool true]> (<["preciseB" := PBool true]> (
  <["svlen" := PInt svlen]> ∅)))))))))).

(** ** The edge path *)

(** The body of the loops of [one_edge] over [u_reads_info] (lines 1890 to
    1903, with [last] 1) and over [v_reads_info] (lines 1905 to 1917, with
    [last] 0), on [spanning_alignments]. *)
Definition one_edge_spanning (last : Z) (spanning_alignments : list spanning_alignment)
    (x : node_info * Alignment) : res (list spanning_alignment) :=
  let '(cigar_info, a) := x in
  let cigar_index := n_cigar_index cigar_info in
  if spans_event cigar_index a then
    let event_pos := n_event_pos cigar_info in
    ci ← py_index (cigartuples a) cigar_index;
    Ok (spanning_alignments ++
          [(ci.1, rname a, event_pos,
            (if ci.1 =? 1 then event_pos + 1 else event_pos + ci.2 + 1),
            event_pos + ci.2 + last, a)])%list
  else Ok spanning_alignments.

Section Paths.

Variable base_assemble : list AlignedSegment -> pyval -> Z -> option assembly.

(** Lines 1944 to 1984 of [one_edge]: the call from the reads of the two
    clusters, when no alignment spans the event. *)
Definition one_edge_from_reads (u_reads v_reads : list Alignment)
    (spanning_alignments : list spanning_alignment)
    (insert_size insert_stdev min_support block_edge assemble extended_tags : Z)
    : res (gmap string pyval) :=
  info ← call_from_reads u_reads v_reads insert_size insert_stdev;
  if Z.of_nat (size info) <? 2 then Ok ∅
  else
    one_edge_tail base_assemble info (map segment u_reads) (map segment v_reads)
      (map sp_tuple spanning_alignments) min_support block_edge assemble extended_tags.

(** [one_edge], line 1881.  The two tests of [len(spanning_alignments) > 0]
    are nested here: the second one is reached with [svtype_m] bound only
    through the first. *)
Definition one_edge (u_reads_info v_reads_info : list (node_info * Alignment))
    (clip_length insert_size insert_stdev min_support block_edge assemble extended_tags : Z)
    : res (gmap string pyval) :=
  spanning_alignments ← for_each (one_edge_spanning 1) u_reads_info [];
  spanning_alignments ← for_each (one_edge_spanning 0) v_reads_info spanning_alignments;
  let u_reads := map snd u_reads_info in
  let v_reads := map snd v_reads_info in
  if 0 <? Z.of_nat (length spanning_alignments) then
    '(svtype_m, _) ← most_common_0 (Counter Z.eqb (map sp_op spanning_alignments));
    let spanning_alignments :=
      List.filter (fun i => sp_op i =? svtype_m) spanning_alignments in
    if 0 <? Z.of_nat (length spanning_alignments) then
      '(posA, posA_95, posB, posB_95, chrom, svlen) ← spanning_consensus spanning_alignments;
      let info := spanning_info svtype_m chrom posA posB posA_95 posB_95 svlen in
      let u_reads := map sp_read spanning_alignments in
      let v_reads := [] in
      one_edge_tail base_assemble info (map segment u_reads) (map segment v_reads)
        (map sp_tuple spanning_alignments) min_support block_edge assemble extended_tags
    else
      one_edge_from_reads u_reads v_reads spanning_alignments
        insert_size insert_stdev min_support block_edge assemble extended_tags
  else
    one_edge_from_reads u_reads v_reads spanning_alignments
      insert_size insert_stdev min_support block_edge assemble extended_tags.

(** ** The singleton path *)

(** The lists [single] fills: [(informative, precise_a, precise_b)],
    [informative_reads], [u_reads], [v_reads], [spanning_alignments] and
    [generic_insertions]. *)
Definition single_lists : Type :=
  (list AlignmentItem * list Z * list Z) * list Alignment * list Alignment * list Alignment
  * list spanning_alignment * list Alignment.

(** The body of the loop over the templates, lines 611 to 655. *)
Definition single_template (st : single_lists) (kv : string * list (node_info * Alignment))
    : res single_lists :=
  let '(items, informative_reads, u_reads, v_reads, spanning_alignments,
        generic_insertions) := st in
  let l_align := kv.2 in
  if 1 <? Z.of_nat (length l_align) then
    pair ← guess_informative_pair l_align;
    match pair with
    | GuessPair a b =>
      v_item ← make_sv_alignment_item a b;
      Ok (record_item items (classify_d v_item),
          (informative_reads ++ map snd l_align)%list,
          (u_reads ++ [a])%list, (v_reads ++ [b])%list,
          spanning_alignments, generic_insertions)
    | GuessSpanning t =>
      Ok (items, informative_reads, (u_reads ++ [sp_read t])%list, v_reads,
          (spanning_alignments ++ [t])%list, generic_insertions)
    | GuessNone => Ok st
    end
  else
    alignments_0 ← py_first l_align;
    let '(cigar_info, a) := (alignments_0 : node_info * Alignment) in
    let cigar_index := n_cigar_index cigar_info in
    if spans_event cigar_index a then
      let event_pos := n_event_pos cigar_info in
      ci ← py_index (cigartuples a) cigar_index;
      stop ← within_read_end_position event_pos ci.1 (cigartuples a) cigar_index;
      Ok (items, informative_reads, (u_reads ++ [a])%list, v_reads,
          (spanning_alignments ++ [(ci.1, rname a, event_pos, stop, ci.2, a)])%list,
          generic_insertions)
    else
      Ok (items, informative_reads, u_reads, v_reads, spanning_alignments,
          (generic_insertions ++ [a])%list).

(** The guess of lines 664 to 692 for a lone alignment: the breakpoint at
    the clipped end, or for a proper pair at the end the strand points
    to; [None] is the [continue]. *)
Definition generic_insertion_item (aln : Alignment) (v_item : AlignmentItem)
    : option AlignmentItem :=
  if truthy (left_clipA v_item) then
    Some (set_join_type
            (set_breakB_precise
               (set_breakA_precise (set_breakB (set_breakA v_item (pos aln)) (pos aln)) 1) 1)
            "5to3")
  else if truthy (right_clipA v_item) then
    Some (set_join_type
            (set_breakB_precise
               (set_breakA_precise
                  (set_breakB (set_breakA v_item (reference_end aln)) (reference_end aln)) 1) 1)
            "3to5")
  else if truthy (Z.land (flag aln) 1) && truthy (Z.land (flag aln) 2) then
    if truthy (Z.land (flag aln) 16) then
      Some (set_join_type (set_breakB (set_breakA v_item (pos aln)) (pos aln)) "5to3")
    else
      Some (set_join_type
              (set_breakB (set_breakA v_item (reference_end aln)) (reference_end aln)) "3to5")
  else None.

(** The body of the loop over [generic_insertions], lines 660 to 707. *)
Definition single_generic (st : single_lists) (aln : Alignment) : res single_lists :=
  let '(items, informative_reads, u_reads, v_reads, spanning_alignments,
        generic_insertions) := st in
  if negb (truthy (Z.land (flag aln) 2304)) then
    v_item ← make_sv_alignment_item aln aln;
    match generic_insertion_item aln v_item with
    | None => Ok st
    | Some v_item =>
      let v_item := set_svtype v_item "INS" in
      let '(u_reads, v_reads) :=
        if truthy (left_clipA v_item) then ((u_reads ++ [aln])%list, v_reads)
        else if truthy (right_clipA v_item) then (u_reads, (v_reads ++ [aln])%list)
        else (u_reads, v_reads) in
      let '(informative, precise_a, precise_b) := items in
      let '(precise_a, precise_b) :=
        if truthy (breakA_precise v_item) then ((precise_a ++ [breakA v_item])%list, precise_b)
        else if truthy (breakB_precise v_item)
             then (precise_a, (precise_b ++ [breakB v_item])%list)
             else (precise_a, precise_b) in
      Ok (((informative ++ [v_item])%list, precise_a, precise_b),
          informative_reads, u_reads, v_reads, spanning_alignments, generic_insertions)
    end
  else Ok st.

(** The test of lines 588 to 590 on one alignment. *)
Definition worth_calling (min_distance : Z) (x : node_info * Alignment) : bool :=
  let '(node_info, i) := x in
  negb (truthy (Z.land (flag i) 2)) || negb (rname i =? rnext i)
  || negb (n_cigar_index node_info =? 2)
  || (truthy (Z.land (flag i) 1) && (Z.abs (tlen i) >? min_distance)).

(** [single], line 579. *)
Definition single (rds : list (node_info * Alignment))
    (insert_size insert_stdev clip_length min_support to_assemble extended_tags : Z)
    : res (gmap string pyval) :=
  let min_distance := insert_size + 2 * insert_stdev in
  let n_templates :=
    Z.of_nat (length (remove_dups (map (fun x : node_info * Alignment => qname x.2) rds))) in
  if (n_templates =? 1) && negb (existsb (worth_calling min_distance) rds) then Ok ∅
  else
    let tmp := group_by (fun x : node_info * Alignment => qname x.2) rds in
    st ← for_each single_template tmp (([], [], []), [], [], [], [], []);
    st ←
      (let '(_, informative_reads, _, _, spanning_alignments, generic_insertions) := st in
       if Z.of_nat (length informative_reads) + 2 * Z.of_nat (length spanning_alignments)
          <? min_support
       then for_each single_generic generic_insertions st
       else Ok st);
    let '(items, informative_reads, u_reads, v_reads, spanning_alignments, _) := st in
    let '(informative, precise_a, precise_b) := items in
    if (Z.of_nat (length informative) =? 0) && (Z.of_nat (length spanning_alignments) =? 0)
    then Ok ∅
    else if 0 <? Z.of_nat (length spanning_alignments) then
      '(svtype_m, _) ← most_common_0 (Counter Z.eqb (map sp_op spanning_alignments));
      let spanning_alignments :=
        List.filter (fun i => sp_op i =? svtype_m) spanning_alignments in
      '(posA, posA_95, posB, posB_95, chrom, svlen) ← spanning_consensus spanning_alignments;
      let ab := Z.abs (posB - posA) in
      let info :=
        spanning_info svtype_m chrom posA posB posA_95 posB_95
          (if svlen >=? ab then svlen else ab) in
      let u_reads := map sp_read spanning_alignments in
      let v_reads := [] in
      let min_found_support := Z.of_nat (length spanning_alignments) in
      single_tail base_assemble info (map segment informative_reads)
        (map segment u_reads) (map segment v_reads) (map sp_tuple spanning_alignments)
        min_found_support min_support to_assemble extended_tags
    else
      let call_informative :=
        Counter pair_eqb (map (fun itm => (svtype itm, join_type itm)) informative) in
      '(svtype, jointype, n) ← most_common_0 call_informative;
      info ← make_call informative precise_a precise_b svtype jointype
               insert_size insert_stdev;
      if Z.of_nat (size info) <? 2 then Ok ∅
      else
        let min_found_support := n in
        single_tail base_assemble info (map segment informative_reads)
          (map segment u_reads) (map segment v_reads) (map sp_tuple spanning_alignments)
          min_found_support min_support to_assemble extended_tags.

End Paths.

(** An alignment of another template, [t2]. *)
Definition read_t2 : Alignment :=
  {| segment :=
       {| qname := "t2"; flag := 129; cigartuples := [(0, 150)]; mapq := 60;
          tag_DP := None; tag_DN := None; tag_DA := None; tag_NM := None; tag_AS := None;
          tag_SA := None |};
     rname := 1; pos := 500; reference_end := 650;
     rnext := 1; tlen := -400; read_length := 150 |}.

(** ** Notions for the two paths *)

(** The alignment spans the event its node points to. *)
Definition spans (x : node_info * Alignment) : bool :=
  spans_event (n_cigar_index x.1) x.2.

(** The items listed all have a type and a join type of the two
    vocabularies. *)
Definition typed_items (st : list AlignmentItem * list Z * list Z) : Prop :=
  forall i, In i st.1.1 -> In (svtype i) svtypes /\ In (join_type i) join_types.

(** [out] holds the eleven fields of the call [info] as they were. *)
Definition keeps (info out : gmap string pyval) : Prop :=
  forall k, k ∈ call_keys -> out !! k = info !! k.

(** [out] is the call [info] with its support counts. *)
Definition finished (info out : gmap string pyval) : Prop :=
  keeps info out /\
  exists pe supp spanning,
    out !! "pe" = Some (PInt pe) /\ out !! "supp" = Some (PInt supp) /\
    out !! "spanning" = Some (PInt spanning).

(** The record has a type and a join type of the two vocabularies. *)
Definition typed_call (out : gmap string pyval) : Prop :=
  exists svtype jointype,
    out !! "svtype" = Some (PStr svtype) /\ In svtype svtypes /\
    out !! "join_type" = Some (PStr jointype) /\ In jointype join_types.

(** The record is a call made from spanning alignments: a deletion or an
    insertion within one chromosome, both ends precise. *)
Definition spanning_call (out : gmap string pyval) : Prop :=
  (out !! "svtype" = Some (PStr "DEL") \/ out !! "svtype" = Some (PStr "INS")) /\
  out !! "join_type" = Some (PStr "3to5") /\
  (exists chrom, out !! "chrA" = Some (PInt chrom) /\ out !! "chrB" = Some (PInt chrom)) /\
  out !! "preciseA" = Some (PBool true) /\ out !! "preciseB" = Some (PBool true).

(** The length of the call covers its two positions. *)
Definition covers_positions (out : gmap string pyval) : Prop :=
  exists a b svlen,
    out !! "posA" = Some (PInt a) /\ out !! "posB" = Some (PInt b) /\
    out !! "svlen" = Some (PInt svlen) /\ Z.abs (b - a) <= svlen.

(** A node of which only the cigar index and the event position count. *)
Definition node_at (cigar_index event_pos : Z) : node_info :=
  {| n_hash := 0; n_flag := 0; n_pos := 0; n_rname := 0; n_tell := 0;
     n_cigar_index := cigar_index; n_event_pos := event_pos |}.

(** An alignment of template [t3] with a deletion of 100 bases in it. *)
Definition read_del : Alignment :=
  {| segment :=
       {| qname := "t3"; flag := 0; cigartuples := [(0, 50); (2, 100); (0, 50)]; mapq := 60;
          tag_DP := None; tag_DN := None; tag_DA := None; tag_NM := None; tag_AS := None;
          tag_SA := None |};
     rname := 1; pos := 100; reference_end := 300;
     rnext := 1; tlen := 0; read_length := 100 |}.

(** * Properties *)

(** ** Classifier *)

Lemma classify_d_regime (v : AlignmentItem) :
  classify_d v =
    if negb (chrA v =? chrB v) then translocation (cleared v)
    else if truthy (priA v) && truthy (priB v) then two_primary (cleared v)
    else if rA v =? rB v then same_read (cleared v)
    else different_read (cleared v).
Proof. destruct v; reflexivity. Qed.

Ltac bool_hyps :=
  repeat match goal with
  | H : (_ && _) = true |- _ => apply andb_true_iff in H; destruct H
  | H : (_ || _) = false |- _ => apply orb_false_iff in H; destruct H
  | H : negb _ = true |- _ => apply negb_true_iff in H
  | H : negb _ = false |- _ => apply negb_false_iff in H
  | H : (_ =? _) = true |- _ => apply Z.eqb_eq in H
  | H : (_ =? _) = false |- _ => apply Z.eqb_neq in H
  | H : (_ <? _) = true |- _ => apply Z.ltb_lt in H
  | H : (_ <? _) = false |- _ => apply Z.ltb_ge in H
  | H : (_ <=? _) = true |- _ => apply Z.leb_le in H
  | H : (_ <=? _) = false |- _ => apply Z.leb_gt in H
  end.

(** Reduce setters and projections of an item given by its fields. *)
Ltac item_simpl :=
  cbv beta iota zeta delta
    [set_breakA set_breakB set_breakA_precise set_breakB_precise set_query_gap
     set_svtype set_join_type cleared
     chrA chrB priA priB rA rB posA endA posB endB strandA strandB
     left_clipA right_clipA left_clipB right_clipB breakA_precise breakB_precise
     breakA breakB a_qstart a_qend b_qstart b_qend query_gap read_overlaps_mate
     svtype join_type] in *.

Lemma holds_if {A : Type} (P : A -> Prop) (c b : bool) (x y : A) :
  c = b ->
  (b = true -> holds P x) -> (b = false -> holds P y) ->
  holds P (if c then x else y).
Proof. intros ->; destruct b; auto. Qed.

Lemma holds_if_true {A : Type} (P : A -> Prop) (c b : bool) (x y : A) :
  c = b -> b = true -> holds P x -> holds P (if c then x else y).
Proof. intros -> ->; auto. Qed.

Lemma holds_if_false {A : Type} (P : A -> Prop) (c b : bool) (x y : A) :
  c = b -> b = false -> holds P y -> holds P (if c then x else y).
Proof. intros -> ->; auto. Qed.

Lemma holds_let {A B : Type} (P : B -> Prop) (x x' : A) (k : A -> B) :
  x = x' -> holds P (k x') -> holds P (let v := x in k v).
Proof. intros ->; auto. Qed.

Lemma holds_let_if {A B : Type} (P : B -> Prop) (r : A) (c : bool) (x y : A) (k : A -> B) :
  r = (if c then x else y) ->
  (c = true -> holds P (let v := x in k v)) ->
  (c = false -> holds P (let v := y in k v)) ->
  holds P (let v := r in k v).
Proof. intros ->; destruct c; auto. Qed.

Lemma holds_let_if_true {A B : Type} (P : B -> Prop) (r : A) (c : bool) (x y : A) (k : A -> B) :
  r = (if c then x else y) -> c = true ->
  holds P (let v := x in k v) -> holds P (let v := r in k v).
Proof. intros -> ->; auto. Qed.

Lemma holds_let_if_false {A B : Type} (P : B -> Prop) (r : A) (c : bool) (x y : A) (k : A -> B) :
  r = (if c then x else y) -> c = false ->
  holds P (let v := y in k v) -> holds P (let v := r in k v).
Proof. intros -> ->; auto. Qed.

(** Setters, projections and bindings of a term, reduced. *)
Ltac item_eval t :=
  eval cbv beta iota zeta delta
    [set_breakA set_breakB set_breakA_precise set_breakB_precise set_query_gap
     set_svtype set_join_type cleared
     chrA chrB priA priB rA rB posA endA posB endB strandA strandB
     left_clipA right_clipA left_clipB right_clipB breakA_precise breakB_precise
     breakA breakB a_qstart a_qend b_qstart b_qend query_gap read_overlaps_mate
     svtype join_type] in t.

(** A test on the input fields: its value when it is closed, the test
    itself otherwise. *)
Ltac test_value c :=
  let c' := item_eval c in
  let c'' := eval cbn in c' in
  lazymatch c'' with
  | true => constr:(true)
  | false => constr:(false)
  | _ => c'
  end.

(** Symbolic execution of a regime on an item given by its fields: the
    outermost binding is evaluated and substituted, the outermost test is
    split unless it is closed or settled by a hypothesis.  Only the head of
    the program is ever reduced. *)
Ltac exec_step :=
  lazymatch goal with
  | |- holds ?P (if ?c then ?x else ?y) =>
    let b := test_value c in
    lazymatch b with
    | true => refine (holds_if_true P c b x y eq_refl eq_refl _)
    | false => refine (holds_if_false P c b x y eq_refl eq_refl _)
    | _ =>
      lazymatch goal with
      | H : b = true |- _ => refine (holds_if_true P c b x y eq_refl H _)
      | H : b = false |- _ => refine (holds_if_false P c b x y eq_refl H _)
      | _ => refine (holds_if P c b x y eq_refl _ _); intro
      end
    end
  | |- holds ?P (let v := ?R in @?k v) =>
    let R' := item_eval R in
    lazymatch R' with
    | if ?c then ?x else ?y =>
      let b := test_value c in
      lazymatch b with
      | true => refine (holds_let_if_true P R b x y k eq_refl eq_refl _)
      | false => refine (holds_let_if_false P R b x y k eq_refl eq_refl _)
      | _ =>
        lazymatch goal with
        | H : b = true |- _ => refine (holds_let_if_true P R b x y k eq_refl H _)
        | H : b = false |- _ => refine (holds_let_if_false P R b x y k eq_refl H _)
        | _ => refine (holds_let_if P R b x y k eq_refl _ _); intro
        end
      end
    | _ => refine (holds_let P R R' k eq_refl _); cbv beta
    end
  end.

Ltac exec f :=
  match goal with
  | |- context [f ?x] =>
    pattern (f x);
    match goal with |- ?P (f x) => change (holds P (f x)) end
  end;
  cbv delta [f]; cbv beta; repeat exec_step; unfold holds; item_simpl.

(** Closed conjunctions and existentials of equations, by evaluation. *)
Ltac conj_vm :=
  repeat match goal with
  | |- _ /\ _ => split
  | |- exists _, _ => eexists
  end;
  vm_compute; reflexivity.

(** A literal key is not in a literal list of other keys. *)
Ltac not_in_keys :=
  let Hin := fresh "Hin" in
  intros Hin; cbv delta [swapped_keys annotation_keys] in Hin;
  repeat (apply elem_of_cons in Hin; destruct Hin as [Hin | Hin]; [discriminate Hin |]);
  by apply elem_of_nil in Hin.

(** Split on the first test still standing in the goal. *)
Ltac split_if :=
  match goal with
  | |- context [if ?c then _ else _] => destruct c eqn:?
  end.

(** ** Dictionaries *)

Lemma getitem_Some (d : gmap string pyval) (k : string) (x : pyval) :
  d !! k = Some x -> getitem d k = Ok x.
Proof. unfold getitem. now intros ->. Qed.

Lemma getitem_Ok (d : gmap string pyval) (k : string) (x : pyval) :
  getitem d k = Ok x -> d !! k = Some x.
Proof. unfold getitem. destruct (d !! k); [now intros [= ->] | discriminate]. Qed.

Lemma getint_Some (d : gmap string pyval) (k : string) (z : Z) :
  d !! k = Some (PInt z) -> getint d k = Ok z.
Proof. unfold getint, getitem. now intros ->. Qed.


(** C4.  In the different-read regime (same chromosome, not both primary,
    [rA <> rB]), opposite strands in the deletion-shaped orientation (A
    first with strands 3 then 5, or B first with strands 5 then 3) are
    classified as svtype INS with join type 3to5. *)
Theorem C4_different_read_deletion_shape_is_INS (v : AlignmentItem) :
  chrA v = chrB v ->
  truthy (priA v) && truthy (priB v) = false ->
  rA v <> rB v ->
  (A_first v = true /\ strandA v = 3 /\ strandB v = 5) \/
  (A_first v = false /\ strandA v = 5 /\ strandB v = 3) ->
  svtype (classify_d v) = "INS" /\ join_type (classify_d v) = "3to5".
Proof.
  intros Hchr Hpri Hr Hshape.
  rewrite classify_d_regime, Hpri.
  apply Z.eqb_eq in Hchr. apply Z.eqb_neq in Hr. rewrite Hchr, Hr. cbn [negb].
  destruct v; unfold A_first in Hshape; item_simpl.
  destruct Hshape as [(Hf & -> & ->) | (Hf & -> & ->)];
    exec different_read; split; reflexivity.
Qed.

Lemma C4_witness :
  svtype (classify_d item_c4) = "INS" /\ join_type (classify_d item_c4) = "3to5".
Proof.
  apply (C4_different_read_deletion_shape_is_INS item_c4);
    [reflexivity | reflexivity | cbn; lia | left; repeat split; reflexivity].
Defined.

(** C6.  The specification wants a same-read, same-strand pair of
    overlapping alignments classified by comparing the gap on the reference
    with the gap on the query, and gives the case where the overlap on the
    reference is larger than the overlap on the query as a DUP.  [item_c6]
    is such a pair: the two pieces overlap by 50 on the reference and by 10
    on the query.  With the piece that starts first labelled A the
    classifier compares [breakB - breakA = -50] with
    [b_qstart - a_qend = -10] and answers INS, recording a gap of -10.  With
    the labels exchanged ([item_c6_swapped]) the sibling branch compares
    [breakB - breakA = 50] with [b_qend - a_qstart = 10] and answers DUP. *)
Theorem C6_overlap_is_INS_or_DUP_by_label :
  let v := classify_d item_c6 in
  let w := classify_d item_c6_swapped in
  (chrA item_c6 = chrB item_c6 /\ rA item_c6 = rB item_c6 /\
   strandA item_c6 = strandB item_c6 /\
   (truthy (priA item_c6) && truthy (priB item_c6)) = false /\
   is_overlapping (posA item_c6) (endA item_c6) (posB item_c6) (endB item_c6) = true) /\
  (Z.min (endA item_c6) (endB item_c6) - Z.max (posA item_c6) (posB item_c6) = 50 /\
   a_qend item_c6 - b_qstart item_c6 = 10) /\
  (A_first item_c6 = true /\
   breakB v - breakA v = -50 /\ b_qstart item_c6 - a_qend item_c6 = -10 /\
   svtype v = "INS" /\ query_gap v = -10 /\ join_type v = "5to3") /\
  (A_first item_c6_swapped = false /\
   breakB w - breakA w = 50 /\ b_qend item_c6_swapped - a_qstart item_c6_swapped = 10 /\
   svtype w = "DUP" /\ query_gap w = -1 /\ join_type w = "5to3").
Proof. cbv zeta. conj_vm. Qed.

(** Whatever the clips, with both strands 3 or 5 an intra-chromosomal
    classification places each breakpoint at the start or at the end of its
    alignment. *)
Lemma classify_d_breaks_are_endpoints (v : AlignmentItem) :
  chrA v = chrB v ->
  (strandA v = 3 \/ strandA v = 5) -> (strandB v = 3 \/ strandB v = 5) ->
  let v' := classify_d v in
  (breakA v' = posA v \/ breakA v' = endA v) /\
  (breakB v' = posB v \/ breakB v' = endB v).
Proof.
  intros Hchr HsA HsB.
  rewrite classify_d_regime.
  apply Z.eqb_eq in Hchr. rewrite Hchr. cbn [negb].
  destruct v; item_simpl.
  destruct HsA as [-> | ->], HsB as [-> | ->];
    repeat split_if;
    first [ exec two_primary | exec same_read | exec different_read ]; auto.
Qed.

(** C5.  The specification wants a precision flag raised only when the
    side chosen for the breakpoint carries a clip.  On [item_c5] (both primary,
    same chromosome, both reverse, A first) the classifier places [breakB] at
    [posB] and raises [breakB_precise] although B has no left clip: the test
    made is on the right clip, which sits at [endB]. *)
Theorem C5_precise_flag_without_clip_on_chosen_side :
  let v' := classify_d item_c5 in
  chrA item_c5 = chrB item_c5 /\
  svtype v' = "INV" /\ join_type v' = "5to5" /\
  breakB v' = posB item_c5 /\ breakB v' <> endB item_c5 /\
  left_clipB item_c5 = 0 /\ right_clipB item_c5 = 1 /\
  breakB_precise v' = 1.
Proof. vm_compute. repeat split; discriminate. Qed.

(** ** Soft-clip resolver *)

Lemma py_first_nonempty {A : Type} (l : list A) :
  l <> [] -> exists x, py_first l = Ok x.
Proof. destruct l; [congruence | eauto]. Qed.

Lemma py_last_nonempty {A : Type} (l : list A) :
  l <> [] -> exists x, py_last l = Ok x.
Proof.
  intros Hl. unfold py_last.
  destruct (List.rev l) as [|x r] eqn:E; [| eauto].
  apply (f_equal (@List.rev A)) in E. rewrite List.rev_involutive in E. contradiction.
Qed.

(** C9.  On non-empty cigars, for all flag values, [mask_soft_clips]
    returns (it raises nothing), each of its four results is 0 or 1, and
    neither alignment keeps both its left and its right clip. *)
Theorem C9_mask_soft_clips_one_side (aflag bflag : Z) (a_ct b_ct : cigar) :
  a_ct <> [] -> b_ct <> [] ->
  exists left_clipA right_clipA left_clipB right_clipB : Z,
    mask_soft_clips aflag bflag a_ct b_ct
      = Ok (left_clipA, right_clipA, left_clipB, right_clipB) /\
    (left_clipA = 0 \/ left_clipA = 1) /\ (right_clipA = 0 \/ right_clipA = 1) /\
    (left_clipB = 0 \/ left_clipB = 1) /\ (right_clipB = 0 \/ right_clipB = 1) /\
    ~ (left_clipA = 1 /\ right_clipA = 1) /\
    ~ (left_clipB = 1 /\ right_clipB = 1).
Proof.
  intros Ha Hb.
  destruct (py_first_nonempty a_ct Ha) as [a0 Ea0], (py_last_nonempty a_ct Ha) as [a1 Ea1].
  destruct (py_first_nonempty b_ct Hb) as [b0 Eb0], (py_last_nonempty b_ct Hb) as [b1 Eb1].
  unfold mask_soft_clips. rewrite Ea0, Ea1, Eb0, Eb1. cbn [mbind res_bind].
  destruct ((a0.1 =? 4) || (a0.1 =? 5)), ((a1.1 =? 4) || (a1.1 =? 5)),
           ((b0.1 =? 4) || (b0.1 =? 5)), ((b1.1 =? 4) || (b1.1 =? 5));
    cbn [truthy Z.eqb negb andb orb];
    repeat (split_if; cbn [truthy Z.eqb negb andb orb]);
    do 4 eexists; (split; [reflexivity |]); lia.
Qed.

Lemma C9_witness :
  exists left_clipA right_clipA left_clipB right_clipB : Z,
    mask_soft_clips 65 2193 [(4, 20); (0, 60); (4, 30)] [(5, 70); (0, 40)]
      = Ok (left_clipA, right_clipA, left_clipB, right_clipB) /\
    (left_clipA = 0 \/ left_clipA = 1) /\ (right_clipA = 0 \/ right_clipA = 1) /\
    (left_clipB = 0 \/ left_clipB = 1) /\ (right_clipB = 0 \/ right_clipB = 1) /\
    ~ (left_clipA = 1 /\ right_clipA = 1) /\
    ~ (left_clipB = 1 /\ right_clipB = 1).
Proof.
  apply (C9_mask_soft_clips_one_side 65 2193 [(4, 20); (0, 60); (4, 30)] [(5, 70); (0, 40)]);
    discriminate.
Defined.

(** ** C ints *)

(** Within the range of a C int nothing wraps. *)
Lemma wrap32_small (z : Z) : int32 z -> wrap32 z = z.
Proof.
  unfold int32, wrap32. intros H. rewrite Z.mod_small; lia.
Qed.

Lemma wrap32_pred_succ (z : Z) : int32 z -> wrap32 (wrap32 (z + -1) + 1) = z.
Proof.
  unfold int32, wrap32. intros H. Z.to_euclidean_division_equations. lia.
Qed.

(** ** Interval sweep *)

Lemma insert_by_length {A : Type} (leb : A -> A -> bool) (x : A) (l : list A) :
  length (insert_by leb x l) = S (length l).
Proof.
  induction l as [|y l IH]; cbn; [reflexivity |].
  destruct (leb x y); cbn; [reflexivity | now rewrite IH].
Qed.

Lemma sorted_by_length {A : Type} (leb : A -> A -> bool) (l : list A) :
  length (sorted_by leb l) = length l.
Proof.
  unfold sorted_by. induction l as [|x l IH]; cbn; [reflexivity |].
  now rewrite insert_by_length, IH.
Qed.

(** The index kept by the scan is the initial one or that of a scanned event. *)
Lemma sweep_index (ops : list (Z * Z * Z)) :
  forall (idx : nat) (cum_sum max_sum : Z) (max_sum_i : nat),
  let i := (sweep ops idx (cum_sum, max_sum, max_sum_i)).2 in
  i = max_sum_i \/ (idx <= i < idx + length ops)%nat.
Proof.
  induction ops as [|item ops IH]; intros idx c m i; cbn; [now left |].
  destruct (c + item.1.2 >? m).
  - destruct (IH (S idx) (c + item.1.2) (c + item.1.2) idx) as [-> | H]; right; lia.
  - destruct (IH (S idx) (c + item.1.2) m i) as [-> | H]; [now left | right; lia].
Qed.

Lemma sweep_index_in_range (ops : list (Z * Z * Z)) :
  ops <> [] -> ((sweep ops 0 (0%Z, 0%Z, 0)).2 < length ops)%nat.
Proof.
  intros Hne.
  assert (0 < length ops)%nat by (destruct ops; [congruence | cbn; lia]).
  destruct (sweep_index ops 0%nat 0 0 0%nat) as [-> | Hr]; lia.
Qed.

(** The sorted events of the sweep are not empty. *)
Lemma break_ops_events_nonempty (positions : list Z) (limit : Z)
    (extra : list (Z * Z * Z)) (leb : Z * Z * Z -> Z * Z * Z -> bool) :
  positions <> [] ->
  sorted_by leb
    (flat_map (fun i => [(i, 1, 0); (wrap32 (i + limit), -1, 0)]) positions ++ extra)%list
    <> [].
Proof.
  intros Hne Hs. apply (f_equal (@length _)) in Hs.
  rewrite sorted_by_length, length_app in Hs.
  destruct positions; [congruence | cbn in Hs; lia].
Qed.

Lemma np_percentile_nonempty (l : list Z) :
  l <> [] -> exists q, np_percentile_97_5 l = Ok q.
Proof.
  destruct l as [|x l]; [congruence |]. intros _. unfold np_percentile_97_5.
  cbv zeta. destruct (Qle_bool (1 # 2) _); eauto.
Qed.

Lemma py_int_Qabs_nonneg (q : Q) : 0 <= py_int (Qabs q).
Proof.
  unfold py_int. apply Z.quot_pos; [| lia].
  destruct q as [n d]; cbn. lia.
Qed.

(** [break_ops] returns on every non-empty list of positions, with a
    confidence interval that is never negative. *)
Lemma break_ops_total (positions precise : list Z) (limit : Z) (median_pos : Q) :
  positions <> [] ->
  exists break_point cipos95 is_precise pct,
    break_ops positions precise limit median_pos = Ok (break_point, cipos95, is_precise) /\
    np_percentile_97_5 positions = Ok pct /\
    cipos95 =
      (if truthy is_precise && (1 <? Z.of_nat (length precise)) then 0
       else py_int (Qabs (float64 (inject_Z (py_int pct) - float32 median_pos)))) /\
    0 <= cipos95.
Proof.
  intros Hne. unfold break_ops.
  destruct (np_percentile_nonempty positions Hne) as [pct Hpct]. rewrite Hpct.
  cbv zeta.
  set (ops := if limit <? 0 then _ else _).
  assert (Hops : ops <> []).
  { subst ops. destruct (limit <? 0); apply break_ops_events_nonempty; assumption. }
  pose proof (sweep_index_in_range ops Hops) as Hi.
  destruct (sweep ops 0%nat (0, 0, 0%nat)) as [[c m] i]; cbn in Hi.
  destruct (ops !! i) as [[[bp d] pr] |] eqn:Hl.
  2: { apply lookup_ge_None in Hl. lia. }
  set (pr' := if negb (truthy pr) then _ else _).
  destruct (truthy pr' && (1 <? Z.of_nat (length precise))) eqn:Hc; cbn [mbind res_bind].
  - exists bp, 0, pr', pct. rewrite Hc. repeat split; lia.
  - exists bp, (py_int (Qabs (float64 (inject_Z (py_int pct) - float32 median_pos)))), pr', pct.
    rewrite Hc. repeat split. apply py_int_Qabs_nonneg.
Qed.

(** The percentile is a float64 and [int] truncates it: on
    [[100; 100; 100; 220]] the interpolation gives
    [220 - 120 * (1 - 0.9249999999999998)], just below 211, so that the
    percentile counts as 210 and the interval from the median 100 is 110. *)
Lemma break_ops_truncates_percentile :
  (pct ← np_percentile_97_5 [100; 100; 100; 220]; Ok (py_int pct)) = Ok 210 /\
  break_ops [100; 100; 100; 220] [] 350 (float32 (np_median [100; 100; 100; 220]))
    = Ok (220, 110, 0).
Proof. conj_vm. Qed.

(** C8.  The specification wants the interval of an imprecise result to
    be the distance from the median of the positions to their 97.5th
    percentile.  [make_call] keeps the median in a C [float], which has 24
    significant bits: above [2 ^ 24] the stored median is no longer the
    median.  For the single position 100000001 the median and the
    percentile are both 100000001, at distance 0; the median is stored as
    100000000 and [break_ops] returns the interval 1.  On [item_c8], a
    deletion between 100000001 and 100000301, [make_call] reports the
    intervals 1 and 3 for two sides that each hold one position. *)
Theorem C8_float_median_widens_interval :
  let v := classify_d item_c8 in
  np_median [100000001] = inject_Z 100000001 /\
  np_percentile_97_5 [100000001] = Ok (inject_Z 100000001) /\
  float32 (np_median [100000001]) = inject_Z 100000000 /\
  break_ops [100000001] [] 350 (float32 (np_median [100000001])) = Ok (100000001, 1, 0) /\
  svtype v = "DEL" /\ join_type v = "3to5" /\
  breakA v = 100000001 /\ breakB v = 100000301 /\
  float32 (np_median [100000301]) = inject_Z 100000304 /\
  make_call [v] [100000001] [100000301] "DEL" "3to5" 300 50 = Ok call_c8 /\
  call_c8 !! "posA" = Some (PInt 100000001) /\ call_c8 !! "cipos95A" = Some (PInt 1) /\
  call_c8 !! "posB" = Some (PInt 100000301) /\ call_c8 !! "cipos95B" = Some (PInt 3).
Proof. cbv zeta. conj_vm. Qed.

(** ** Consensus *)

(** Both sweeps return on non-empty positions, whatever the types. *)
Lemma make_call_sides_total (positionsA positionsB breakA_precise breakB_precise : list Z)
    (svtype jointype : string) (limit : Z) (median_A median_B : Q) :
  positionsA <> [] -> positionsB <> [] ->
  exists main_A_break cipos95A preciseA main_B_break cipos95B preciseB,
    make_call_sides positionsA positionsB breakA_precise breakB_precise
      svtype jointype limit median_A median_B
      = Ok (main_A_break, cipos95A, preciseA, main_B_break, cipos95B, preciseB) /\
    0 <= cipos95A /\ 0 <= cipos95B.
Proof.
  intros HA HB.
  pose proof (fun l => break_ops_total positionsA breakA_precise l median_A HA) as TA.
  pose proof (fun l => break_ops_total positionsB breakB_precise l median_B HB) as TB.
  destruct (TA limit) as (a1 & c1 & p1 & ? & Ea1 & _ & _ & ?).
  destruct (TA (wrap32 (- limit))) as (a2 & c2 & p2 & ? & Ea2 & _ & _ & ?).
  destruct (TB limit) as (b1 & d1 & q1 & ? & Eb1 & _ & _ & ?).
  destruct (TB (wrap32 (- limit))) as (b2 & d2 & q2 & ? & Eb2 & _ & _ & ?).
  unfold make_call_sides.
  repeat split_if; rewrite ?Ea1, ?Ea2, ?Eb1, ?Eb2; cbn [mbind res_bind];
    rewrite ?Ea1, ?Ea2, ?Eb1, ?Eb2; cbn [mbind res_bind];
    do 6 eexists; (split; [reflexivity |]); split; assumption.
Qed.

(** Outside the deletion branch taken when [median_A >= median_B], the flag
    returned for a side is the one its own sweep computed. *)
Lemma make_call_sides_flags (positionsA positionsB breakA_precise breakB_precise : list Z)
    (svtype jointype : string) (limit : Z) (median_A median_B : Q)
    (main_A_break cipos95A preciseA main_B_break cipos95B preciseB : Z) :
  make_call_sides positionsA positionsB breakA_precise breakB_precise
    svtype jointype limit median_A median_B
    = Ok (main_A_break, cipos95A, preciseA, main_B_break, cipos95B, preciseB) ->
  String.eqb svtype "DEL" && negb (Qlt_bool median_A median_B) = false ->
  exists limit_A limit_B,
    (limit_A = limit \/ limit_A = wrap32 (- limit)) /\
    (limit_B = limit \/ limit_B = wrap32 (- limit)) /\
    break_ops positionsA breakA_precise limit_A median_A = Ok (main_A_break, cipos95A, preciseA) /\
    break_ops positionsB breakB_precise limit_B median_B = Ok (main_B_break, cipos95B, preciseB).
Proof.
  unfold make_call_sides. intros H Hbranch. revert H.
  repeat split_if; try discriminate Hbranch; intros H;
    repeat match type of H with
    | context [break_ops ?p ?q ?l ?m] =>
      destruct (break_ops p q l m) as [[[? ?] ?] |] eqn:?; cbn [mbind res_bind] in H;
        [| discriminate H]
    end;
    injection H as <- <- <- <- <- <-; eauto 10.
Qed.

(** In that branch the two flags come back exchanged. *)
Lemma make_call_sides_flags_deletion (positionsA positionsB breakA_precise breakB_precise : list Z)
    (jointype : string) (limit : Z) (median_A median_B : Q)
    (main_A_break cipos95A preciseA main_B_break cipos95B preciseB : Z) :
  make_call_sides positionsA positionsB breakA_precise breakB_precise
    "DEL" jointype limit median_A median_B
    = Ok (main_A_break, cipos95A, preciseA, main_B_break, cipos95B, preciseB) ->
  Qlt_bool median_A median_B = false ->
  break_ops positionsA breakA_precise (wrap32 (- limit)) median_A
    = Ok (main_A_break, cipos95A, preciseB) /\
  break_ops positionsB breakB_precise limit median_B = Ok (main_B_break, cipos95B, preciseA).
Proof.
  unfold make_call_sides. intros H Hm. cbn [String.eqb] in H.
  change (String.eqb "DEL" "DEL") with true in H. cbv iota in H. rewrite Hm in H.
  destruct (break_ops positionsB breakB_precise limit median_B) as [[[? ?] ?] |];
    cbn [mbind res_bind] in H; [| discriminate H].
  destruct (break_ops positionsA breakA_precise (wrap32 (- limit)) median_A) as [[[? ?] ?] |];
    cbn [mbind res_bind] in H; [| discriminate H].
  injection H as <- <- <- <- <- <-. split; reflexivity.
Qed.

(** C2.  The specification wants [preciseA] to be the flag of the sweep
    over the side-A positions and [preciseB] that of the sweep over the
    side-B positions.  For a deletion whose A side lies to the right of its B side
    ([item_c2], classified DEL with [breakA = 500] imprecise and
    [breakB = 200] precise) [make_call] returns them exchanged: [preciseA] is
    1, the flag of the sweep over side B, and [preciseB] is 0, the flag of the
    sweep over side A. *)
Theorem C2_deletion_flags_exchanged :
  let v := classify_d item_c2 in
  svtype v = "DEL" /\ join_type v = "3to5" /\
  break_ops [breakA v] [] (- 350) (np_median [breakA v]) = Ok (500, 0, 0) /\
  break_ops [breakB v] [200] 350 (np_median [breakB v]) = Ok (200, 0, 1) /\
  make_call [v] [] [200] "DEL" "3to5" 300 50 = Ok call_c2 /\
  call_c2 !! "posA" = Some (PInt 500) /\ call_c2 !! "preciseA" = Some (PInt 1) /\
  call_c2 !! "posB" = Some (PInt 200) /\ call_c2 !! "preciseB" = Some (PInt 0).
Proof. cbv zeta. conj_vm. Qed.

(** The call returned on a non-empty list of hypotheses, field by field. *)
Lemma make_call_total (informative_0 : AlignmentItem) (rest : list AlignmentItem)
    (breakA_precise breakB_precise : list Z) (svtype jointype : string)
    (insert_size insert_stdev : Z) :
  let informative := informative_0 :: rest in
  exists call sides posA cipos95A preciseA posB cipos95B preciseB svlen,
    make_call informative breakA_precise breakB_precise svtype jointype
      insert_size insert_stdev = Ok call /\
    make_call_sides (map breakA informative) (map breakB informative)
      breakA_precise breakB_precise svtype jointype (wrap32 (insert_size + insert_stdev))
      (float32 (np_median (map breakA informative)))
      (float32 (np_median (map breakB informative))) = Ok sides /\
    0 <= sides.1.1.1.1.2 /\ 0 <= sides.1.2 /\
    make_call_svlen informative informative_0 svtype sides
      = (posA, cipos95A, preciseA, posB, cipos95B, preciseB, svlen) /\
    call !! "svtype" = Some (PStr svtype) /\
    call !! "join_type" = Some (PStr jointype) /\
    call !! "chrA" = Some (PInt (chrA informative_0)) /\
    call !! "chrB" = Some (PInt (chrB informative_0)) /\
    call !! "posA" = Some (PInt posA) /\ call !! "posB" = Some (PInt posB) /\
    call !! "cipos95A" = Some (PInt cipos95A) /\ call !! "cipos95B" = Some (PInt cipos95B) /\
    call !! "preciseA" = Some (PInt preciseA) /\ call !! "preciseB" = Some (PInt preciseB) /\
    call !! "svlen" = Some (PInt svlen).
Proof.
  intros informative.
  destruct (make_call_sides_total (map breakA informative) (map breakB informative)
              breakA_precise breakB_precise svtype jointype
              (wrap32 (insert_size + insert_stdev))
              (float32 (np_median (map breakA informative)))
              (float32 (np_median (map breakB informative))))
    as (a & ca & pa & b & cb & pb & Hs & Hca & Hcb); [discriminate | discriminate |].
  unfold make_call. subst informative. cbv zeta. rewrite Hs. cbn [mbind res_bind].
  destruct (make_call_svlen (informative_0 :: rest) informative_0 svtype (a, ca, pa, b, cb, pb))
    as [[[[[[a' ca'] pa'] b'] cb'] pb'] svlen] eqn:Hv.
  eexists _, (a, ca, pa, b, cb, pb), a', ca', pa', b', cb', pb', svlen.
  split; [reflexivity |]. split; [reflexivity |].
  split; [exact Hca |]. split; [exact Hcb |]. split; [exact Hv |].
  repeat split; by simplify_map_eq.
Qed.

(** ** Evidence aggregator *)

(** C3.  The specification wants the extended aggregator to return a
    dictionary on every input with non-empty cigars.  Its dictionary is created without
    the key [n_gaps] (the basic aggregator has it), and the first read makes
    it subscript that key: as soon as [reads1] holds a read, whatever its
    flag, cigar and tags, [extended_attrs] raises [KeyError]. *)
Theorem C3_extended_attrs_raises_KeyError (a : AlignedSegment)
    (reads1 reads2 spanning : list AlignedSegment) (min_support : Z) (svtype : pyval) :
  extended_attrs (a :: reads1) reads2 spanning min_support svtype
    = Raise (KeyError "n_gaps") /\
  count_attributes (a :: reads1) reads2 spanning min_support 1 svtype
    = Raise (KeyError "n_gaps").
Proof.
  assert (H : extended_attrs (a :: reads1) reads2 spanning min_support svtype
              = Raise (KeyError "n_gaps")).
  { unfold extended_attrs. cbn [app for_reads].
    destruct a as [qn fl ct mq dp dn da nm asc sa].
    unfold once_per_template, append_tag, append_n_sa, append_n_gaps.
    cbn [qname flag cigartuples mapq tag_DP tag_DN tag_DA tag_NM tag_AS tag_SA].
    destruct (n_aligned_bases ct) as [[a_bases large_gaps] n_small_gaps].
    destruct dp, dn, sa, (truthy (Z.land fl 2)); vm_compute; reflexivity. }
  split; [exact H |]. unfold count_attributes. exact H.
Qed.

(** The same on a concrete read with a well-formed cigar. *)
Lemma extended_attrs_read_pri :
  extended_attrs [read_pri] [] [] 1 (PStr "DEL") = Raise (KeyError "n_gaps").
Proof. vm_compute. reflexivity. Qed.

(** The basic aggregator on the two reads of template [t1]. *)
Lemma normal_attrs_t1 :
  normal_attrs [read_pri] [read_supp] [] 2 (PStr "INS") ≫= (fun r =>
    Ok (r !! "pe", r !! "supp", r !! "sc", r !! "spanning"))
  = Ok (Some (PInt 0), Some (PInt 1), Some (PInt 2), Some (PInt 0)).
Proof. vm_compute. reflexivity. Qed.

(** Without any read the extended aggregator returns the empty dictionary
    when [min_support] is positive, and raises as well otherwise. *)
Lemma extended_attrs_no_reads (min_support : Z) (svtype : pyval) :
  extended_attrs [] [] [] min_support svtype
    = if 0 <? min_support then Ok ∅ else Raise (KeyError "n_gaps").
Proof.
  destruct min_support; vm_compute; reflexivity.
Qed.

(** ** Support filter *)

Lemma size_lookup_Some (m : gmap string pyval) (k : string) (x : pyval) :
  m !! k = Some x -> Nat.eqb (size m) 0 = false.
Proof.
  intros H. apply Nat.eqb_neq. intros Hs.
  apply map_size_empty_inv in Hs. subst m. by rewrite lookup_empty in H.
Qed.

Lemma getitem_union_r (attrs info : gmap string pyval) (k : string) :
  is_Some (info !! k) -> exists x, getitem (attrs ∪ info) k = Ok x.
Proof.
  intros Hk. unfold getitem.
  destruct ((attrs ∪ info) !! k) as [x |] eqn:E; [eauto |].
  apply lookup_union_None in E. destruct E as [_ E]. rewrite E in Hk. by destruct Hk.
Qed.

Section Filter.

Variable base_assemble : list AlignedSegment -> pyval -> Z -> option assembly.

Lemma assemble_if_total (attrs info : gmap string pyval) (k p : string)
    (reads : list AlignedSegment) :
  is_Some (info !! k) -> is_Some (info !! p) ->
  exists a, assemble_if base_assemble (attrs ∪ info) k p reads = Ok a.
Proof.
  intros Hk Hp. unfold assemble_if.
  destruct (getitem_union_r attrs info k Hk) as [x ->]. cbn [mbind res_bind].
  destruct (py_bool x); [| eauto].
  destruct (getitem_union_r attrs info p Hp) as [y ->]. cbn [mbind res_bind]. eauto.
Qed.

(** The filter of [single]: below the minimum, only an insertion with
    split or spanning support and enough clipped reads is kept. *)
Lemma single_tail_filter (info attrs : gmap string pyval) (svtype : pyval)
    (informative_reads u_reads v_reads : list AlignedSegment)
    (spanning_alignments : list spanning_tuple)
    (min_found_support min_support to_assemble extended_tags pe supp sc spanning : Z) :
  info !! "svtype" = Some svtype ->
  (forall k, k ∈ ["preciseA"; "posA"; "preciseB"; "posB"] -> is_Some (info !! k)) ->
  count_attributes informative_reads [] (map snd spanning_alignments)
    min_support extended_tags svtype = Ok attrs ->
  attrs !! "pe" = Some (PInt pe) -> attrs !! "supp" = Some (PInt supp) ->
  attrs !! "sc" = Some (PInt sc) -> attrs !! "spanning" = Some (PInt spanning) ->
  let pe' := if min_found_support >? pe + supp + 2 * spanning then min_found_support else pe in
  pe' + supp + 2 * spanning < min_support ->
  if py_eq svtype (PStr "INS") && (supp + spanning >? 0) && (supp + sc + spanning >? min_support)
  then exists call,
         single_tail base_assemble info informative_reads u_reads v_reads spanning_alignments
           min_found_support min_support to_assemble extended_tags = Ok call /\
         call !! "block_edge" = Some (PInt 0) /\ call !! "linked" = Some (PInt 0)
  else single_tail base_assemble info informative_reads u_reads v_reads spanning_alignments
         min_found_support min_support to_assemble extended_tags = Ok ∅.
Proof.
  intros Hsv Hkeys Hattrs Hpe Hsupp Hsc Hspan pe' Hlow.
  unfold single_tail.
  rewrite (getitem_Some _ _ _ Hsv). cbn [mbind res_bind]. rewrite Hattrs. cbn [mbind res_bind].
  rewrite (getint_Some _ _ _ Hpe), (getint_Some _ _ _ Hsupp), (getint_Some _ _ _ Hspan).
  cbn [mbind res_bind].
  set (attrs' := if min_found_support >? pe + supp + 2 * spanning then _ else attrs).
  assert (Hpe' : attrs' !! "pe" = Some (PInt pe')).
  { subst attrs' pe'. destruct (min_found_support >? pe + supp + 2 * spanning);
      by simplify_map_eq. }
  assert (Hsupp' : attrs' !! "supp" = Some (PInt supp)).
  { subst attrs'. destruct (min_found_support >? pe + supp + 2 * spanning);
      by simplify_map_eq. }
  assert (Hsc' : attrs' !! "sc" = Some (PInt sc)).
  { subst attrs'. destruct (min_found_support >? pe + supp + 2 * spanning);
      by simplify_map_eq. }
  assert (Hspan' : attrs' !! "spanning" = Some (PInt spanning)).
  { subst attrs'. destruct (min_found_support >? pe + supp + 2 * spanning);
      by simplify_map_eq. }
  clearbody attrs'.
  rewrite (size_lookup_Some _ _ _ Hpe').
  rewrite (getint_Some _ _ _ Hpe'), (getint_Some _ _ _ Hsupp'), (getint_Some _ _ _ Hspan').
  cbn [mbind res_bind].
  apply Z.ltb_lt in Hlow. rewrite Hlow.
  destruct (py_eq svtype (PStr "INS")); cbn [andb].
  2: { cbn [mbind res_bind negb]. reflexivity. }
  rewrite (getint_Some _ _ _ Hsc'). cbn [mbind res_bind].
  destruct ((supp + spanning >? 0) && (supp + sc + spanning >? min_support));
    cbn [negb]; [| reflexivity].
  destruct (assemble_if_total attrs' info "preciseA" "posA" u_reads) as [as1 E1];
    [apply Hkeys; set_solver | apply Hkeys; set_solver |].
  destruct (assemble_if_total attrs' info "preciseB" "posB" v_reads) as [as2 E2];
    [apply Hkeys; set_solver | apply Hkeys; set_solver |].
  rewrite E1, E2. cbn [mbind res_bind].
  destruct (truthy to_assemble || (0 <? Z.of_nat (length spanning_alignments)));
    cbn [mbind res_bind];
    repeat match goal with
    | |- context [match ?x with Some _ => _ | None => _ end] => destruct x
    | |- context [if ?c then _ else _] => destruct c
    end;
    eexists; (split; [reflexivity |]); split; by simplify_map_eq.
Qed.

(** The filter of [one_edge]: below the minimum nothing is kept, whatever
    the type; spanning reads count once. *)
Lemma one_edge_tail_filter (info attrs : gmap string pyval) (svtype : pyval)
    (u_reads v_reads : list AlignedSegment) (spanning_alignments : list spanning_tuple)
    (min_support block_edge assemble extended_tags pe supp : Z) :
  info !! "svtype" = Some svtype ->
  count_attributes u_reads v_reads (map snd spanning_alignments)
    min_support extended_tags svtype = Ok attrs ->
  attrs !! "pe" = Some (PInt pe) -> attrs !! "supp" = Some (PInt supp) ->
  pe + supp + Z.of_nat (length spanning_alignments) < min_support ->
  one_edge_tail base_assemble info u_reads v_reads spanning_alignments
    min_support block_edge assemble extended_tags = Ok ∅.
Proof.
  intros Hsv Hattrs Hpe Hsupp Hlow. unfold one_edge_tail.
  rewrite (getitem_Some _ _ _ Hsv). cbn [mbind res_bind]. rewrite Hattrs. cbn [mbind res_bind].
  rewrite (size_lookup_Some _ _ _ Hpe).
  rewrite (getint_Some _ _ _ Hpe), (getint_Some _ _ _ Hsupp). cbn [mbind res_bind].
  apply Z.ltb_lt in Hlow. rewrite Hlow. reflexivity.
Qed.

(** C1, as the code has it.  Singleton path: when the aggregate
    [pe + supp + 2 * spanning] is below [min_support] ([pe] as [single] has
    adjusted it to the number of hypotheses behind the call), the result is
    empty, unless the call is an insertion with [supp + spanning > 0] and
    [supp + sc + spanning > min_support], which is returned.  Edge path: the
    result is empty as soon as [pe + supp + spanning] is below
    [min_support], hence whenever the aggregate is, insertions included. *)
Theorem C1_support_filter_by_path :
  (forall (info attrs : gmap string pyval) (svtype : pyval)
      (informative_reads u_reads v_reads : list AlignedSegment)
      (spanning_alignments : list spanning_tuple)
      (min_found_support min_support to_assemble extended_tags pe supp sc spanning : Z),
    info !! "svtype" = Some svtype ->
    (forall k, k ∈ ["preciseA"; "posA"; "preciseB"; "posB"] -> is_Some (info !! k)) ->
    count_attributes informative_reads [] (map snd spanning_alignments)
      min_support extended_tags svtype = Ok attrs ->
    attrs !! "pe" = Some (PInt pe) -> attrs !! "supp" = Some (PInt supp) ->
    attrs !! "sc" = Some (PInt sc) -> attrs !! "spanning" = Some (PInt spanning) ->
    let pe' := if min_found_support >? pe + supp + 2 * spanning
               then min_found_support else pe in
    pe' + supp + 2 * spanning < min_support ->
    if py_eq svtype (PStr "INS") && (supp + spanning >? 0)
       && (supp + sc + spanning >? min_support)
    then exists call,
           single_tail base_assemble info informative_reads u_reads v_reads
             spanning_alignments min_found_support min_support to_assemble extended_tags
             = Ok call /\
           call !! "block_edge" = Some (PInt 0) /\ call !! "linked" = Some (PInt 0)
    else single_tail base_assemble info informative_reads u_reads v_reads
           spanning_alignments min_found_support min_support to_assemble extended_tags
           = Ok ∅) /\
  (forall (info attrs : gmap string pyval) (svtype : pyval)
      (u_reads v_reads : list AlignedSegment) (spanning_alignments : list spanning_tuple)
      (min_support block_edge assemble extended_tags pe supp : Z),
    info !! "svtype" = Some svtype ->
    count_attributes u_reads v_reads (map snd spanning_alignments)
      min_support extended_tags svtype = Ok attrs ->
    attrs !! "pe" = Some (PInt pe) -> attrs !! "supp" = Some (PInt supp) ->
    (pe + supp + Z.of_nat (length spanning_alignments) < min_support \/
     pe + supp + 2 * Z.of_nat (length spanning_alignments) < min_support) ->
    one_edge_tail base_assemble info u_reads v_reads spanning_alignments
      min_support block_edge assemble extended_tags = Ok ∅).
Proof.
  split.
  - intros info attrs svtype informative_reads u_reads v_reads spanning_alignments
      min_found_support min_support to_assemble extended_tags pe supp sc spanning
      Hsv Hkeys Hattrs Hpe Hsupp Hsc Hspan pe' Hlow.
    exact (single_tail_filter info attrs svtype informative_reads u_reads v_reads
             spanning_alignments min_found_support min_support to_assemble extended_tags
             pe supp sc spanning Hsv Hkeys Hattrs Hpe Hsupp Hsc Hspan Hlow).
  - intros info attrs svtype u_reads v_reads spanning_alignments
      min_support block_edge assemble extended_tags pe supp Hsv Hattrs Hpe Hsupp Hlow.
    apply (one_edge_tail_filter info attrs svtype) with (pe := pe) (supp := supp);
      try assumption.
    lia.
Qed.

End Filter.

Lemma C1_witness :
  (exists call,
     single_tail no_assembly info_c1 [read_pri; read_supp] [] [] [] 1 2 0 0 = Ok call /\
     call !! "block_edge" = Some (PInt 0) /\ call !! "linked" = Some (PInt 0)) /\
  one_edge_tail no_assembly info_c1 [read_pri] [read_supp] [] 4 1 0 0 = Ok ∅.
Proof.
  split.
  - apply (proj1 (C1_support_filter_by_path no_assembly)
             info_c1 attrs_c1 (PStr "INS") [read_pri; read_supp] [] [] [] 1 2 0 0 0 1 2 0);
      try (vm_compute; reflexivity).
    intros k Hk.
    repeat (apply elem_of_cons in Hk; destruct Hk as [-> | Hk];
            [vm_compute; eexists; reflexivity |]).
    by apply elem_of_nil in Hk.
  - apply (proj2 (C1_support_filter_by_path no_assembly)
             info_c1 (or_empty (normal_attrs [read_pri] [read_supp] [] 4 (PStr "INS")))
             (PStr "INS") [read_pri] [read_supp] [] 4 1 0 0 0 1);
      try (vm_compute; reflexivity).
    left. vm_compute. reflexivity.
Defined.

(** C1 as the specification states it fails on the edge path: an
    insertion whose aggregate [pe + supp + 2 * spanning = 1] is below
    [min_support = 2], with [supp + spanning = 1 > 0] and
    [supp + sc + spanning = 3 > 2], yields no call. *)
Lemma C1_counterexample :
  info_c1 !! "svtype" = Some (PStr "INS") /\
  count_attributes [read_pri] [read_supp] [] 2 0 (PStr "INS") = Ok attrs_c1 /\
  attrs_c1 !! "pe" = Some (PInt 0) /\ attrs_c1 !! "supp" = Some (PInt 1) /\
  attrs_c1 !! "sc" = Some (PInt 2) /\ attrs_c1 !! "spanning" = Some (PInt 0) /\
  0 + 1 + 2 * 0 < 2 /\ 1 + 0 > 0 /\ 1 + 2 + 0 > 2 /\
  one_edge_tail no_assembly info_c1 [read_pri] [read_supp] [] 2 1 0 0 = Ok ∅.
Proof. conj_vm. Qed.

(** ** Regional annotation *)

Lemma swap_labels_Some (r : gmap string pyval)
    (cA pA ciA k1 cB pB ciB k2 : pyval) :
  r !! "chrA" = Some cA -> r !! "posA" = Some pA -> r !! "cipos95A" = Some ciA ->
  r !! "contig" = Some k1 ->
  r !! "chrB" = Some cB -> r !! "posB" = Some pB -> r !! "cipos95B" = Some ciB ->
  r !! "contig2" = Some k2 ->
  swap_labels r = Ok (swapped r cA pA ciA k1 cB pB ciB k2).
Proof.
  intros. unfold swap_labels.
  repeat (erewrite getitem_Some by (by simplify_map_eq); cbn [mbind res_bind]).
  reflexivity.
Qed.

Lemma swap_labels_Ok (r r' : gmap string pyval) :
  swap_labels r = Ok r' ->
  exists cA pA ciA k1 cB pB ciB k2,
    r !! "chrA" = Some cA /\ r !! "posA" = Some pA /\ r !! "cipos95A" = Some ciA /\
    r !! "contig" = Some k1 /\
    r !! "chrB" = Some cB /\ r !! "posB" = Some pB /\ r !! "cipos95B" = Some ciB /\
    r !! "contig2" = Some k2 /\
    r' = swapped r cA pA ciA k1 cB pB ciB k2.
Proof.
  unfold swap_labels. intros H.
  repeat match type of H with
  | context [getitem ?d ?k] =>
    let E := fresh "E" in
    destruct (getitem d k) eqn:E; cbn [mbind res_bind] in H; [| discriminate H];
    apply getitem_Ok in E; rewrite ?lookup_insert_ne in E by done
  end.
  injection H as <-. eauto 20.
Qed.

Lemma swapped_frame (r : gmap string pyval) (cA pA ciA k1 cB pB ciB k2 : pyval) (k : string) :
  k ∉ swapped_keys -> swapped r cA pA ciA k1 cB pB ciB k2 !! k = r !! k.
Proof.
  unfold swapped_keys, swapped. intros Hk.
  rewrite !lookup_insert_ne; [reflexivity | ..]; intros <-; apply Hk; set_solver.
Qed.

Lemma Qeq_bool_sym (p q : Q) : Qeq_bool p q = Qeq_bool q p.
Proof.
  destruct (Qeq_bool p q) eqn:E; symmetry.
  - apply Qeq_bool_iff in E. apply Qeq_bool_iff. now symmetry.
  - destruct (Qeq_bool q p) eqn:E'; [| reflexivity].
    apply Qeq_bool_iff in E'. symmetry in E'. apply Qeq_bool_iff in E'. congruence.
Qed.

Lemma qlist_eqb_sym (l m : list Q) : qlist_eqb l m = qlist_eqb m l.
Proof.
  revert m. induction l as [|x l IH]; intros [|y m]; cbn; try reflexivity.
  now rewrite Qeq_bool_sym, IH.
Qed.

Lemma py_eq_sym (x y : pyval) : py_eq x y = py_eq y x.
Proof.
  unfold py_eq.
  destruct x, y; cbn; try reflexivity;
    auto using Qeq_bool_sym, String.eqb_sym, qlist_eqb_sym.
Qed.

(** Undo the binds of a computation known to return. *)
Ltac bind_inv H :=
  repeat match type of H with
  | mbind _ ?m = Ok _ =>
    let E := fresh "E" in
    destruct m eqn:E; cbn [mbind res_bind] in H; [| discriminate H]
  | context [let '(_, _) := ?p in _] => destruct p
  end.

Section Annotation.

Variable intersecterpy : pyval -> Z -> Z -> bool.
Variable find_overlap : pyval -> Z -> Z -> list (Z * Z).
Variable get_tid : pyval -> Z.
Variable depth_table : Type.
Variable regions_depth : gmap Z depth_table.
Variable calculate_coverage : Z -> Z -> depth_table -> Q.

(** Whatever it decides, the annotation writes only the exchanged fields
    and its own four. *)
Lemma annotation_frame (r out : gmap string pyval) (k : string) :
  get_raw_coverage_information intersecterpy find_overlap get_tid depth_table
    regions_depth calculate_coverage r = Ok out ->
  k ∉ swapped_keys -> k ∉ annotation_keys -> out !! k = r !! k.
Proof.
  unfold get_raw_coverage_information. intros H Hs Ha.
  assert (Hk : k <> "kind" /\ k <> "raw_reads_10kb" /\ k <> "svlen" /\ k <> "su").
  { unfold annotation_keys in Ha. repeat split; intros ->; apply Ha; set_solver. }
  destruct Hk as (? & ? & ? & ?).
  destruct (region_kind intersecterpy find_overlap r) as [[kind switch] |];
    cbn [mbind res_bind] in H; [| discriminate H].
  assert (Hr1 : exists r1, (if switch then swap_labels r else Ok r) = Ok r1 /\ r1 !! k = r !! k).
  { destruct switch.
    - destruct (swap_labels r) as [r1 |] eqn:E; [| discriminate H].
      exists r1. split; [reflexivity |].
      apply swap_labels_Ok in E.
      destruct E as (? & ? & ? & ? & ? & ? & ? & ? & _ & _ & _ & _ & _ & _ & _ & _ & ->).
      now apply swapped_frame.
    - eauto. }
  destruct Hr1 as (r1 & E1 & <-). rewrite E1 in H. cbn [mbind res_bind] in H.
  bind_inv H. injection H as <-.
  split_if; by rewrite !lookup_insert_ne.
Qed.

Lemma depth_num (chrom : pyval) (pos : Z) :
  exists q, py_num (local_depth get_tid depth_table regions_depth calculate_coverage chrom pos)
              = Some q.
Proof. unfold local_depth. destruct (regions_depth !! get_tid chrom); cbn; eauto. Qed.

Lemma py_lt_depth (c1 c2 : pyval) (p1 p2 : Z) :
  exists b,
    py_lt (local_depth get_tid depth_table regions_depth calculate_coverage c1 p1)
          (local_depth get_tid depth_table regions_depth calculate_coverage c2 p2) = Ok b.
Proof.
  destruct (depth_num c1 p1) as [q1 E1], (depth_num c2 p2) as [q2 E2].
  unfold py_lt. rewrite E1, E2. eauto.
Qed.



(** A cross-chromosome call leaves the annotation with the sentinel. *)
Lemma annotation_cross_chromosome (r : gmap string pyval) (cA cB : pyval) :
  annotatable r ->
  r !! "chrA" = Some cA -> r !! "chrB" = Some cB -> py_eq cA cB = false ->
  exists out,
    get_raw_coverage_information intersecterpy find_overlap get_tid depth_table
      regions_depth calculate_coverage r = Ok out /\
    out !! "svlen" = Some (PInt 1000000).
Proof.
  intros ((a & b & HpA & HpB) & Hkeys & (pe & supp & spanning & Hpe & Hsupp & Hspan)) HcA HcB Hne.
  destruct (Hkeys "cipos95A") as [ciA HciA]; [set_solver |].
  destruct (Hkeys "cipos95B") as [ciB HciB]; [set_solver |].
  destruct (Hkeys "contig") as [k1 Hk1]; [set_solver |].
  destruct (Hkeys "contig2") as [k2 Hk2]; [set_solver |].
  assert (Hkind : exists kind switch,
             region_kind intersecterpy find_overlap r = Ok (kind, switch)).
  { unfold region_kind.
    rewrite (getitem_Some _ _ _ HcA), (getint_Some _ _ _ HpA),
      (getitem_Some _ _ _ HcB), (getint_Some _ _ _ HpB).
    cbn [mbind res_bind]. rewrite Hne.
    destruct (intersecterpy cA a (a + 1)), (intersecterpy cB b (b + 1)); cbn; eauto. }
  destruct Hkind as (kind & switch & Hkind).
  unfold get_raw_coverage_information. rewrite Hkind. cbn [mbind res_bind].
  set (r1 := if switch then swapped r cA (PInt a) ciA k1 cB (PInt b) ciB k2 else r).
  assert (E1 : (if switch then swap_labels r else Ok r) = Ok r1).
  { subst r1. destruct switch; [| reflexivity]. now apply swap_labels_Some. }
  assert (Hr1 : exists cA' cB' a' b',
            r1 !! "chrA" = Some cA' /\ r1 !! "chrB" = Some cB' /\ py_eq cA' cB' = false /\
            r1 !! "posA" = Some (PInt a') /\ r1 !! "posB" = Some (PInt b') /\
            r1 !! "pe" = Some (PInt pe) /\ r1 !! "supp" = Some (PInt supp) /\
            r1 !! "spanning" = Some (PInt spanning)).
  { subst r1. destruct switch.
    - exists cB, cA, b, a. unfold swapped. rewrite py_eq_sym.
      repeat split; by simplify_map_eq.
    - exists cA, cB, a, b. repeat split; assumption. }
  destruct Hr1 as (cA' & cB' & a' & b' & HA & HB & Hne' & HpA' & HpB' & Hpe' & Hsupp' & Hspan').
  rewrite E1. cbn [mbind res_bind].
  rewrite (getitem_Some _ _ _ HA), (getint_Some _ _ _ HpA'). cbn [mbind res_bind].
  assert (Hd : exists d,
            (if String.eqb kind "hemi-regional"
             then Ok (local_depth get_tid depth_table regions_depth calculate_coverage cA' a')
             else
               getitem r1 "chrB" ≫= (fun chrB =>
               getint r1 "posB" ≫= (fun posB =>
               py_lt (local_depth get_tid depth_table regions_depth calculate_coverage chrB posB)
                     (local_depth get_tid depth_table regions_depth calculate_coverage cA' a')
               ≫= (fun gt : bool =>
               Ok (if gt
                   then local_depth get_tid depth_table regions_depth calculate_coverage cA' a'
                   else local_depth get_tid depth_table regions_depth calculate_coverage
                          chrB posB))))) = Ok d).
  { destruct (String.eqb kind "hemi-regional"); [eauto |].
    rewrite (getitem_Some _ _ _ HB), (getint_Some _ _ _ HpB'). cbn [mbind res_bind].
    destruct (py_lt_depth cB' cA' b' a') as [g ->]. cbn [mbind res_bind]. eauto. }
  destruct Hd as [d Hd]. rewrite Hd. cbn [mbind res_bind].
  erewrite !getitem_Some by (rewrite !lookup_insert_ne by done; eassumption).
  cbn [mbind res_bind]. rewrite Hne'. cbn [negb].
  erewrite !getint_Some by (rewrite !lookup_insert_ne by done; eassumption).
  cbn [mbind res_bind].
  eexists. split; [reflexivity |]. by simplify_map_eq.
Qed.


End Annotation.


(** C7.  The specification wants the [svlen] of every call to be at least
    0.  On [item_c6] the same-read classifier, in the branch for overlapping
    alignments with A first, answers INS and records the gap
    [b_qstart - a_qend = -10]; [make_call] takes the mean of the recorded
    gaps as [svlen] and returns -10.  With the labels exchanged
    ([item_c6_swapped]) the sibling branch answers DUP, and [make_call]
    returns the distance between the breakpoints, 50. *)
Theorem C7_overlap_gap_gives_negative_svlen :
  let v := classify_d item_c6 in
  let w := classify_d item_c6_swapped in
  svtype v = "INS" /\ join_type v = "5to3" /\ query_gap v = -10 /\
  breakA v = 200 /\ breakB v = 150 /\
  make_call [v] [200] [150] "INS" "5to3" 300 50 = Ok call_c7 /\
  call_c7 !! "svlen" = Some (PInt (-10)) /\
  svtype w = "DUP" /\ join_type w = "5to3" /\
  breakA w = 150 /\ breakB w = 200 /\
  make_call [w] [150] [200] "DUP" "5to3" 300 50 = Ok call_c7_swapped /\
  call_c7_swapped !! "svlen" = Some (PInt 50).
Proof. cbv zeta. conj_vm. Qed.

(** * Further properties *)

(** ** Soft-clip resolver: which clip is kept *)

Lemma mask_soft_clips_flags (aflag bflag : Z) (a_ct b_ct : cigar)
    (a_0 a_1 b_0 b_1 : Z * Z) :
  py_first a_ct = Ok a_0 -> py_last a_ct = Ok a_1 ->
  py_first b_ct = Ok b_0 -> py_last b_ct = Ok b_1 ->
  exists left_clipA right_clipA left_clipB right_clipB : Z,
    mask_soft_clips aflag bflag a_ct b_ct
      = Ok (left_clipA, right_clipA, left_clipB, right_clipB) /\
    (left_clipA = 1 -> clipped a_0 = true) /\ (right_clipA = 1 -> clipped a_1 = true) /\
    (left_clipB = 1 -> clipped b_0 = true) /\ (right_clipB = 1 -> clipped b_1 = true) /\
    left_clipA + right_clipA = of_bool (clipped a_0 || clipped a_1) /\
    left_clipB + right_clipB = of_bool (clipped b_0 || clipped b_1) /\
    (left_clipA = 0 \/ left_clipA = 1) /\ (right_clipA = 0 \/ right_clipA = 1) /\
    (left_clipB = 0 \/ left_clipB = 1) /\ (right_clipB = 0 \/ right_clipB = 1).
Proof.
  intros Ea0 Ea1 Eb0 Eb1.
  unfold mask_soft_clips. rewrite Ea0, Ea1, Eb0, Eb1. cbn [mbind res_bind].
  unfold clipped.
  destruct ((a_0.1 =? 4) || (a_0.1 =? 5)), ((a_1.1 =? 4) || (a_1.1 =? 5)),
           ((b_0.1 =? 4) || (b_0.1 =? 5)), ((b_1.1 =? 4) || (b_1.1 =? 5));
    cbn [truthy Z.eqb negb andb orb of_bool];
    repeat (split_if; cbn [truthy Z.eqb negb andb orb]);
    do 4 eexists; (split; [reflexivity |]); repeat split; intros; lia.
Qed.

(** X4.  [mask_soft_clips] reports no clip the cigar does not have, and drops
    one only from an alignment clipped at both ends: its flags are 0 or 1,
    and when an end of the alignment is clipped exactly one of the two is
    raised. *)
Theorem mask_soft_clips_keeps_one_clip (aflag bflag : Z) (a_ct b_ct : cigar)
    (a_0 a_1 b_0 b_1 : Z * Z) :
  py_first a_ct = Ok a_0 -> py_last a_ct = Ok a_1 ->
  py_first b_ct = Ok b_0 -> py_last b_ct = Ok b_1 ->
  exists left_clipA right_clipA left_clipB right_clipB : Z,
    mask_soft_clips aflag bflag a_ct b_ct
      = Ok (left_clipA, right_clipA, left_clipB, right_clipB) /\
    (left_clipA = 1 -> clipped a_0 = true) /\ (right_clipA = 1 -> clipped a_1 = true) /\
    (left_clipB = 1 -> clipped b_0 = true) /\ (right_clipB = 1 -> clipped b_1 = true) /\
    left_clipA + right_clipA = of_bool (clipped a_0 || clipped a_1) /\
    left_clipB + right_clipB = of_bool (clipped b_0 || clipped b_1) /\
    (left_clipA = 0 \/ left_clipA = 1) /\ (right_clipA = 0 \/ right_clipA = 1) /\
    (left_clipB = 0 \/ left_clipB = 1) /\ (right_clipB = 0 \/ right_clipB = 1).
Proof. apply mask_soft_clips_flags. Qed.

Lemma mask_soft_clips_keeps_one_clip_witness :
  exists left_clipA right_clipA left_clipB right_clipB : Z,
    mask_soft_clips 65 2193 [(4, 20); (0, 60); (4, 30)] [(5, 70); (0, 40)]
      = Ok (left_clipA, right_clipA, left_clipB, right_clipB) /\
    (left_clipA = 1 -> clipped (4, 20) = true) /\ (right_clipA = 1 -> clipped (4, 30) = true) /\
    (left_clipB = 1 -> clipped (5, 70) = true) /\ (right_clipB = 1 -> clipped (0, 40) = true) /\
    left_clipA + right_clipA = of_bool (clipped (4, 20) || clipped (4, 30)) /\
    left_clipB + right_clipB = of_bool (clipped (5, 70) || clipped (0, 40)) /\
    (left_clipA = 0 \/ left_clipA = 1) /\ (right_clipA = 0 \/ right_clipA = 1) /\
    (left_clipB = 0 \/ left_clipB = 1) /\ (right_clipB = 0 \/ right_clipB = 1).
Proof.
  apply (mask_soft_clips_keeps_one_clip 65 2193 [(4, 20); (0, 60); (4, 30)] [(5, 70); (0, 40)]);
    reflexivity.
Defined.

(** ** Classifier: what every classification keeps and writes *)

(** A literal is a member of a literal list. *)
Ltac in_list :=
  cbv [In svtypes join_types]; solve [repeat (first [left; reflexivity | right])].

Ltac classified_leaf :=
  unfold classified, same_alignments; item_simpl;
  split; [repeat split |];
  intros [-> | ->] [-> | ->];
  first [ split; [in_list | vm_compute; in_list]
        | exfalso; cbn in *; congruence ].

Lemma classify_d_classified (v : AlignmentItem) : classified v (classify_d v).
Proof.
  rewrite classify_d_regime. destruct v; item_simpl.
  repeat split_if;
    first [ exec translocation | exec two_primary | exec same_read | exec different_read ];
    classified_leaf.
Qed.

(** X1.  Whatever the pair, the classification leaves the attributes the item
    was built from untouched: it writes only the breakpoints, their
    precision flags, the query gap, the type and the join type. *)
Theorem classify_d_keeps_alignments (v : AlignmentItem) :
  same_alignments v (classify_d v).
Proof. exact (proj1 (classify_d_classified v)). Qed.

(** X2.  With both strands 3 or 5, as the constructors of items encode them,
    every classification ends with one of the seven types and one of the
    four join types: no pair is left without a type. *)
Theorem classify_d_vocabulary (v : AlignmentItem) :
  (strandA v = 3 \/ strandA v = 5) -> (strandB v = 3 \/ strandB v = 5) ->
  In (svtype (classify_d v)) svtypes /\ In (join_type (classify_d v)) join_types.
Proof. exact (proj2 (classify_d_classified v)). Qed.

Lemma classify_d_vocabulary_witness :
  In (svtype (classify_d item_c6)) svtypes /\ In (join_type (classify_d item_c6)) join_types.
Proof.
  apply (classify_d_vocabulary item_c6); [left | left]; reflexivity.
Defined.

(** X3.  A pair on two chromosomes is a translocation whose two breakpoints are
    both flagged precise, whether or not an alignment is clipped; each
    breakpoint is the end of its alignment when only the right end is
    clipped, and the start otherwise. *)
Theorem classify_d_translocation (v : AlignmentItem) :
  chrA v <> chrB v ->
  let v' := classify_d v in
  svtype v' = "TRA" /\
  breakA_precise v' = 1 /\ breakB_precise v' = 1 /\
  breakA v' = (if negb (truthy (left_clipA v)) && truthy (right_clipA v)
               then endA v else posA v) /\
  breakB v' = (if negb (truthy (left_clipB v)) && truthy (right_clipB v)
               then endB v else posB v) /\
  join_type v' = (py_str_int (strandA v) ++ "to" ++ py_str_int (strandB v))%string.
Proof.
  intros Hchr. rewrite classify_d_regime.
  apply Z.eqb_neq in Hchr. rewrite Hchr. cbn [negb].
  destruct v as [chrA chrB priA priB rA rB posA endA posB endB strandA strandB
                 left_clipA right_clipA left_clipB right_clipB
                 breakA_precise breakB_precise breakA breakB
                 a_qstart a_qend b_qstart b_qend query_gap read_overlaps_mate
                 svtype join_type].
  item_simpl. unfold translocation; item_simpl.
  destruct (truthy left_clipA), (truthy right_clipA),
           (truthy left_clipB), (truthy right_clipB); repeat split.
Qed.

Lemma classify_d_translocation_witness :
  let v := new_AlignmentItem 1 2 1 0 1 1 100 200 300 400 3 5 0 0 0 1 0 100 0 100 0 in
  let v' := classify_d v in
  svtype v' = "TRA" /\
  breakA_precise v' = 1 /\ breakB_precise v' = 1 /\
  breakA v' = (if negb (truthy (left_clipA v)) && truthy (right_clipA v)
               then endA v else posA v) /\
  breakB v' = (if negb (truthy (left_clipB v)) && truthy (right_clipB v)
               then endB v else posB v) /\
  join_type v' = (py_str_int (strandA v) ++ "to" ++ py_str_int (strandB v))%string.
Proof.
  apply (classify_d_translocation
           (new_AlignmentItem 1 2 1 0 1 1 100 200 300 400 3 5 0 0 0 1 0 100 0 100 0)).
  discriminate.
Defined.

(** ** Interval sweep: the breakpoint chosen *)

Lemma insert_by_In {A : Type} (leb : A -> A -> bool) (x y : A) (l : list A) :
  In y (insert_by leb x l) <-> y = x \/ In y l.
Proof.
  induction l as [|z l IH]; cbn; [intuition |].
  destruct (leb x z); cbn; [intuition | rewrite IH; intuition].
Qed.

Lemma sorted_by_In {A : Type} (leb : A -> A -> bool) (y : A) (l : list A) :
  In y (sorted_by leb l) <-> In y l.
Proof.
  unfold sorted_by. induction l as [|x l IH]; cbn; [reflexivity |].
  rewrite insert_by_In, IH. intuition.
Qed.

(** The first element of a sorted list is below every element. *)
Lemma sorted_by_head {A : Type} (leb : A -> A -> bool) (l : list A) (h : A) (t : list A) :
  (forall x y, leb x y = true \/ leb y x = true) ->
  (forall x y z, leb x y = true -> leb y z = true -> leb x z = true) ->
  sorted_by leb l = h :: t ->
  forall y, In y l -> leb h y = true.
Proof.
  intros Htot Htrans. unfold sorted_by. revert h t.
  induction l as [|x l IH]; intros h t Hs y Hy; [contradiction |].
  cbn in Hs. destruct (foldr (insert_by leb) [] l) as [|h' t'] eqn:Es.
  - cbn in Hs. injection Hs as <- <-.
    assert (l = []) as ->.
    { destruct l as [|z l']; [reflexivity |]. exfalso.
      pose proof (sorted_by_length leb (z :: l')) as Hl. unfold sorted_by in Hl.
      rewrite Es in Hl. discriminate Hl. }
    destruct Hy as [<- | []]. destruct (Htot x x); assumption.
  - cbn in Hs. destruct (leb x h') eqn:Exh.
    + injection Hs as <- <-. destruct Hy as [<- | Hy].
      * destruct (Htot x x); assumption.
      * apply Htrans with h'; [assumption |]. apply (IH h' t' eq_refl y Hy).
    + injection Hs as <- <-. destruct Hy as [<- | Hy].
      * destruct (Htot h' x) as [H | H]; [assumption | congruence].
      * apply (IH h' t' eq_refl y Hy).
Qed.

Ltac op_leb_prop :=
  unfold op_leb in *;
  repeat match goal with
  | x : (Z * Z * Z)%type |- _ => destruct x as [[? ?] ?]
  end;
  rewrite ?orb_true_iff, ?andb_true_iff, ?Z.ltb_lt, ?Z.eqb_eq, ?Z.leb_le in *.

Lemma op_leb_total (x y : Z * Z * Z) : op_leb x y = true \/ op_leb y x = true.
Proof. op_leb_prop. lia. Qed.

Lemma op_leb_trans (x y z : Z * Z * Z) :
  op_leb x y = true -> op_leb y z = true -> op_leb x z = true.
Proof. op_leb_prop. lia. Qed.

(** The event kept by the scan is the first one, or one that raises the
    running sum. *)
Lemma sweep_event (ops : list (Z * Z * Z)) :
  forall (idx : nat) (cum_sum max_sum : Z) (max_sum_i : nat),
  cum_sum <= max_sum ->
  let i := (sweep ops idx (cum_sum, max_sum, max_sum_i)).2 in
  i = max_sum_i \/
  exists e, ops !! (i - idx)%nat = Some e /\ 0 < e.1.2 /\ (idx <= i)%nat.
Proof.
  induction ops as [|item ops IH]; intros idx c m i0 Hcm; cbn; [now left |].
  destruct (c + item.1.2 >? m) eqn:Hgt.
  - apply Z.gtb_lt in Hgt.
    destruct (IH (S idx) (c + item.1.2) (c + item.1.2) idx ltac:(lia)) as [-> | (e & He & Hd & Hi)].
    + right. exists item. rewrite Nat.sub_diag. cbn. split; [reflexivity |]. split; lia.
    + right. exists e. split; [| split; [exact Hd | lia]].
      replace (_ - idx)%nat with (S ((sweep ops (S idx) (c + item.1.2, c + item.1.2, idx)).2 - S idx))
        by lia.
      exact He.
  - assert (c + item.1.2 <= m) by (destruct (Z.gtb_spec (c + item.1.2) m); [discriminate | lia]).
    destruct (IH (S idx) (c + item.1.2) m i0 ltac:(lia)) as [-> | (e & He & Hd & Hi)];
      [now left |].
    right. exists e. split; [| split; [exact Hd | lia]].
    replace (_ - idx)%nat with (S ((sweep ops (S idx) (c + item.1.2, m, i0)).2 - S idx)) by lia.
    exact He.
Qed.

(** An event that opens an interval sits on an observed coordinate, and a
    precise one on a precise coordinate. *)
Lemma sweep_events_opening (positions precise : list Z) (limit : Z) (e : Z * Z * Z) :
  In e (sweep_events positions precise limit) -> 0 < e.1.2 ->
  In e.1.1 (positions ++ precise) /\ (e.2 = 0 \/ e.2 = 1) /\ (e.2 = 1 -> In e.1.1 precise).
Proof.
  unfold sweep_events. rewrite in_app_iff, !in_flat_map.
  intros [(p & Hp & He) | (q & Hq & He)] Hd.
  - cbn in He. destruct He as [<- | [<- | []]]; cbn in *; [| lia].
    rewrite in_app_iff. split; [now left |]. split; [now left | discriminate].
  - cbn in He. destruct He as [<- | [He | []]]; cbn in *.
    + rewrite in_app_iff. split; [now right |]. split; [now right | trivial].
    + destruct (limit <? 0); cbn in He; subst e; cbn in Hd; lia.
Qed.

(** The first event in the order of the scan sits on an observed
    coordinate as well, as long as no interval ends beyond the range of a
    C int. *)
Lemma sweep_events_first (positions precise : list Z) (limit : Z) (h : Z * Z * Z)
    (t : list (Z * Z * Z)) :
  Forall (fun i => int32 i /\ int32 (i + limit)) positions ->
  Forall (fun i => int32 i /\ int32 (i + 1)) precise ->
  (if limit <? 0 then sorted_by (fun x y => op_leb y x) (sweep_events positions precise limit)
   else sorted_by op_leb (sweep_events positions precise limit)) = h :: t ->
  In h.1.1 (positions ++ precise) /\ (h.2 = 0 \/ h.2 = 1) /\ (h.2 = 1 -> In h.1.1 precise).
Proof.
  intros Hpos Hpre Hs.
  rewrite List.Forall_forall in Hpos, Hpre.
  assert (Hin : In h (sweep_events positions precise limit)).
  { destruct (limit <? 0);
      [apply (sorted_by_In (fun x y => op_leb y x)) | apply (sorted_by_In op_leb)];
      rewrite Hs; now left. }
  assert (Hmin : forall y, In y (sweep_events positions precise limit) ->
            if limit <? 0 then op_leb y h = true else op_leb h y = true).
  { destruct (limit <? 0).
    - apply (sorted_by_head (fun x y => op_leb y x) _ h t); [| | exact Hs].
      + intros x y. destruct (op_leb_total x y); auto.
      + intros x y z H1 H2. exact (op_leb_trans z y x H2 H1).
    - apply (sorted_by_head op_leb _ h t);
        [apply op_leb_total | apply op_leb_trans | exact Hs]. }
  destruct (Z_lt_le_dec 0 h.1.2) as [Hd | Hd];
    [exact (sweep_events_opening positions precise limit h Hin Hd) |].
  revert Hin Hmin Hd. unfold sweep_events. rewrite in_app_iff, !in_flat_map.
  intros [(p & Hp & He) | (q & Hq & He)] Hmin Hd.
  - destruct (Hpos p Hp) as [_ Hr]. rewrite (wrap32_small _ Hr) in He.
    cbn in He. destruct He as [<- | [<- | []]]; cbn in *; [lia |].
    specialize (Hmin (p, 1, 0)).
    rewrite in_app_iff, in_flat_map in Hmin.
    specialize (Hmin (or_introl (ex_intro _ p (conj Hp (or_introl eq_refl))))).
    rewrite in_app_iff. split; [| split; [now left | discriminate]].
    left. destruct (limit <? 0) eqn:Hl; op_leb_prop;
      [apply Z.ltb_lt in Hl | apply Z.ltb_ge in Hl];
      (replace (p + limit) with p by lia); exact Hp.
  - destruct (Hpre q Hq) as [Hr0 Hr1].
    cbn in He. destruct He as [<- | [He | []]]; cbn in *; [lia |].
    specialize (Hmin (q, 1, 1)).
    rewrite in_app_iff, !in_flat_map in Hmin.
    specialize (Hmin (or_intror (ex_intro _ q (conj Hq (or_introl eq_refl))))).
    destruct (limit <? 0) eqn:Hl; cbn in He; subst h; cbn in *.
    + rewrite (wrap32_pred_succ _ Hr0).
      rewrite in_app_iff. split; [now right |]. split; [now right | trivial].
    + exfalso. rewrite (wrap32_small _ Hr1) in Hmin. op_leb_prop. lia.
Qed.

(** The event [break_ops] reads its result from. *)
Lemma break_ops_event (positions precise : list Z) (limit : Z) :
  positions <> [] ->
  Forall (fun i => int32 i /\ int32 (i + limit)) positions ->
  Forall (fun i => int32 i /\ int32 (i + 1)) precise ->
  let ops := if limit <? 0
             then sorted_by (fun x y => op_leb y x) (sweep_events positions precise limit)
             else sorted_by op_leb (sweep_events positions precise limit) in
  exists e, ops !! (sweep ops 0%nat (0, 0, 0%nat)).2 = Some e /\
    In e.1.1 (positions ++ precise) /\ (e.2 = 0 \/ e.2 = 1) /\ (e.2 = 1 -> In e.1.1 precise).
Proof.
  intros Hne Hpos Hpre ops.
  assert (Hops : ops <> []).
  { subst ops. unfold sweep_events.
    destruct (limit <? 0); apply break_ops_events_nonempty; assumption. }
  destruct (sweep_event ops 0%nat 0 0 0%nat ltac:(lia)) as [Hi | (e & He & Hd & _)].
  - cbv zeta in Hi. rewrite Hi.
    destruct ops as [|h t] eqn:Eo; [congruence |].
    exists h. split; [reflexivity |].
    apply (sweep_events_first positions precise limit h t Hpos Hpre). exact Eo.
  - cbv zeta in He. rewrite Nat.sub_0_r in He. exists e. split; [exact He |].
    apply (sweep_events_opening positions precise limit); [| exact Hd].
    apply list_elem_of_lookup_2 in He. apply list_elem_of_In in He.
    subst ops. destruct (limit <? 0);
      [apply (proj1 (sorted_by_In (fun x y => op_leb y x) _ _)) in He
      | apply (proj1 (sorted_by_In op_leb _ _)) in He];
      exact He.
Qed.

(** X5.  Take positions that are C ints, with search intervals [i + limit] and
    precise intervals [i + 1] that end within the range of a C int, so
    that no sum of the sweep wraps.  Then the breakpoint of the sweep is
    one of the coordinates handed in, a position or a precise position:
    the sweep never reports the far end of a search interval. *)
Theorem break_ops_breakpoint_is_observed (positions precise : list Z) (limit : Z)
    (median_pos : Q) :
  positions <> [] ->
  Forall (fun i => int32 i /\ int32 (i + limit)) positions ->
  Forall (fun i => int32 i /\ int32 (i + 1)) precise ->
  exists break_point cipos95 is_precise,
    break_ops positions precise limit median_pos = Ok (break_point, cipos95, is_precise) /\
    In break_point (positions ++ precise).
Proof.
  intros Hne Hpos Hpre.
  destruct (break_ops_event positions precise limit Hne Hpos Hpre) as (e & He & Hin & _).
  destruct (np_percentile_nonempty positions Hne) as [pct Hpct].
  unfold break_ops. cbv zeta. fold (sweep_events positions precise limit).
  cbv zeta in He.
  destruct (sweep _ 0%nat (0, 0, 0%nat)) as [[c m] i]. cbn in He. rewrite He.
  destruct e as [[bp d] pr]. rewrite Hpct. cbn in Hin.
  split_if; cbn [mbind res_bind]; do 3 eexists; (split; [reflexivity | exact Hin]).
Qed.

Lemma break_ops_breakpoint_is_observed_witness :
  exists break_point cipos95 is_precise,
    break_ops [100; 104; 130] [104; 104] 350 (np_median [100; 104; 130])
      = Ok (break_point, cipos95, is_precise) /\
    In break_point ([100; 104; 130] ++ [104; 104]).
Proof.
  apply (break_ops_breakpoint_is_observed [100; 104; 130] [104; 104] 350
           (np_median [100; 104; 130])).
  - discriminate.
  - repeat constructor; unfold int32; lia.
  - repeat constructor; unfold int32; lia.
Defined.

(** X6.  Under the same condition on the range, the precision flag of the
    sweep is 0 or 1, and it is 1 exactly when the breakpoint coincides with
    one of the precise positions. *)
Theorem break_ops_precise_iff (positions precise : list Z) (limit : Z) (median_pos : Q) :
  positions <> [] ->
  Forall (fun i => int32 i /\ int32 (i + limit)) positions ->
  Forall (fun i => int32 i /\ int32 (i + 1)) precise ->
  exists break_point cipos95 is_precise,
    break_ops positions precise limit median_pos = Ok (break_point, cipos95, is_precise) /\
    (is_precise = 0 \/ is_precise = 1) /\
    (is_precise = 1 <-> In break_point precise).
Proof.
  intros Hne Hpos Hpre.
  destruct (break_ops_event positions precise limit Hne Hpos Hpre)
    as (e & He & _ & H01 & Hpr).
  destruct (np_percentile_nonempty positions Hne) as [pct Hpct].
  unfold break_ops. cbv zeta. fold (sweep_events positions precise limit).
  cbv zeta in He.
  destruct (sweep _ 0%nat (0, 0, 0%nat)) as [[c m] i]. cbn in He. rewrite He.
  destruct e as [[bp d] pr]. rewrite Hpct. cbn in H01, Hpr.
  assert (Hex : existsb (fun i => i =? bp) precise = true <-> In bp precise).
  { rewrite existsb_exists. split.
    - intros (x & Hx & Heq). apply Z.eqb_eq in Heq. now subst.
    - intros Hx. exists bp. split; [exact Hx | apply Z.eqb_refl]. }
  set (pr' := if negb (truthy pr) then _ else _).
  assert (Hpr' : (pr' = 0 \/ pr' = 1) /\ (pr' = 1 <-> In bp precise)).
  { subst pr'. destruct H01 as [-> | ->]; cbn.
    - destruct (existsb (fun i => i =? bp) precise) eqn:Ee.
      + split; [now right |]. split; [intros _; now apply Hex | reflexivity].
      + split; [now left |]. split; [discriminate |].
        intros Hx. apply Hex in Hx. discriminate Hx.
    - split; [now right |]. split; [intros _; now apply Hpr | reflexivity]. }
  split_if; cbn [mbind res_bind]; do 3 eexists; (split; [reflexivity | exact Hpr']).
Qed.

Lemma break_ops_precise_iff_witness :
  exists break_point cipos95 is_precise,
    break_ops [100; 104; 130] [104; 104] 350 (np_median [100; 104; 130])
      = Ok (break_point, cipos95, is_precise) /\
    (is_precise = 0 \/ is_precise = 1) /\
    (is_precise = 1 <-> In break_point [104; 104]).
Proof.
  apply (break_ops_precise_iff [100; 104; 130] [104; 104] 350 (np_median [100; 104; 130])).
  - discriminate.
  - repeat constructor; unfold int32; lia.
  - repeat constructor; unfold int32; lia.
Defined.

(** ** Consensus: unmapped insertions and the returned call *)

(** X7.  For an insertion without a recorded gap, with breakpoints that are
    not negative and below the largest C int: when both sides are precise
    nothing moves and the length is 0; as soon as a side is imprecise the
    two breakpoints returned are adjacent.  The intervals and the flags
    are handed back as they came. *)
Theorem infer_unmapped_insertion_adjacent
    (main_A_break cipos95A preciseA main_B_break cipos95B preciseB : Z) :
  0 <= main_A_break < 2147483647 ->
  0 <= main_B_break < 2147483647 ->
  exists a b svlen,
    infer_unmapped_insertion_break_point
      main_A_break cipos95A preciseA main_B_break cipos95B preciseB
      = (a, cipos95A, preciseA, b, cipos95B, preciseB, svlen) /\
    (if truthy preciseA && truthy preciseB
     then a = main_A_break /\ b = main_B_break /\ svlen = 0
     else Z.abs (b - a) = 1).
Proof.
  intros HA HB.
  assert (Hmid : 0 <= py_int (inject_Z (Z.abs (main_B_break - main_A_break)) / 2)
                  <= Z.abs (main_B_break - main_A_break)).
  { unfold py_int. cbn. rewrite Z.mul_1_r.
    split; [apply Z.quot_pos; lia |].
    apply Z.quot_le_upper_bound; lia. }
  unfold infer_unmapped_insertion_break_point, c_abs.
  destruct (truthy preciseA), (truthy preciseB); cbn [negb andb]; cbv beta iota zeta;
    rewrite ?(wrap32_small (main_B_break - main_A_break)) by (unfold int32; lia);
    rewrite ?(wrap32_small (Z.abs (main_B_break - main_A_break))) by (unfold int32; lia);
    repeat split_if; rewrite ?wrap32_small by (unfold int32; lia);
    do 3 eexists; (split; [reflexivity |]); bool_hyps; lia.
Qed.

Lemma infer_unmapped_insertion_adjacent_witness :
  exists a b svlen,
    infer_unmapped_insertion_break_point 100 40 0 180 10 1
      = (a, 40, 0, b, 10, 1, svlen) /\
    (if truthy 0 && truthy 1
     then a = 100 /\ b = 180 /\ svlen = 0
     else Z.abs (b - a) = 1).
Proof.
  apply (infer_unmapped_insertion_adjacent 100 40 0 180 10 1); lia.
Defined.

Lemma make_call_returns (informative_0 : AlignmentItem) (rest : list AlignmentItem)
    (breakA_precise breakB_precise : list Z) (svtype jointype : string)
    (insert_size insert_stdev : Z) :
  exists call,
    make_call (informative_0 :: rest) breakA_precise breakB_precise svtype jointype
      insert_size insert_stdev = Ok call /\
    dom call = call_keys /\
    call !! "svtype" = Some (PStr svtype) /\
    call !! "join_type" = Some (PStr jointype) /\
    call !! "chrA" = Some (PInt (chrA informative_0)) /\
    call !! "chrB" = Some (PInt (chrB informative_0)).
Proof.
  destruct (make_call_sides_total (map breakA (informative_0 :: rest))
              (map breakB (informative_0 :: rest))
              breakA_precise breakB_precise svtype jointype
              (wrap32 (insert_size + insert_stdev))
              (float32 (np_median (map breakA (informative_0 :: rest))))
              (float32 (np_median (map breakB (informative_0 :: rest)))))
    as (a & ca & pa & b & cb & pb & Hs & Hca & Hcb); [discriminate | discriminate |].
  unfold make_call. cbv zeta. rewrite Hs. cbn [mbind res_bind].
  destruct (make_call_svlen (informative_0 :: rest) informative_0 svtype (a, ca, pa, b, cb, pb))
    as [[[[[[a' ca'] pa'] b'] cb'] pb'] svlen] eqn:Hv.
  eexists. split; [reflexivity |].
  split; [| repeat split; by simplify_map_eq].
  rewrite !dom_insert_L, dom_empty_L. unfold call_keys. cbn [list_to_set foldr].
  set_solver.
Qed.

(** X8.  On a non-empty list of hypotheses [make_call] returns; the call has
    the eleven fields and no other, with the type and the join type it was
    asked for and the chromosomes of the first hypothesis. *)
Theorem make_call_fields (informative_0 : AlignmentItem) (rest : list AlignmentItem)
    (breakA_precise breakB_precise : list Z) (svtype jointype : string)
    (insert_size insert_stdev : Z) :
  exists call,
    make_call (informative_0 :: rest) breakA_precise breakB_precise svtype jointype
      insert_size insert_stdev = Ok call /\
    dom call = call_keys /\
    call !! "svtype" = Some (PStr svtype) /\
    call !! "join_type" = Some (PStr jointype) /\
    call !! "chrA" = Some (PInt (chrA informative_0)) /\
    call !! "chrB" = Some (PInt (chrB informative_0)).
Proof.
  apply make_call_returns.
Qed.

(** ** Basic aggregator: when it returns and what it counts *)

Lemma normal_attrs_loops (reads1 reads2 spanning : list AlignedSegment)
    (min_support : Z) (svtype : pyval) :
  normal_attrs reads1 reads2 spanning min_support svtype =
    (st ← for_reads (normal_reads_step (py_eq svtype (PStr "INS"))) (reads1 ++ reads2)%list
            (normal_init (Z.of_nat (length spanning)), ∅, ∅);
     st ← for_reads normal_spanning_step spanning st;
     reduce_attrs ["MAPQpri"; "MAPQsupp"; "n_sa"] st.1.1).
Proof. reflexivity. Qed.

(** *** Kinds and counters *)

Lemma normal_init_shaped (n : Z) : well_shaped (normal_init n).
Proof. unfold well_shaped, normal_shape, normal_init. rewrite !fmap_insert. reflexivity. Qed.

Lemma well_shaped_list (r : gmap string pyval) (k : string) :
  well_shaped r -> normal_shape !! k = Some KList -> exists l, r !! k = Some (PList l).
Proof.
  intros H Hk. rewrite <- H, lookup_fmap in Hk.
  destruct (r !! k) as [[]|]; try discriminate Hk. eauto.
Qed.

Lemma well_shaped_int (r : gmap string pyval) (k : string) :
  well_shaped r -> normal_shape !! k = Some KInt -> exists z, r !! k = Some (PInt z).
Proof.
  intros H Hk. rewrite <- H, lookup_fmap in Hk.
  destruct (r !! k) as [[]|]; try discriminate Hk. eauto.
Qed.

Lemma well_shaped_insert (r : gmap string pyval) (k : string) (v : pyval) :
  well_shaped r -> normal_shape !! k = Some (kind_of v) -> well_shaped (<[k := v]> r).
Proof.
  unfold well_shaped. intros H Hk. rewrite fmap_insert, H. now apply insert_id.
Qed.

Lemma counter_insert_list (r : gmap string pyval) (k k' : string) (l l' : list Q) :
  r !! k = Some (PList l) -> counter (<[k := PList l']> r) k' = counter r k'.
Proof.
  intros Hk. unfold counter. destruct (decide (k = k')) as [<- | Hne].
  - now rewrite lookup_insert_eq, Hk.
  - now rewrite lookup_insert_ne.
Qed.

Lemma counter_insert_int (r : gmap string pyval) (k k' : string) (z n : Z) :
  r !! k = Some (PInt z) ->
  counter (<[k := PInt (z + n)]> r) k' = counter r k' + (if String.eqb k' k then n else 0).
Proof.
  intros Hk. unfold counter. destruct (String.eqb_spec k' k) as [-> | Hne].
  - now rewrite lookup_insert_eq, Hk.
  - rewrite lookup_insert_ne by congruence. lia.
Qed.

Lemma delta_app (d1 d2 : list (string * Z)) (k : string) :
  delta (d1 ++ d2) k = delta d1 k + delta d2 k.
Proof.
  unfold delta. induction d1 as [|[k' n] d1 IH]; cbn; [reflexivity |].
  rewrite IH. lia.
Qed.

Lemma bumped_refl (r : gmap string pyval) : well_shaped r -> bumped [] r r.
Proof. intros H. split; [exact H |]. intros k. cbn. lia. Qed.

Lemma bumped_zero (d : list (string * Z)) (r0 r : gmap string pyval) (k : string) :
  bumped d r0 r -> bumped (d ++ [(k, 0)]) r0 r.
Proof.
  intros [Hw Hc]. split; [exact Hw |]. intros k'. rewrite Hc, delta_app. cbn.
  destruct (String.eqb k' k); lia.
Qed.

(** *** Hoare-style steps *)

Lemma post_bind {A B : Type} (m : res A) (f : A -> res B) (Q1 : A -> Prop) (Q : B -> Prop) :
  post m Q1 -> (forall a, Q1 a -> post (f a) Q) -> post (m ≫= f) Q.
Proof. destruct m; cbn; [auto | contradiction]. Qed.

Lemma post_weaken {A : Type} (m : res A) (Q1 Q : A -> Prop) :
  post m Q1 -> (forall a, Q1 a -> Q a) -> post m Q.
Proof. destruct m; cbn; [auto | contradiction]. Qed.

Lemma post_Ok {A : Type} (m : res A) (Q : A -> Prop) :
  post m Q -> exists a, m = Ok a /\ Q a.
Proof. destruct m; cbn; [eauto | contradiction]. Qed.

Lemma acc_append (d : list (string * Z)) (r0 r : gmap string pyval) (k : string) (x : Q) :
  bumped d r0 r -> normal_shape !! k = Some KList ->
  post (append r k x) (bumped d r0).
Proof.
  intros [Hw Hc] Hk. destruct (well_shaped_list r k Hw Hk) as [l Hl].
  unfold append, getitem. rewrite Hl. cbn. split.
  - apply well_shaped_insert; assumption.
  - intros k'. rewrite (counter_insert_list r k k' l) by exact Hl. apply Hc.
Qed.

Lemma acc_iadd (d : list (string * Z)) (r0 r : gmap string pyval) (k : string) (n : Z) :
  bumped d r0 r -> normal_shape !! k = Some KInt ->
  post (iadd r k n) (bumped (d ++ [(k, n)]) r0).
Proof.
  intros [Hw Hc] Hk. destruct (well_shaped_int r k Hw Hk) as [z Hz].
  unfold iadd, getint, getitem. rewrite Hz. cbn. split.
  - apply well_shaped_insert; assumption.
  - intros k'. rewrite (counter_insert_int r k k' z n) by exact Hz.
    rewrite Hc, delta_app. cbn. lia.
Qed.

(** Run the statement whose effect is [L]: its result is named, and the
    computation goes on from it. *)
Tactic Notation "fwd" constr(L) "as" ident(r') ident(H') :=
  let E := fresh "E" in
  destruct (post_Ok _ _ L) as (r' & E & H'); rewrite E; clear E; cbn [mbind res_bind].

Lemma acc_append_tag (d : list (string * Z)) (r0 r : gmap string pyval) (k : string)
    (t : option Q) :
  bumped d r0 r -> normal_shape !! k = Some KList ->
  post (append_tag r k t) (bumped d r0).
Proof.
  intros Hb Hk. destruct t; cbn; [now apply acc_append | exact Hb].
Qed.

Lemma acc_append_n_sa (d : list (string * Z)) (r0 r : gmap string pyval) (a : AlignedSegment) :
  bumped d r0 r -> post (append_n_sa r a) (bumped d r0).
Proof.
  intros Hb. unfold append_n_sa.
  destruct (tag_SA a); [now apply acc_append | exact Hb].
Qed.

Lemma acc_append_n_gaps (d : list (string * Z)) (r0 r : gmap string pyval)
    (n_small_gaps a_bases : Q) :
  bumped d r0 r -> Qeq_bool a_bases 0 = false ->
  post (append_n_gaps r n_small_gaps a_bases) (bumped d r0).
Proof.
  intros Hb Ha. unfold append_n_gaps, fdiv. rewrite Ha.
  destruct (well_shaped_list r "n_gaps" (proj1 Hb) eq_refl) as [l Hl].
  rewrite (getitem_Some _ _ _ Hl). cbn [mbind res_bind]. now apply acc_append.
Qed.

Lemma acc_append_NMpri (d : list (string * Z)) (r0 r : gmap string pyval)
    (a : AlignedSegment) (a_bases large_gaps : Q) :
  bumped d r0 r -> post (append_NMpri r a a_bases large_gaps) (bumped d r0).
Proof.
  intros Hb. unfold append_NMpri. destruct (tag_NM a) as [nm |]; [| exact Hb].
  destruct (negb (Qeq_bool a_bases 0)); [| now apply acc_append].
  fwd (acc_append d r0 r "NMpri" (nm / a_bases)%Q Hb eq_refl) as r1 Hb0.
  now apply acc_append.
Qed.

Lemma acc_append_NMsupp (d : list (string * Z)) (r0 r : gmap string pyval)
    (a : AlignedSegment) (a_bases : Q) :
  bumped d r0 r -> post (append_NMsupp r a a_bases) (bumped d r0).
Proof.
  intros Hb. unfold append_NMsupp. destruct (tag_NM a); [| exact Hb].
  destruct (negb (Qeq_bool a_bases 0)); now apply acc_append.
Qed.

Lemma acc_count_strand (d : list (string * Z)) (r0 r : gmap string pyval) (flag : Z) :
  bumped d r0 r ->
  post (count_strand r flag)
    (bumped (d ++ [(if truthy (Z.land flag 16) then "minus" else "plus", 1)]) r0).
Proof.
  intros Hb. unfold count_strand. destruct (truthy (Z.land flag 16)); now apply acc_iadd.
Qed.

Lemma acc_count_NP (d : list (string * Z)) (r0 r : gmap string pyval) (flag : Z) :
  bumped d r0 r ->
  post (if truthy (Z.land flag 2) then iadd r "NP" 1 else Ok r)
    (bumped (d ++ [("NP", of_bool (truthy (Z.land flag 2)))]) r0).
Proof.
  intros Hb. destruct (truthy (Z.land flag 2)); [now apply acc_iadd |].
  cbn. now apply bumped_zero.
Qed.

Lemma acc_count_soft_clip (d : list (string * Z)) (r0 r : gmap string pyval)
    (a : AlignedSegment) :
  bumped d r0 r -> cigartuples a <> [] ->
  post (count_soft_clip r a) (bumped (d ++ [("sc", of_bool (soft_clipped a))]) r0).
Proof.
  intros Hb Hne. unfold count_soft_clip, soft_clipped, py_first, py_last.
  destruct (cigartuples a) as [|c_0 ct] eqn:Ect; [congruence |].
  destruct (List.rev (c_0 :: ct)) as [|c_1 rt] eqn:Er.
  { apply (f_equal (@length _)) in Er. rewrite length_rev in Er. discriminate Er. }
  cbn [mbind res_bind].
  destruct (c_0.1 =? 4); cbn [orb of_bool].
  - now apply acc_iadd.
  - destruct (c_1.1 =? 4); cbn [of_bool]; [now apply acc_iadd | cbn; now apply bumped_zero].
Qed.

Lemma acc_supplementary_block (d : list (string * Z)) (r0 r : gmap string pyval)
    (w : Z) (a : AlignedSegment) (a_bases : Q) :
  bumped d r0 r ->
  post (supplementary_block false w r a a_bases) (bumped (d ++ [("supp", w)]) r0).
Proof.
  intros Hb. unfold supplementary_block.
  fwd (acc_iadd d r0 r "supp" w Hb eq_refl) as r1 Hb0.
  fwd (acc_append _ r0 r1 "MAPQsupp" (inject_Z (mapq a)) Hb0 eq_refl) as r2 Hb1.
  fwd (acc_append_NMsupp _ r0 r2 a a_bases Hb1) as r3 Hb2.
  now apply acc_append_tag.
Qed.

Lemma acc_primary_block (d : list (string * Z)) (r0 r : gmap string pyval)
    (is_insertion : bool) (paired_end seen : gset string)
    (a : AlignedSegment) (a_bases large_gaps : Q) :
  bumped d r0 r ->
  exists x, 0 <= x <= 1 /\
    post (primary_block false is_insertion (r, paired_end, seen) a a_bases large_gaps)
      (fun st => bumped (d ++ [("pe", x)]) r0 st.1.1).
Proof.
  intros Hb. unfold primary_block.
  fwd (acc_append d r0 r "MAPQpri" (inject_Z (mapq a)) Hb eq_refl) as r1 Hb0.
  destruct (bool_decide (qname a ∈ paired_end)) eqn:Epe.
  - exists 1. split; [lia |].
    fwd (acc_iadd d r0 r1 "pe" 1 Hb0 eq_refl) as r2 Hb1.
    cbn [mbind res_bind truthy Z.eqb negb andb].
    fwd (acc_append_NMpri _ r0 r2 a a_bases large_gaps Hb1) as r3 Hb2.
    exact Hb2.
  - cbn [mbind res_bind truthy Z.eqb negb andb].
    set (c := (bool_decide (is_Some (tag_SA a)) && truthy (Z.land (flag a) 2))
              || truthy (Z.land (flag a) 8)).
    exists (of_bool (is_insertion && c)). split; [destruct (is_insertion && c); cbn; lia |].
    destruct is_insertion; cbn [andb].
    + destruct c; cbn [of_bool].
      * fwd (acc_iadd d r0 r1 "pe" 1 Hb0 eq_refl) as r2 Hb1.
        fwd (acc_append_NMpri _ r0 r2 a a_bases large_gaps Hb1) as r3 Hb2.
        exact Hb2.
      * cbn [mbind res_bind].
        fwd (acc_append_NMpri _ r0 r1 a a_bases large_gaps (bumped_zero _ _ _ "pe" Hb0)) as r2 Hb1.
        exact Hb1.
    + cbn [mbind res_bind of_bool].
      fwd (acc_append_NMpri _ r0 r1 a a_bases large_gaps (bumped_zero _ _ _ "pe" Hb0)) as r2 Hb1.
      exact Hb1.
Qed.

Lemma acc_spanning_primary_block (d : list (string * Z)) (r0 r : gmap string pyval)
    (paired_end seen : gset string) (a : AlignedSegment) (a_bases large_gaps : Q) :
  bumped d r0 r ->
  exists x, 0 <= x <= 2 /\
    post (spanning_primary_block false (r, paired_end, seen) a a_bases large_gaps)
      (fun st => bumped (d ++ [("pe", x)]) r0 st.1.1).
Proof.
  intros Hb. unfold spanning_primary_block.
  fwd (acc_append d r0 r "MAPQpri" (inject_Z (mapq a)) Hb eq_refl) as r1 Hb0.
  destruct (bool_decide (qname a ∈ paired_end)) eqn:Epe.
  - exists 2. split; [lia |].
    fwd (acc_iadd d r0 r1 "pe" 2 Hb0 eq_refl) as r2 Hb1.
    fwd (acc_append_NMpri _ r0 r2 a a_bases large_gaps Hb1) as r3 Hb2.
    exact Hb2.
  - exists 0. split; [lia |]. cbn [mbind res_bind].
    fwd (acc_append_NMpri _ r0 r1 a a_bases large_gaps (bumped_zero _ _ _ "pe" Hb0)) as r2 Hb1.
    exact Hb1.
Qed.

(** *** The two loops *)

Lemma has_aligned_bases_cigar (a : AlignedSegment) :
  has_aligned_bases a = true ->
  cigartuples a <> [] /\ Qeq_bool (n_aligned_bases (cigartuples a)).1.1 0 = false.
Proof.
  unfold has_aligned_bases. intros H. apply negb_true_iff in H. split; [| exact H].
  intros E. rewrite E in H. discriminate H.
Qed.

Lemma land_256_2304 (f : Z) : truthy (Z.land f 256) = true -> truthy (Z.land f 2304) = true.
Proof.
  unfold truthy. rewrite !negb_true_iff, !Z.eqb_neq. intros H E. apply H.
  change 256 with (Z.land 2304 256). rewrite Z.land_assoc, E. reflexivity.
Qed.

(** The counters read off a [bumped] state. *)
Ltac counted_of Hb :=
  let Hw := fresh "Hw" in
  let Hc := fresh "Hc" in
  destruct Hb as [Hw Hc]; unfold counted;
  split; [exact Hw |]; rewrite !Hc; unfold delta; cbn; lia.

Lemma normal_reads_step_counted (ins : bool) (r : gmap string pyval)
    (paired_end seen : gset string) (a : AlignedSegment) :
  well_shaped r -> has_aligned_bases a = true ->
  post (normal_reads_step ins (r, paired_end, seen) a)
    (fun st => counted r st.1.1
       (of_bool (negb (truthy (Z.land (flag a) 16)))) (of_bool (truthy (Z.land (flag a) 16)))
       (1 * of_bool (truthy (Z.land (flag a) 2304))) (of_bool (soft_clipped a))
       (of_bool (truthy (Z.land (flag a) 2))) 1).
Proof.
  intros Hw Ha. apply has_aligned_bases_cigar in Ha. destruct Ha as [Hne Ha].
  pose proof (bumped_refl r Hw) as Hb.
  unfold normal_reads_step.
  fwd (acc_append_n_sa [] r r a Hb) as r1 Hb0.
  destruct (n_aligned_bases (cigartuples a)) as [[a_bases large_gaps] n_small_gaps].
  cbn [fst] in Ha.
  fwd (acc_append_n_gaps _ r r1 n_small_gaps a_bases Hb0 Ha) as r2 Hb1.
  fwd (acc_count_NP _ r r2 (flag a) Hb1) as r3 Hb2.
  destruct (truthy (Z.land (flag a) 2304)).
  - fwd (acc_supplementary_block _ r r3 1 a a_bases Hb2) as r4 Hb3.
    fwd (acc_count_strand _ r r4 (flag a) Hb3) as r5 Hb4.
    fwd (acc_count_soft_clip _ r r5 a Hb4 Hne) as r6 Hb5.
    cbn. destruct (truthy (Z.land (flag a) 16)); counted_of Hb5.
  - destruct (acc_primary_block _ r r3 ins paired_end seen a a_bases large_gaps Hb2)
      as (x & Hx & Hp).
    destruct (post_Ok _ _ Hp) as ([[r4 pe4] seen4] & E & Hb3). rewrite E.
    cbn [mbind res_bind fst] in Hb3 |- *.
    fwd (acc_count_strand _ r r4 (flag a) Hb3) as r5 Hb4.
    fwd (acc_count_soft_clip _ r r5 a Hb4 Hne) as r6 Hb5.
    cbn. destruct (truthy (Z.land (flag a) 16)); counted_of Hb5.
Qed.

Lemma normal_spanning_step_counted (r : gmap string pyval)
    (paired_end seen : gset string) (a : AlignedSegment) :
  well_shaped r -> has_aligned_bases a = true ->
  post (normal_spanning_step (r, paired_end, seen) a)
    (fun st => counted r st.1.1
       (of_bool (negb (truthy (Z.land (flag a) 16)))) (of_bool (truthy (Z.land (flag a) 16)))
       (2 * of_bool (truthy (Z.land (flag a) 256))) (of_bool false)
       (of_bool (truthy (Z.land (flag a) 2))) 2).
Proof.
  intros Hw Ha. apply has_aligned_bases_cigar in Ha. destruct Ha as [Hne Ha].
  pose proof (bumped_refl r Hw) as Hb.
  unfold normal_spanning_step.
  destruct (n_aligned_bases (cigartuples a)) as [[a_bases large_gaps] n_small_gaps].
  cbn [fst] in Ha.
  fwd (acc_append_n_sa [] r r a Hb) as r1 Hb0.
  fwd (acc_append_n_gaps _ r r1 n_small_gaps a_bases Hb0 Ha) as r2 Hb1.
  fwd (acc_count_NP _ r r2 (flag a) Hb1) as r3 Hb2.
  destruct (truthy (Z.land (flag a) 256)) eqn:E256; cbn [negb].
  - rewrite (land_256_2304 _ E256).
    fwd (acc_supplementary_block _ r r3 2 a a_bases Hb2) as r4 Hb3.
    fwd (acc_count_strand _ r r4 (flag a) Hb3) as r5 Hb4.
    cbn. destruct (truthy (Z.land (flag a) 16)); counted_of Hb4.
  - destruct (acc_spanning_primary_block _ r r3 paired_end seen a a_bases large_gaps Hb2)
      as (x & Hx & Hp).
    destruct (post_Ok _ _ Hp) as ([[r4 pe4] seen4] & E & Hb3). rewrite E.
    cbn [mbind res_bind fst] in Hb3 |- *.
    fwd (acc_count_strand _ r r4 (flag a) Hb3) as r5 Hb4.
    cbn. destruct (truthy (Z.land (flag a) 16)); counted_of Hb4.
Qed.

Lemma step_raises (r : gmap string pyval) (a : AlignedSegment) :
  well_shaped r -> has_aligned_bases a = false ->
  forall (A : Type) (f : gmap string pyval -> res A),
  (r ← append_n_sa r a;
   r ← append_n_gaps r (n_aligned_bases (cigartuples a)).2 (n_aligned_bases (cigartuples a)).1.1;
   f r) = Raise ZeroDivisionError.
Proof.
  intros Hw Ha A f. apply negb_false_iff in Ha.
  fwd (acc_append_n_sa [] r r a (bumped_refl r Hw)) as r1 Hb.
  unfold append_n_gaps, fdiv. rewrite Ha.
  destruct (well_shaped_list r1 "n_gaps" (proj1 Hb) eq_refl) as [l Hl].
  rewrite (getitem_Some _ _ _ Hl). reflexivity.
Qed.

Lemma normal_reads_step_raises (ins : bool) (r : gmap string pyval)
    (paired_end seen : gset string) (a : AlignedSegment) :
  well_shaped r -> has_aligned_bases a = false ->
  normal_reads_step ins (r, paired_end, seen) a = Raise ZeroDivisionError.
Proof.
  intros Hw Ha. unfold normal_reads_step.
  pose proof (step_raises r a Hw Ha) as H.
  destruct (n_aligned_bases (cigartuples a)) as [[a_bases large_gaps] n_small_gaps].
  apply H.
Qed.

Lemma normal_spanning_step_raises (r : gmap string pyval)
    (paired_end seen : gset string) (a : AlignedSegment) :
  well_shaped r -> has_aligned_bases a = false ->
  normal_spanning_step (r, paired_end, seen) a = Raise ZeroDivisionError.
Proof.
  intros Hw Ha. unfold normal_spanning_step.
  pose proof (step_raises r a Hw Ha) as H.
  destruct (n_aligned_bases (cigartuples a)) as [[a_bases large_gaps] n_small_gaps].
  apply H.
Qed.

Lemma count_reads_cons (f : AlignedSegment -> bool) (a : AlignedSegment)
    (l : list AlignedSegment) :
  count_reads f (a :: l) = of_bool (f a) + count_reads f l.
Proof. unfold count_reads. cbn. destruct (f a); cbn [length of_bool]; lia. Qed.

Lemma count_reads_app (f : AlignedSegment -> bool) (l m : list AlignedSegment) :
  count_reads f (l ++ m) = count_reads f l + count_reads f m.
Proof. unfold count_reads. rewrite List.filter_app, length_app. lia. Qed.

Lemma counted_refl (r : gmap string pyval) : well_shaped r -> counted r r 0 0 0 0 0 0.
Proof. intros H. unfold counted. repeat split; try assumption; lia. Qed.

Lemma counted_trans (r0 r1 r2 : gmap string pyval) (p m s c n e p' m' s' c' n' e' : Z) :
  counted r0 r1 p m s c n e -> counted r1 r2 p' m' s' c' n' e' ->
  counted r0 r2 (p + p') (m + m') (s + s') (c + c') (n + n') (e + e').
Proof. unfold counted. intros (_ & ? & ? & ? & ? & ? & ? & ?) (? & ? & ? & ? & ? & ? & ? & ?).
  repeat split; try assumption; lia. Qed.

(** A loop whose step counts as [inc] says, on reads that all have
    aligned bases; it raises as soon as one has none. *)
Lemma for_reads_counted (step : attr_state -> AlignedSegment -> res attr_state)
    (fp fm fs fc fn : AlignedSegment -> bool) (ws we : Z) :
  (forall r pe seen a, well_shaped r -> has_aligned_bases a = true ->
     post (step (r, pe, seen) a)
       (fun st => counted r st.1.1 (of_bool (fp a)) (of_bool (fm a)) (ws * of_bool (fs a))
                    (of_bool (fc a)) (of_bool (fn a)) we)) ->
  forall reads r pe seen, well_shaped r -> forallb has_aligned_bases reads = true ->
  post (for_reads step reads (r, pe, seen))
    (fun st => counted r st.1.1 (count_reads fp reads) (count_reads fm reads)
                 (ws * count_reads fs reads) (count_reads fc reads) (count_reads fn reads)
                 (we * Z.of_nat (length reads))).
Proof.
  intros Hstep reads. induction reads as [|a reads IH]; intros r pe seen Hw Hall.
  - cbn. unfold count_reads, counted. cbn. repeat split; try assumption; lia.
  - cbn [forallb] in Hall. apply andb_true_iff in Hall. destruct Hall as [Ha Hall].
    cbn [for_reads].
    destruct (post_Ok _ _ (Hstep r pe seen a Hw Ha)) as ([[r1 pe1] seen1] & E & H1).
    rewrite E. cbn [mbind res_bind fst] in H1 |- *.
    eapply post_weaken; [apply (IH r1 pe1 seen1 (proj1 H1) Hall) |].
    intros st H2. cbn beta in H2.
    pose proof (counted_trans _ _ _ _ _ _ _ _ _ _ _ _ _ _ _ H1 H2) as H.
    rewrite !count_reads_cons.
    replace (ws * (of_bool (fs a) + count_reads fs reads))
      with (ws * of_bool (fs a) + ws * count_reads fs reads) by lia.
    replace (we * Z.of_nat (length (a :: reads))) with (we + we * Z.of_nat (length reads))
      by (cbn [length]; lia).
    exact H.
Qed.

Lemma for_reads_raises (step : attr_state -> AlignedSegment -> res attr_state) :
  (forall r pe seen a, well_shaped r -> has_aligned_bases a = true ->
     post (step (r, pe, seen) a) (fun st => well_shaped st.1.1)) ->
  (forall r pe seen a, well_shaped r -> has_aligned_bases a = false ->
     step (r, pe, seen) a = Raise ZeroDivisionError) ->
  forall reads r pe seen, well_shaped r -> forallb has_aligned_bases reads = false ->
  for_reads step reads (r, pe, seen) = Raise ZeroDivisionError.
Proof.
  intros Hok Hbad reads. induction reads as [|a reads IH]; intros r pe seen Hw Hall;
    [discriminate Hall |].
  cbn [forallb] in Hall. cbn [for_reads].
  destruct (has_aligned_bases a) eqn:Ha.
  - destruct (post_Ok _ _ (Hok r pe seen a Hw Ha)) as ([[r1 pe1] seen1] & E & H1).
    rewrite E. cbn [mbind res_bind]. apply IH; assumption.
  - now rewrite (Hbad r pe seen a Hw Ha).
Qed.

(** *** The reductions *)

Lemma reduce_lists_spec (f : list Q -> pyval) (keys : list string) :
  forall r : gmap string pyval,
  NoDup keys -> (forall k, In k keys -> exists l, r !! k = Some (PList l)) ->
  exists r',
    reduce_lists f keys r = Ok r' /\ dom r' = dom r /\
    (forall k, ~ In k keys -> r' !! k = r !! k) /\
    (forall k, In k keys -> exists l,
       r !! k = Some (PList l) /\
       r' !! k = Some (if 0 <? Z.of_nat (length l) then f l else PInt 0)).
Proof.
  induction keys as [|k keys IH]; intros r Hnd Hl.
  - exists r. cbn. repeat split; intros k []. 
  - apply NoDup_cons in Hnd. destruct Hnd as [Hk Hnd].
    rewrite list_elem_of_In in Hk.
    destruct (Hl k (or_introl eq_refl)) as [l Hkl].
    cbn [reduce_lists]. rewrite (getitem_Some _ _ _ Hkl). cbn [mbind res_bind].
    set (v := if 0 <? Z.of_nat (length l) then f l else PInt 0).
    destruct (IH (<[k := v]> r) Hnd) as (r' & E & Hdom & Hframe & Hkeys).
    { intros k' Hk'. rewrite lookup_insert_ne by (intros ->; contradiction).
      apply Hl. now right. }
    exists r'. split; [exact E |]. split; [| split].
    + rewrite Hdom, dom_insert_L.
      apply subseteq_union_1_L, singleton_subseteq_l, elem_of_dom. eauto.
    + intros k' Hk'. rewrite Hframe by (intros ?; apply Hk'; now right).
      apply lookup_insert_ne. intros ->. apply Hk'. now left.
    + intros k' [<- | Hk'].
      * exists l. split; [exact Hkl |]. rewrite Hframe by exact Hk.
        apply lookup_insert_eq.
      * destruct (Hkeys k' Hk') as (l' & Hl' & Hr').
        rewrite lookup_insert_ne in Hl' by (intros ->; contradiction). eauto.
Qed.

Lemma well_shaped_counter (r : gmap string pyval) (k : string) :
  well_shaped r -> normal_shape !! k = Some KInt -> r !! k = Some (PInt (counter r k)).
Proof.
  intros Hw Hk. destruct (well_shaped_int r k Hw Hk) as [z Hz].
  unfold counter. now rewrite Hz.
Qed.

Lemma well_shaped_dom (r : gmap string pyval) : well_shaped r -> dom r = attr_keys.
Proof.
  intros Hw. rewrite <- (dom_fmap_L kind_of r), Hw.
  unfold normal_shape, normal_init. rewrite dom_fmap_L, !dom_insert_L, dom_empty_L.
  unfold attr_keys. cbn [list_to_set foldr]. set_solver.
Qed.

(** The literal keys of a literal list, one by one. *)
Ltac each_key H :=
  repeat (destruct H as [<- | H]; [| ]); [.. | destruct H].

(** A literal key is not in a literal list, and a literal list has no
    duplicate. *)
Ltac not_in_lit := cbn; intuition discriminate.

Ltac nodup_lit :=
  repeat (apply NoDup_cons_2; [rewrite list_elem_of_In; not_in_lit |]); apply NoDup_nil_2.

Lemma reduce_attrs_spec (r : gmap string pyval) :
  well_shaped r ->
  exists r',
    reduce_attrs ["MAPQpri"; "MAPQsupp"; "n_sa"] r = Ok r' /\
    dom r' = attr_keys /\
    (forall k, normal_shape !! k = Some KInt -> r' !! k = Some (PInt (counter r k))) /\
    (forall k v, r' !! k = Some v -> is_number v).
Proof.
  intros Hw. unfold reduce_attrs.
  destruct (reduce_lists_spec (fun l => PFloat (np_mean l * 100)%Q)
              ["NMpri"; "NMsupp"; "NMbase"; "n_gaps"] r)
    as (r1 & E1 & D1 & F1 & K1).
  { nodup_lit. }
  { intros k Hk. apply (well_shaped_list r k Hw). cbn in Hk. each_key Hk; reflexivity. }
  rewrite E1. cbn [mbind res_bind].
  destruct (reduce_lists_spec (fun l => PFloat (np_mean l)) ["MAPQpri"; "MAPQsupp"; "n_sa"] r1)
    as (r2 & E2 & D2 & F2 & K2).
  { nodup_lit. }
  { intros k Hk. rewrite F1.
    - apply (well_shaped_list r k Hw). cbn in Hk. each_key Hk; reflexivity.
    - cbn in Hk. each_key Hk; not_in_lit. }
  rewrite E2. cbn [mbind res_bind].
  destruct (reduce_lists_spec (fun l => PInt (py_int (qmax l))) ["maxASsupp"] r2)
    as (r3 & E3 & D3 & F3 & K3).
  { nodup_lit. }
  { intros k Hk. rewrite F2, F1.
    - apply (well_shaped_list r k Hw). cbn in Hk. each_key Hk; reflexivity.
    - cbn in Hk. each_key Hk; not_in_lit.
    - cbn in Hk. each_key Hk; not_in_lit. }
  exists r3. split; [exact E3 |].
  assert (Hdom : dom r3 = attr_keys) by (rewrite D3, D2, D1; now apply well_shaped_dom).
  split; [exact Hdom |]. split.
  - intros k Hk. rewrite F3, F2, F1.
    + now apply well_shaped_counter.
    + intros H; cbn in H; each_key H; discriminate Hk.
    + intros H; cbn in H; each_key H; discriminate Hk.
    + intros H; cbn in H; each_key H; discriminate Hk.
  - intros k v Hv.
    assert (Hk : k ∈ attr_keys) by (rewrite <- Hdom; apply elem_of_dom; eauto).
    unfold attr_keys in Hk. rewrite elem_of_list_to_set in Hk.
    rewrite list_elem_of_In in Hk. cbn in Hk.
    assert (Hcase : In k ["maxASsupp"] \/ In k ["MAPQpri"; "MAPQsupp"; "n_sa"] \/
                    In k ["NMpri"; "NMsupp"; "NMbase"; "n_gaps"] \/
                    normal_shape !! k = Some KInt).
    { each_key Hk; cbn; auto 10. }
    destruct Hcase as [H | [H | [H | H]]].
    + destruct (K3 k H) as (l & _ & Hr). rewrite Hr in Hv. injection Hv as <-.
      destruct (0 <? Z.of_nat (length l)); exact I.
    + destruct (K2 k H) as (l & _ & Hr).
      rewrite F3 in Hv by (cbn in H; each_key H; not_in_lit).
      rewrite Hr in Hv. injection Hv as <-.
      destruct (0 <? Z.of_nat (length l)); exact I.
    + destruct (K1 k H) as (l & _ & Hr).
      rewrite F3, F2 in Hv
        by (cbn in H; each_key H; not_in_lit).
      rewrite Hr in Hv. injection Hv as <-.
      destruct (0 <? Z.of_nat (length l)); exact I.
    + rewrite F3, F2, F1 in Hv
        by (intros H'; cbn in H'; each_key H'; discriminate H).
      rewrite (well_shaped_counter r k Hw H) in Hv. injection Hv as <-. exact I.
Qed.

(** *** The aggregator as a whole *)

Lemma forallb_app_eq {A : Type} (f : A -> bool) (l m : list A) :
  forallb f (l ++ m) = forallb f l && forallb f m.
Proof. induction l as [|x l IH]; cbn; [reflexivity |]. now rewrite IH, andb_assoc. Qed.

(** The basic aggregator returns when every read has aligned bases, and
    then its counters are counts over the flags of the reads; it raises
    [ZeroDivisionError] otherwise. *)
Lemma normal_attrs_cases (reads1 reads2 spanning : list AlignedSegment)
    (min_support : Z) (svtype : pyval) :
  let reads := (reads1 ++ reads2)%list in
  if forallb has_aligned_bases (reads ++ spanning) then
    exists r pe,
      normal_attrs reads1 reads2 spanning min_support svtype = Ok r /\
      dom r = attr_keys /\
      (forall k v, r !! k = Some v -> is_number v) /\
      r !! "plus" = Some (PInt
        (count_reads (fun a => negb (truthy (Z.land (flag a) 16))) (reads ++ spanning))) /\
      r !! "minus" = Some (PInt
        (count_reads (fun a => truthy (Z.land (flag a) 16)) (reads ++ spanning))) /\
      r !! "NP" = Some (PInt
        (count_reads (fun a => truthy (Z.land (flag a) 2)) (reads ++ spanning))) /\
      r !! "supp" = Some (PInt
        (count_reads (fun a => truthy (Z.land (flag a) 2304)) reads +
         2 * count_reads (fun a => truthy (Z.land (flag a) 256)) spanning)) /\
      r !! "sc" = Some (PInt (count_reads soft_clipped reads)) /\
      r !! "spanning" = Some (PInt (Z.of_nat (length spanning))) /\
      r !! "pe" = Some (PInt pe) /\
      0 <= pe <= Z.of_nat (length reads) + 2 * Z.of_nat (length spanning)
  else normal_attrs reads1 reads2 spanning min_support svtype = Raise ZeroDivisionError.
Proof.
  intros reads. rewrite normal_attrs_loops. fold reads.
  set (ins := py_eq svtype (PStr "INS")).
  set (n := Z.of_nat (length spanning)).
  pose proof (normal_init_shaped n) as Hw0.
  rewrite forallb_app_eq.
  destruct (forallb has_aligned_bases reads) eqn:H1; cbn [andb].
  2: { rewrite (for_reads_raises (normal_reads_step ins)); [reflexivity | | | exact Hw0 | exact H1].
       - intros r pe seen a Hw Ha.
         eapply post_weaken; [apply (normal_reads_step_counted ins r pe seen a Hw Ha) |].
         intros st Hc. exact (proj1 Hc).
       - intros. now apply normal_reads_step_raises. }
  destruct (post_Ok _ _ (for_reads_counted (normal_reads_step ins) _ _ _ _ _ 1 1
              (normal_reads_step_counted ins) reads (normal_init n) ∅ ∅ Hw0 H1))
    as ([[r1 pe1] seen1] & E1 & C1).
  rewrite E1. cbn [mbind res_bind fst] in C1 |- *.
  destruct (forallb has_aligned_bases spanning) eqn:H2.
  2: { rewrite (for_reads_raises normal_spanning_step);
         [reflexivity | | | exact (proj1 C1) | exact H2].
       - intros r pe seen a Hw Ha.
         eapply post_weaken; [apply (normal_spanning_step_counted r pe seen a Hw Ha) |].
         intros st Hc. exact (proj1 Hc).
       - intros. now apply normal_spanning_step_raises. }
  destruct (post_Ok _ _ (for_reads_counted normal_spanning_step _ _ _ _ _ 2 2
              normal_spanning_step_counted spanning r1 pe1 seen1 (proj1 C1) H2))
    as ([[r2 pe2] seen2] & E2 & C2).
  rewrite E2. cbn [mbind res_bind fst] in C2 |- *.
  pose proof (counted_trans _ _ _ _ _ _ _ _ _ _ _ _ _ _ _ C1 C2) as C.
  destruct C as (Hw & Cp & Cm & Cs & Cc & Cn & Csp & Cpe).
  destruct (reduce_attrs_spec r2 Hw) as (r & E & Hdom & Hint & Hnum).
  exists r, (counter r2 "pe"). split; [exact E |]. split; [exact Hdom |]. split; [exact Hnum |].
  rewrite (Hint "plus" eq_refl), (Hint "minus" eq_refl), (Hint "NP" eq_refl),
    (Hint "supp" eq_refl), (Hint "sc" eq_refl), (Hint "spanning" eq_refl),
    (Hint "pe" eq_refl), !count_reads_app.
  rewrite Cp, Cm, Cs, Cc, Cn, Csp.
  assert (Hsc : count_reads (fun _ => false) spanning = 0).
  { unfold count_reads. clear. induction spanning; cbn; [reflexivity | assumption]. }
  assert (I0 : counter (normal_init n) "plus" = 0 /\ counter (normal_init n) "minus" = 0 /\
               counter (normal_init n) "supp" = 0 /\ counter (normal_init n) "sc" = 0 /\
               counter (normal_init n) "NP" = 0 /\ counter (normal_init n) "spanning" = n /\
               counter (normal_init n) "pe" = 0) by (repeat split; reflexivity).
  destruct I0 as (-> & -> & -> & -> & -> & -> & I0). rewrite I0 in Cpe. rewrite Hsc.
  repeat split; try (f_equal; f_equal; lia); lia.
Qed.

(** X9.  The basic aggregator divides by the aligned bases of every read: it
    returns when each read of the three lists has aligned bases, and its
    result then has the fifteen keys, each holding a number; as soon as a
    read has none it raises [ZeroDivisionError]. *)
Theorem normal_attrs_returns_or_divides_by_zero
    (reads1 reads2 spanning : list AlignedSegment) (min_support : Z) (svtype : pyval) :
  if forallb has_aligned_bases ((reads1 ++ reads2) ++ spanning) then
    exists r,
      normal_attrs reads1 reads2 spanning min_support svtype = Ok r /\
      dom r = attr_keys /\
      (forall k v, r !! k = Some v -> is_number v)
  else normal_attrs reads1 reads2 spanning min_support svtype = Raise ZeroDivisionError.
Proof.
  pose proof (normal_attrs_cases reads1 reads2 spanning min_support svtype) as H.
  cbv zeta in H. destruct (forallb has_aligned_bases ((reads1 ++ reads2) ++ spanning)).
  - destruct H as (r & pe & E & Hdom & Hnum & _). eauto.
  - exact H.
Qed.

(** X10.  What the basic aggregator counts, when it returns: [plus] and [minus]
    are the forward and the reverse reads of the three lists, [NP] the
    reads flagged as properly paired, [sc] the reads of [reads1] and
    [reads2] soft-clipped at an end, [spanning] the number of spanning
    reads; [supp] counts a read of [reads1] and [reads2] once when its flag
    has 256 or 2048, and a spanning read twice when its flag has 256; [pe]
    is at most one for each read and two for each spanning read. *)
Theorem normal_attrs_counts (reads1 reads2 spanning : list AlignedSegment)
    (min_support : Z) (svtype : pyval) :
  forallb has_aligned_bases ((reads1 ++ reads2) ++ spanning) = true ->
  exists r pe,
    normal_attrs reads1 reads2 spanning min_support svtype = Ok r /\
    r !! "plus" = Some (PInt
      (count_reads (fun a => negb (truthy (Z.land (flag a) 16)))
         ((reads1 ++ reads2) ++ spanning))) /\
    r !! "minus" = Some (PInt
      (count_reads (fun a => truthy (Z.land (flag a) 16)) ((reads1 ++ reads2) ++ spanning))) /\
    r !! "NP" = Some (PInt
      (count_reads (fun a => truthy (Z.land (flag a) 2)) ((reads1 ++ reads2) ++ spanning))) /\
    r !! "supp" = Some (PInt
      (count_reads (fun a => truthy (Z.land (flag a) 2304)) (reads1 ++ reads2) +
       2 * count_reads (fun a => truthy (Z.land (flag a) 256)) spanning)) /\
    r !! "sc" = Some (PInt (count_reads soft_clipped (reads1 ++ reads2))) /\
    r !! "spanning" = Some (PInt (Z.of_nat (length spanning))) /\
    r !! "pe" = Some (PInt pe) /\
    0 <= pe <= Z.of_nat (length (reads1 ++ reads2)) + 2 * Z.of_nat (length spanning).
Proof.
  intros Hall.
  pose proof (normal_attrs_cases reads1 reads2 spanning min_support svtype) as H.
  cbv zeta in H. rewrite Hall in H.
  destruct H as (r & pe & E & _ & _ & H). exists r, pe. split; [exact E | exact H].
Qed.

Lemma normal_attrs_counts_witness :
  exists r pe,
    normal_attrs [read_pri] [read_supp] [] 2 (PStr "INS") = Ok r /\
    r !! "plus" = Some (PInt
      (count_reads (fun a => negb (truthy (Z.land (flag a) 16)))
         (([read_pri] ++ [read_supp]) ++ []))) /\
    r !! "minus" = Some (PInt
      (count_reads (fun a => truthy (Z.land (flag a) 16))
         (([read_pri] ++ [read_supp]) ++ []))) /\
    r !! "NP" = Some (PInt
      (count_reads (fun a => truthy (Z.land (flag a) 2)) (([read_pri] ++ [read_supp]) ++ []))) /\
    r !! "supp" = Some (PInt
      (count_reads (fun a => truthy (Z.land (flag a) 2304)) ([read_pri] ++ [read_supp]) +
       2 * count_reads (fun a => truthy (Z.land (flag a) 256)) [])) /\
    r !! "sc" = Some (PInt (count_reads soft_clipped ([read_pri] ++ [read_supp]))) /\
    r !! "spanning" = Some (PInt (Z.of_nat (length (@nil AlignedSegment)))) /\
    r !! "pe" = Some (PInt pe) /\
    0 <= pe <= Z.of_nat (length ([read_pri] ++ [read_supp]))
               + 2 * Z.of_nat (length (@nil AlignedSegment)).
Proof.
  apply (normal_attrs_counts [read_pri] [read_supp] [] 2 (PStr "INS")). reflexivity.
Defined.

(** ** Extended aggregator: no input gets an aggregate *)

Lemma extended_attrs_cases (reads1 reads2 spanning : list AlignedSegment)
    (min_support : Z) (svtype : pyval) :
  extended_attrs reads1 reads2 spanning min_support svtype =
    match ((reads1 ++ reads2) ++ spanning)%list with
    | [] => if 0 <? min_support then Ok ∅ else Raise (KeyError "n_gaps")
    | _ :: _ => Raise (KeyError "n_gaps")
    end.
Proof.
  destruct (reads1 ++ reads2)%list as [|a reads] eqn:E12.
  - apply app_eq_nil in E12. destruct E12 as [-> ->]. cbn [app].
    destruct spanning as [|a spanning].
    + apply extended_attrs_no_reads.
    + unfold extended_attrs. cbn [app for_reads mbind res_bind].
      destruct a as [qn fl ct mq dp dn da nm asc sa].
      unfold once_per_template, append_tag, append_n_sa, append_n_gaps.
      cbn [qname flag cigartuples mapq tag_DP tag_DN tag_DA tag_NM tag_AS tag_SA].
      destruct (n_aligned_bases ct) as [[a_bases large_gaps] n_small_gaps].
      destruct dp, dn, sa, (truthy (Z.land fl 2)); vm_compute; reflexivity.
  - cbn [app]. unfold extended_attrs. rewrite E12. cbn [for_reads].
    destruct a as [qn fl ct mq dp dn da nm asc sa].
    unfold once_per_template, append_tag, append_n_sa, append_n_gaps.
    cbn [qname flag cigartuples mapq tag_DP tag_DN tag_DA tag_NM tag_AS tag_SA].
    destruct (n_aligned_bases ct) as [[a_bases large_gaps] n_small_gaps].
    destruct dp, dn, sa, (truthy (Z.land fl 2)); vm_compute; reflexivity.
Qed.

(** X11.  The extended aggregator never returns an aggregate.  Without any read
    it returns the empty dictionary when [min_support] is positive; on
    every other input, whatever the reads, it raises [KeyError] on
    [n_gaps], the key its dictionary is created without. *)
Theorem extended_attrs_never_aggregates (reads1 reads2 spanning : list AlignedSegment)
    (min_support : Z) (svtype : pyval) :
  extended_attrs reads1 reads2 spanning min_support svtype =
    match ((reads1 ++ reads2) ++ spanning)%list with
    | [] => if 0 <? min_support then Ok ∅ else Raise (KeyError "n_gaps")
    | _ :: _ => Raise (KeyError "n_gaps")
    end.
Proof. apply extended_attrs_cases. Qed.

Lemma extended_attrs_empty_or_KeyError (reads1 reads2 spanning : list AlignedSegment)
    (min_support : Z) (svtype : pyval) :
  extended_attrs reads1 reads2 spanning min_support svtype = Ok ∅ \/
  extended_attrs reads1 reads2 spanning min_support svtype = Raise (KeyError "n_gaps").
Proof.
  rewrite extended_attrs_cases.
  destruct ((reads1 ++ reads2) ++ spanning)%list; [destruct (0 <? min_support) |]; auto.
Qed.

(** ** Regional annotation: which side comes first *)

Section Orientation.

Variable intersecterpy : pyval -> Z -> Z -> bool.
Variable find_overlap : pyval -> Z -> Z -> list (Z * Z).
Variable get_tid : pyval -> Z.
Variable depth_table : Type.
Variable regions_depth : gmap Z depth_table.
Variable calculate_coverage : Z -> Z -> depth_table -> Q.

(** Once the kind and the switch are decided, the annotation returns: its
    result is the call, swapped or not, with the four fields written. *)
Lemma annotation_returns (r : gmap string pyval) (kind : string) (switch : bool)
    (pe supp spanning : Z) :
  annotatable r ->
  r !! "pe" = Some (PInt pe) -> r !! "supp" = Some (PInt supp) ->
  r !! "spanning" = Some (PInt spanning) ->
  region_kind intersecterpy find_overlap r = Ok (kind, switch) ->
  exists out r1,
    get_raw_coverage_information intersecterpy find_overlap get_tid depth_table
      regions_depth calculate_coverage r = Ok out /\
    (if switch then swap_labels r else Ok r) = Ok r1 /\
    out !! "kind" = Some (PStr kind) /\
    out !! "su" = Some (PInt (pe + supp + spanning)) /\
    (forall k, k ∉ annotation_keys -> out !! k = r1 !! k).
Proof.
  intros ((a & b & HpA & HpB) & Hkeys & _) Hpe Hsupp Hspan Hkind.
  destruct (Hkeys "chrA") as [cA HcA]; [set_solver |].
  destruct (Hkeys "chrB") as [cB HcB]; [set_solver |].
  destruct (Hkeys "cipos95A") as [ciA HciA]; [set_solver |].
  destruct (Hkeys "cipos95B") as [ciB HciB]; [set_solver |].
  destruct (Hkeys "contig") as [k1 Hk1]; [set_solver |].
  destruct (Hkeys "contig2") as [k2 Hk2]; [set_solver |].
  set (r1 := if switch then swapped r cA (PInt a) ciA k1 cB (PInt b) ciB k2 else r).
  assert (E1 : (if switch then swap_labels r else Ok r) = Ok r1).
  { subst r1. destruct switch; [| reflexivity]. now apply swap_labels_Some. }
  assert (Hr1 : exists cA' cB' a' b',
            r1 !! "chrA" = Some cA' /\ r1 !! "chrB" = Some cB' /\
            r1 !! "posA" = Some (PInt a') /\ r1 !! "posB" = Some (PInt b') /\
            r1 !! "pe" = Some (PInt pe) /\ r1 !! "supp" = Some (PInt supp) /\
            r1 !! "spanning" = Some (PInt spanning)).
  { subst r1. destruct switch.
    - exists cB, cA, b, a. unfold swapped. repeat split; by simplify_map_eq.
    - exists cA, cB, a, b. repeat split; assumption. }
  destruct Hr1 as (cA' & cB' & a' & b' & HA & HB & HpA' & HpB' & Hpe' & Hsupp' & Hspan').
  exists (<["su" := PInt (pe + supp + spanning)]>
            ((if negb (py_eq cA' cB') then <["svlen" := PInt 1000000]> else id)
               (<["raw_reads_10kb" :=
                    if String.eqb kind "hemi-regional"
                    then local_depth get_tid depth_table regions_depth calculate_coverage cA' a'
                    else
                      if Qlt_bool
                           (default 0%Q (py_num (local_depth get_tid depth_table regions_depth
                                           calculate_coverage cB' b')))
                           (default 0%Q (py_num (local_depth get_tid depth_table regions_depth
                                           calculate_coverage cA' a')))
                      then local_depth get_tid depth_table regions_depth calculate_coverage cA' a'
                      else local_depth get_tid depth_table regions_depth calculate_coverage
                             cB' b']>
                  (<["kind" := PStr kind]> r1)))), r1.
  split; [| split; [exact E1 | split; [| split]]].
  - unfold get_raw_coverage_information. rewrite Hkind. cbn [mbind res_bind].
    rewrite E1. cbn [mbind res_bind].
    rewrite (getitem_Some _ _ _ HA), (getint_Some _ _ _ HpA'). cbn [mbind res_bind].
    destruct (String.eqb kind "hemi-regional"); cbn [mbind res_bind].
    + erewrite !getitem_Some by (rewrite !lookup_insert_ne by done; eassumption).
      cbn [mbind res_bind].
      destruct (negb (py_eq cA' cB'));
        erewrite !getint_Some by (rewrite !lookup_insert_ne by done; eassumption);
        cbn [mbind res_bind]; reflexivity.
    + rewrite (getitem_Some _ _ _ HB), (getint_Some _ _ _ HpB'). cbn [mbind res_bind].
      destruct (depth_num get_tid depth_table regions_depth calculate_coverage cA' a')
        as [qa Eqa].
      destruct (depth_num get_tid depth_table regions_depth calculate_coverage cB' b')
        as [qb Eqb].
      unfold py_lt. rewrite Eqa, Eqb. cbn [mbind res_bind default]. unfold Qlt_bool.
      erewrite !getitem_Some by (rewrite !lookup_insert_ne by done; eassumption).
      cbn [mbind res_bind].
      destruct (negb (py_eq cA' cB'));
        erewrite !getint_Some by (rewrite !lookup_insert_ne by done; eassumption);
        cbn [mbind res_bind]; reflexivity.
  - destruct (negb (py_eq cA' cB')); cbn [id]; by simplify_map_eq.
  - apply lookup_insert_eq.
  - intros k Hk.
    assert (Hne : k <> "kind" /\ k <> "raw_reads_10kb" /\ k <> "svlen" /\ k <> "su").
    { unfold annotation_keys in Hk. repeat split; intros ->; apply Hk;
        rewrite list_elem_of_In; cbn; auto. }
    destruct Hne as (? & ? & ? & ?).
    destruct (negb (py_eq cA' cB')); cbn [id]; by rewrite !lookup_insert_ne.
Qed.

Lemma region_kind_unfold (r : gmap string pyval) (cA cB : pyval) (a b : Z) :
  r !! "chrA" = Some cA -> r !! "posA" = Some (PInt a) ->
  r !! "chrB" = Some cB -> r !! "posB" = Some (PInt b) ->
  region_kind intersecterpy find_overlap r =
    let ar := intersecterpy cA a (a + 1) in
    let br := intersecterpy cB b (b + 1) in
    if ar && br then
      if py_eq cA cB then
        rA ← py_first (find_overlap cA a (a + 1));
        rB ← py_first (find_overlap cB b (b + 1));
        if (rA.1 =? rB.1) && (rA.2 =? rB.2) then
          Ok ("intra_regional", if a >? b then true else false)
        else
          lt ← py_lt cB cA;
          Ok ("inter-regional",
              if negb (py_eq cA (if (lt : bool) then cB else cA)) then true else false)
      else Ok ("inter-regional", false)
    else if xorb ar br then Ok ("hemi-regional", ar) else Ok ("extra-regional", false).
Proof.
  intros HcA HpA HcB HpB. unfold region_kind.
  rewrite (getitem_Some _ _ _ HcA), (getint_Some _ _ _ HpA),
    (getitem_Some _ _ _ HcB), (getint_Some _ _ _ HpB).
  cbn [mbind res_bind].
  destruct (intersecterpy cA a (a + 1)), (intersecterpy cB b (b + 1)); reflexivity.
Qed.

Lemma region_kind_in_kinds (r : gmap string pyval) (kind : string) (switch : bool) :
  region_kind intersecterpy find_overlap r = Ok (kind, switch) -> In kind kinds.
Proof.
  unfold region_kind. intros H.
  repeat match type of H with
  | context [mbind _ ?m] => destruct m; cbn [mbind res_bind] in H; [| discriminate H]
  | context [if ?c then _ else _] => destruct c
  end;
  injection H as <- <-; cbn; auto 10.
Qed.

Lemma annotatable_fields (r : gmap string pyval) :
  annotatable r ->
  exists cA cB a b pe supp spanning,
    r !! "chrA" = Some cA /\ r !! "posA" = Some (PInt a) /\
    r !! "chrB" = Some cB /\ r !! "posB" = Some (PInt b) /\
    r !! "pe" = Some (PInt pe) /\ r !! "supp" = Some (PInt supp) /\
    r !! "spanning" = Some (PInt spanning).
Proof.
  intros ((a & b & HpA & HpB) & Hkeys & (pe & supp & spanning & Hpe & Hsupp & Hspan)).
  destruct (Hkeys "chrA") as [cA HcA]; [set_solver |].
  destruct (Hkeys "chrB") as [cB HcB]; [set_solver |].
  exists cA, cB, a, b, pe, supp, spanning. auto 10.
Qed.

(** X12.  A call with no side in a region is labelled [extra-regional] and its
    sides are left as they are, also when side A lies after side B on the
    same chromosome: the switch decided for that case at line 2128 is
    overwritten at line 2134. *)
Theorem extra_regional_is_never_swapped (r : gmap string pyval) (cA cB : pyval) (a b : Z) :
  annotatable r ->
  r !! "chrA" = Some cA -> r !! "posA" = Some (PInt a) ->
  r !! "chrB" = Some cB -> r !! "posB" = Some (PInt b) ->
  intersecterpy cA a (a + 1) = false -> intersecterpy cB b (b + 1) = false ->
  exists out,
    get_raw_coverage_information intersecterpy find_overlap get_tid depth_table
      regions_depth calculate_coverage r = Ok out /\
    out !! "kind" = Some (PStr "extra-regional") /\
    out !! "chrA" = Some cA /\ out !! "posA" = Some (PInt a) /\
    out !! "chrB" = Some cB /\ out !! "posB" = Some (PInt b) /\
    (forall k, k ∉ annotation_keys -> out !! k = r !! k).
Proof.
  intros Hr HcA HpA HcB HpB Har Hbr.
  destruct (annotatable_fields r Hr)
    as (_ & _ & _ & _ & pe & supp & spanning & _ & _ & _ & _ & Hpe & Hsupp & Hspan).
  pose proof (region_kind_unfold r cA cB a b HcA HpA HcB HpB) as Hk.
  cbv zeta in Hk. rewrite Har, Hbr in Hk. cbn in Hk.
  destruct (annotation_returns r _ _ pe supp spanning Hr Hpe Hsupp Hspan Hk)
    as (out & r1 & Hout & [= <-] & Hkind & _ & Hframe).
  exists out. split; [exact Hout |]. split; [exact Hkind |].
  rewrite !Hframe by not_in_keys. auto.
Qed.

(** X13.  A call with exactly one side in a region is labelled [hemi-regional]
    and comes out with the side outside the regions as side A. *)
Theorem hemi_regional_puts_region_second (r : gmap string pyval) (cA cB : pyval) (a b : Z) :
  annotatable r ->
  r !! "chrA" = Some cA -> r !! "posA" = Some (PInt a) ->
  r !! "chrB" = Some cB -> r !! "posB" = Some (PInt b) ->
  xorb (intersecterpy cA a (a + 1)) (intersecterpy cB b (b + 1)) = true ->
  exists out cA' cB' a' b',
    get_raw_coverage_information intersecterpy find_overlap get_tid depth_table
      regions_depth calculate_coverage r = Ok out /\
    out !! "kind" = Some (PStr "hemi-regional") /\
    out !! "chrA" = Some cA' /\ out !! "posA" = Some (PInt a') /\
    out !! "chrB" = Some cB' /\ out !! "posB" = Some (PInt b') /\
    intersecterpy cA' a' (a' + 1) = false /\ intersecterpy cB' b' (b' + 1) = true.
Proof.
  intros Hr HcA HpA HcB HpB Hx.
  destruct (annotatable_fields r Hr)
    as (_ & _ & _ & _ & pe & supp & spanning & _ & _ & _ & _ & Hpe & Hsupp & Hspan).
  pose proof (region_kind_unfold r cA cB a b HcA HpA HcB HpB) as Hk.
  cbv zeta in Hk.
  destruct (intersecterpy cA a (a + 1)) eqn:Har, (intersecterpy cB b (b + 1)) eqn:Hbr;
    try discriminate Hx; cbn in Hk;
    destruct (annotation_returns r _ _ pe supp spanning Hr Hpe Hsupp Hspan Hk)
      as (out & r1 & Hout & Hr1 & Hkind & _ & Hframe).
  - apply swap_labels_Ok in Hr1.
    destruct Hr1 as (cA0 & pA0 & ciA & k1 & cB0 & pB0 & ciB & k2
                     & HcA0 & HpA0 & _ & _ & HcB0 & HpB0 & _ & _ & ->).
    exists out, cB, cA, b, a. split; [exact Hout |]. split; [exact Hkind |].
    rewrite !Hframe by not_in_keys. unfold swapped.
    rewrite HcA in HcA0. rewrite HpA in HpA0. rewrite HcB in HcB0. rewrite HpB in HpB0.
    injection HcA0 as <-. injection HpA0 as <-. injection HcB0 as <-. injection HpB0 as <-.
    repeat split; try assumption; by simplify_map_eq.
  - injection Hr1 as <-.
    exists out, cA, cB, a, b. split; [exact Hout |]. split; [exact Hkind |].
    rewrite !Hframe by not_in_keys. auto 10.
Qed.

(** X14.  A call with both sides in the same region of the same chromosome is
    labelled [intra_regional] and comes out with the smaller coordinate as
    [posA]. *)
Theorem intra_regional_orders_positions (r : gmap string pyval) (cA cB : pyval) (a b : Z)
    (region : Z * Z) (others_A others_B : list (Z * Z)) :
  annotatable r ->
  r !! "chrA" = Some cA -> r !! "posA" = Some (PInt a) ->
  r !! "chrB" = Some cB -> r !! "posB" = Some (PInt b) ->
  py_eq cA cB = true ->
  intersecterpy cA a (a + 1) = true -> intersecterpy cB b (b + 1) = true ->
  find_overlap cA a (a + 1) = region :: others_A ->
  find_overlap cB b (b + 1) = region :: others_B ->
  exists out,
    get_raw_coverage_information intersecterpy find_overlap get_tid depth_table
      regions_depth calculate_coverage r = Ok out /\
    out !! "kind" = Some (PStr "intra_regional") /\
    out !! "posA" = Some (PInt (Z.min a b)) /\ out !! "posB" = Some (PInt (Z.max a b)).
Proof.
  intros Hr HcA HpA HcB HpB Heq Har Hbr HfA HfB.
  destruct (annotatable_fields r Hr)
    as (_ & _ & _ & _ & pe & supp & spanning & _ & _ & _ & _ & Hpe & Hsupp & Hspan).
  pose proof (region_kind_unfold r cA cB a b HcA HpA HcB HpB) as Hk.
  cbv zeta in Hk. rewrite Har, Hbr, Heq, HfA, HfB in Hk.
  cbn [andb py_first mbind res_bind] in Hk. rewrite !Z.eqb_refl in Hk. cbn [andb] in Hk.
  destruct (annotation_returns r _ _ pe supp spanning Hr Hpe Hsupp Hspan Hk)
    as (out & r1 & Hout & Hr1 & Hkind & _ & Hframe).
  exists out. split; [exact Hout |]. split; [exact Hkind |].
  rewrite !Hframe by not_in_keys.
  destruct (a >? b) eqn:Hab.
  - apply swap_labels_Ok in Hr1.
    destruct Hr1 as (cA0 & pA0 & ciA & k1 & cB0 & pB0 & ciB & k2
                     & _ & HpA0 & _ & _ & _ & HpB0 & _ & _ & ->).
    rewrite HpA in HpA0. rewrite HpB in HpB0.
    injection HpA0 as <-. injection HpB0 as <-.
    apply Z.gtb_lt in Hab. unfold swapped.
    replace (Z.min a b) with b by lia. replace (Z.max a b) with a by lia.
    split; by simplify_map_eq.
  - injection Hr1 as <-.
    assert (a <= b) by (destruct (Z.gtb_spec a b); [discriminate | lia]).
    replace (Z.min a b) with a by lia. replace (Z.max a b) with b by lia. auto.
Qed.

(** X15.  Whenever the annotation returns, [su] is the sum of the three support
    counts of the call and [kind] is one of the four labels. *)
Theorem annotation_writes_su_and_kind (r : gmap string pyval) (pe supp spanning : Z) :
  annotatable r ->
  r !! "pe" = Some (PInt pe) -> r !! "supp" = Some (PInt supp) ->
  r !! "spanning" = Some (PInt spanning) ->
  let out := get_raw_coverage_information intersecterpy find_overlap get_tid depth_table
               regions_depth calculate_coverage r in
  returns_call out = true ->
  or_empty out !! "su" = Some (PInt (pe + supp + spanning)) /\
  exists kind, or_empty out !! "kind" = Some (PStr kind) /\ In kind kinds.
Proof.
  intros Hr Hpe Hsupp Hspan out Hret.
  destruct (region_kind intersecterpy find_overlap r) as [[kind switch] |] eqn:Hk.
  2: { subst out. unfold get_raw_coverage_information in Hret. rewrite Hk in Hret.
       discriminate Hret. }
  destruct (annotation_returns r kind switch pe supp spanning Hr Hpe Hsupp Hspan Hk)
    as (out' & r1 & Hout & _ & Hkind & Hsu & _).
  subst out. rewrite Hout. cbn [or_empty]. split; [exact Hsu |].
  exists kind. split; [exact Hkind |]. exact (region_kind_in_kinds r kind switch Hk).
Qed.

End Orientation.

Lemma record_c10_annotatable : annotatable record_c10.
Proof.
  split; [| split].
  - exists 500, 200. split; vm_compute; reflexivity.
  - intros k Hk. unfold swapped_keys in Hk. rewrite list_elem_of_In in Hk. cbn in Hk.
    destruct Hk as [<- | [<- | [<- | [<- | [<- | [<- | [<- | [<- | []]]]]]]]];
      vm_compute; eauto.
  - exists 3, 2, 0. repeat split; vm_compute; reflexivity.
Qed.

Lemma extra_regional_is_never_swapped_witness :
  exists out,
    get_raw_coverage_information no_region no_overlap tid_zero unit no_depth unit_coverage
      record_c10 = Ok out /\
    out !! "kind" = Some (PStr "extra-regional") /\
    out !! "chrA" = Some (PInt 1) /\ out !! "posA" = Some (PInt 500) /\
    out !! "chrB" = Some (PInt 1) /\ out !! "posB" = Some (PInt 200) /\
    (forall k, k ∉ annotation_keys -> out !! k = record_c10 !! k).
Proof.
  apply (extra_regional_is_never_swapped no_region no_overlap tid_zero unit no_depth
           unit_coverage record_c10 (PInt 1) (PInt 1) 500 200);
    first [exact record_c10_annotatable | vm_compute; reflexivity].
Defined.

Lemma hemi_regional_puts_region_second_witness :
  exists out cA' cB' a' b',
    get_raw_coverage_information region_at_500 no_overlap tid_zero unit no_depth unit_coverage
      record_c10 = Ok out /\
    out !! "kind" = Some (PStr "hemi-regional") /\
    out !! "chrA" = Some cA' /\ out !! "posA" = Some (PInt a') /\
    out !! "chrB" = Some cB' /\ out !! "posB" = Some (PInt b') /\
    region_at_500 cA' a' (a' + 1) = false /\ region_at_500 cB' b' (b' + 1) = true.
Proof.
  apply (hemi_regional_puts_region_second region_at_500 no_overlap tid_zero unit no_depth
           unit_coverage record_c10 (PInt 1) (PInt 1) 500 200);
    first [exact record_c10_annotatable | vm_compute; reflexivity].
Defined.

Lemma intra_regional_orders_positions_witness :
  exists out,
    get_raw_coverage_information every_region one_interval tid_zero unit no_depth unit_coverage
      record_c10 = Ok out /\
    out !! "kind" = Some (PStr "intra_regional") /\
    out !! "posA" = Some (PInt (Z.min 500 200)) /\ out !! "posB" = Some (PInt (Z.max 500 200)).
Proof.
  apply (intra_regional_orders_positions every_region one_interval tid_zero unit no_depth
           unit_coverage record_c10 (PInt 1) (PInt 1) 500 200 (0, 1000000) [] []);
    first [exact record_c10_annotatable | vm_compute; reflexivity].
Defined.

Lemma annotation_writes_su_and_kind_witness :
  let out := get_raw_coverage_information region_at_500 no_overlap tid_zero unit no_depth
               unit_coverage record_c10 in
  returns_call out = true /\
  or_empty out !! "su" = Some (PInt (3 + 2 + 0)) /\
  exists kind, or_empty out !! "kind" = Some (PStr kind) /\ In kind kinds.
Proof.
  split; [vm_compute; reflexivity |].
  apply (annotation_writes_su_and_kind region_at_500 no_overlap tid_zero unit no_depth
           unit_coverage record_c10 3 2 0);
    first [exact record_c10_annotatable | vm_compute; reflexivity].
Defined.

(** ** Query coordinates *)

Lemma clipped_query_length_cons (opp slen : Z) (ct : cigar) :
  clipped_query_length ((opp, slen) :: ct) =
    (if (opp =? 0) || (opp =? 1) || (opp =? 4) || (opp =? 5) then slen else 0)
    + clipped_query_length ct.
Proof. reflexivity. Qed.

Lemma clipped_query_length_nonneg (ct : cigar) :
  Forall (fun c => 0 <= c.2) ct -> 0 <= clipped_query_length ct.
Proof.
  induction ct as [|[o l] ct IH]; intros Hct; [cbn; lia |].
  apply Forall_cons in Hct. destruct Hct as [Hl Hct]. cbn in Hl.
  rewrite clipped_query_length_cons. specialize (IH Hct).
  destruct ((o =? 0) || (o =? 1) || (o =? 4) || (o =? 5)); lia.
Qed.

Lemma query_scan_bounds (ct : cigar) :
  forall (start qend : Z) (i : bool),
  Forall (fun c => 0 <= c.2) ct -> 0 <= start <= qend ->
  let '(s, e) := query_scan ct start qend i in
  0 <= s <= e /\ e <= qend + clipped_query_length ct.
Proof.
  induction ct as [|[opp slen] ct IH]; intros start qend i Hct Hse.
  - cbn. lia.
  - apply Forall_cons in Hct. destruct Hct as [Hc Hct]. cbn in Hc.
    pose proof (clipped_query_length_nonneg ct Hct) as Hq.
    rewrite clipped_query_length_cons. cbn [query_scan].
    destruct (opp =? 0); cbn [orb].
    { specialize (IH start (qend + slen) true Hct ltac:(lia)).
      destruct (query_scan ct start (qend + slen) true). lia. }
    destruct ((opp =? 4) || (opp =? 5)) eqn:Hclip.
    { replace ((opp =? 1) || (opp =? 4) || (opp =? 5)) with true
        by (destruct (opp =? 1), (opp =? 4), (opp =? 5); cbn in *; congruence).
      destruct i; cbn [negb]; [lia |].
      specialize (IH (start + slen) (qend + slen) true Hct ltac:(lia)).
      destruct (query_scan ct (start + slen) (qend + slen) true). lia. }
    apply orb_false_iff in Hclip. destruct Hclip as [-> ->].
    destruct (opp =? 1); cbn [orb].
    { specialize (IH start (qend + slen) true Hct ltac:(lia)).
      destruct (query_scan ct start (qend + slen) true). lia. }
    specialize (IH start qend true Hct ltac:(lia)).
    destruct (query_scan ct start qend true). lia.
Qed.

(** X16.  On a cigar with no negative length the query interval is well formed:
    [0 <= start <= end], and [end] is at most the length of the [M], [I],
    [S] and [H] operations. *)
Theorem query_start_end_within_read (r : AlignedSegment) :
  Forall (fun c => 0 <= c.2) (cigartuples r) ->
  0 <= (query_start_end_from_cigartuples r).1
    <= (query_start_end_from_cigartuples r).2 /\
  (query_start_end_from_cigartuples r).2 <= clipped_query_length (cigartuples r).
Proof.
  intros Hct. unfold query_start_end_from_cigartuples.
  pose proof (query_scan_bounds (cigartuples r) 0 0 false Hct ltac:(lia)) as H.
  destruct (query_scan (cigartuples r) 0 0 false). cbn. lia.
Qed.

Lemma query_start_end_within_read_witness :
  0 <= (query_start_end_from_cigartuples read_supp).1
    <= (query_start_end_from_cigartuples read_supp).2 /\
  (query_start_end_from_cigartuples read_supp).2 <= clipped_query_length (cigartuples read_supp).
Proof.
  apply (query_start_end_within_read read_supp).
  repeat constructor; cbn; lia.
Defined.

(** Past the first operation, the scan adds the [M] and [I] lengths of
    the operations up to the next clip and stops there. *)
Lemma query_scan_body (body rest : cigar) :
  forall (start qend : Z),
  forallb (fun c => negb (clipped c)) body = true ->
  (rest = [] \/ exists c rest', rest = c :: rest' /\ clipped c = true) ->
  query_scan (body ++ rest)%list start qend true = (start, qend + consumed body).
Proof.
  induction body as [|[opp slen] body IH]; intros start qend Hb Hr.
  - cbn [app consumed fold_right]. destruct Hr as [-> | ([o l] & rest' & -> & Hc)].
    + cbn. f_equal. lia.
    + unfold clipped in Hc. cbn in Hc |- *.
      destruct (o =? 0) eqn:E0.
      { apply Z.eqb_eq in E0. subst o. discriminate Hc. }
      rewrite Hc. cbn. f_equal. lia.
  - cbn [forallb] in Hb. apply andb_true_iff in Hb. destruct Hb as [Hc Hb].
    unfold clipped in Hc. cbn in Hc. apply negb_true_iff in Hc.
    cbn [app query_scan consumed fold_right]. fold (consumed body). rewrite Hc.
    destruct (opp =? 0); cbn [orb]; [rewrite IH by assumption; f_equal; lia |].
    destruct (opp =? 1); rewrite IH by assumption; f_equal; lia.
Qed.

(** X17.  The query interval of an alignment, read off its cigar: a leading
    clip shifts the start by its length, the end lies past the start by
    the [M] and [I] lengths found before the next clip, and whatever
    follows that clip is not counted. *)
Theorem query_start_end_by_clips (r : AlignedSegment) (first : Z * Z) (body rest : cigar) :
  cigartuples r = first :: (body ++ rest)%list ->
  forallb (fun c => negb (clipped c)) body = true ->
  (rest = [] \/ exists c rest', rest = c :: rest' /\ clipped c = true) ->
  query_start_end_from_cigartuples r =
    if clipped first then (first.2, first.2 + consumed body)
    else (0, consumed (first :: body)).
Proof.
  intros Hct Hb Hr. unfold query_start_end_from_cigartuples. rewrite Hct.
  destruct first as [opp slen]. unfold clipped. cbn [query_scan fst snd negb].
  destruct (opp =? 0) eqn:E0.
  { apply Z.eqb_eq in E0. subst opp. cbn [Z.eqb orb].
    rewrite (query_scan_body body rest) by assumption. cbn. f_equal. }
  destruct ((opp =? 4) || (opp =? 5)) eqn:Hc.
  { rewrite (query_scan_body body rest) by assumption. reflexivity. }
  cbn [consumed fold_right]. fold (consumed body). rewrite E0. cbn [orb].
  destruct (opp =? 1); rewrite (query_scan_body body rest) by assumption; f_equal; lia.
Qed.

Lemma query_start_end_by_clips_witness :
  query_start_end_from_cigartuples
    {| qname := "t2"; flag := 65; cigartuples := [(4, 20); (0, 60); (1, 5); (0, 10); (4, 30)];
       mapq := 60; tag_DP := None; tag_DN := None; tag_DA := None; tag_NM := None;
       tag_AS := None; tag_SA := None |} =
    if clipped (4, 20) then ((4, 20).2, (4, 20).2 + consumed [(0, 60); (1, 5); (0, 10)])
    else (0, consumed ((4, 20) :: [(0, 60); (1, 5); (0, 10)])).
Proof.
  apply (query_start_end_by_clips
           {| qname := "t2"; flag := 65;
              cigartuples := [(4, 20); (0, 60); (1, 5); (0, 10); (4, 30)];
              mapq := 60; tag_DP := None; tag_DN := None; tag_DA := None; tag_NM := None;
              tag_AS := None; tag_SA := None |}
           (4, 20) [(0, 60); (1, 5); (0, 10)] [(4, 30)]).
  - reflexivity.
  - reflexivity.
  - right. exists (4, 30), []. split; reflexivity.
Defined.

(** X18.  [start_end_query_pair] hands back the interval of the first alignment
    as the cigar gives it, and an interval of the second that has the
    length the cigar gives; when the two are on the same read and on
    opposite strands that interval is mirrored about the read length
    ([L - end], [L - start]), and it is the cigar's own otherwise. *)
Theorem start_end_query_pair_mirrors (r1 r2 : Alignment) :
  let '(s1, e1, s2, e2) := start_end_query_pair r1 r2 in
  let q2 := query_start_end_from_cigartuples r2 in
  (s1, e1) = query_start_end_from_cigartuples r1 /\
  e2 - s2 = q2.2 - q2.1 /\
  (if same_read_bit r1 r2 && negb (Z.land (flag r2) 16 =? Z.land (flag r1) 16)
   then s2 = read_length r1 - q2.2 /\ e2 = read_length r1 - q2.1
   else (s2, e2) = q2).
Proof.
  unfold start_end_query_pair, same_read_bit.
  destruct (query_start_end_from_cigartuples r1) as [s1 e1].
  destruct (query_start_end_from_cigartuples r2) as [s2 e2].
  destruct (Z.land (flag r1) 64 =? Z.land (flag r2) 64); cbn [andb];
    [destruct (Z.land (flag r2) 16 =? Z.land (flag r1) 16) |]; cbn; repeat split; lia.
Qed.

(** ** Items built from a pair of alignments *)

(** The item of a pair whose cigars are not empty: the four flags of
    [mask_soft_clips] go into it as they are, and the second resolution of
    doubly clipped alignments finds nothing to do. *)
Lemma pair_item_built (a b : Alignment) (read_overlaps_mate : Z) :
  cigartuples a <> [] -> cigartuples b <> [] ->
  (read_overlaps_mate = 0 \/ read_overlaps_mate = 1) ->
  exists v left_clip_a right_clip_a left_clip_b right_clip_b,
    pair_item a b read_overlaps_mate = Ok v /\
    mask_soft_clips (flag a) (flag b) (cigartuples a) (cigartuples b)
      = Ok (left_clip_a, right_clip_a, left_clip_b, right_clip_b) /\
    v = new_AlignmentItem (rname a) (rname b)
          (of_bool (is_primary a)) (of_bool (is_primary b))
          (if truthy (Z.land (flag a) 64) then 1 else 2)
          (if truthy (Z.land (flag b) 64) then 1 else 2)
          (pos a) (reference_end a) (pos b) (reference_end b)
          (if Z.land (flag a) 16 =? 0 then 3 else 5)
          (if Z.land (flag b) 16 =? 0 then 3 else 5)
          left_clip_a right_clip_a left_clip_b right_clip_b
          (start_end_query_pair a b).1.1.1 (start_end_query_pair a b).1.1.2
          (start_end_query_pair a b).1.2 (start_end_query_pair a b).2
          read_overlaps_mate /\
    well_formed_item v.
Proof.
  intros Ha Hb Hrom.
  destruct (py_first_nonempty _ Ha) as [a0 Ea0], (py_last_nonempty _ Ha) as [a1 Ea1].
  destruct (py_first_nonempty _ Hb) as [b0 Eb0], (py_last_nonempty _ Hb) as [b1 Eb1].
  destruct (mask_soft_clips_flags (flag a) (flag b) _ _ a0 a1 b0 b1 Ea0 Ea1 Eb0 Eb1)
    as (la & ra & lb & rb & E & _ & _ & _ & _ & HA & HB & Hla & Hra & Hlb & Hrb).
  assert (HnA : ~ (la = 1 /\ ra = 1)) by (destruct (clipped a0 || clipped a1); cbn in HA; lia).
  assert (HnB : ~ (lb = 1 /\ rb = 1)) by (destruct (clipped b0 || clipped b1); cbn in HB; lia).
  unfold pair_item. destruct (start_end_query_pair a b) as [[[qa1 qa2] qb1] qb2].
  rewrite E. cbn [mbind res_bind fst snd].
  unfold new_AlignmentItem. cbn [left_clipA right_clipA].
  assert (EA : truthy la && truthy ra = false)
    by (destruct Hla as [-> | ->], Hra as [-> | ->]; try reflexivity; exfalso; auto).
  rewrite EA. cbn [mbind res_bind left_clipB right_clipB].
  assert (EB : truthy lb && truthy rb = false)
    by (destruct Hlb as [-> | ->], Hrb as [-> | ->]; try reflexivity; exfalso; auto).
  rewrite EB. cbn [mbind res_bind].
  eexists _, la, ra, lb, rb. split; [reflexivity |]. split; [reflexivity |].
  split; [reflexivity |].
  unfold well_formed_item, new_AlignmentItem, is_primary. cbn.
  repeat split; try assumption; try reflexivity.
  - destruct (truthy (Z.land (flag a) 2304)); cbn; auto.
  - destruct (truthy (Z.land (flag b) 2304)); cbn; auto.
  - destruct (truthy (Z.land (flag a) 64)); auto.
  - destruct (truthy (Z.land (flag b) 64)); auto.
  - destruct (Z.land (flag a) 16 =? 0); auto.
  - destruct (Z.land (flag b) 16 =? 0); auto.
Qed.

Lemma same_read_overlaps_mate_01 (a_chrom b_chrom a_start a_end b_start b_end : Z)
    (a b : AlignedSegment) :
  same_read_overlaps_mate a_chrom b_chrom a_start a_end b_start b_end a b = 0 \/
  same_read_overlaps_mate a_chrom b_chrom a_start a_end b_start b_end a b = 1.
Proof. unfold same_read_overlaps_mate. repeat split_if; auto. Qed.

(** X19.  [make_sv_alignment_item] returns on every pair of alignments with
    cigars, and the item is well formed: primary flags 0 or 1, read numbers
    1 or 2, strands 3 or 5, at most one clip on each side, nothing
    classified yet; its positions are those of the two alignments. *)
Theorem make_sv_alignment_item_well_formed (a b : Alignment) :
  cigartuples a <> [] -> cigartuples b <> [] ->
  exists v,
    make_sv_alignment_item a b = Ok v /\ well_formed_item v /\
    chrA v = rname a /\ chrB v = rname b /\
    posA v = pos a /\ endA v = reference_end a /\
    posB v = pos b /\ endB v = reference_end b.
Proof.
  intros Ha Hb. unfold make_sv_alignment_item.
  destruct (pair_item_built a b _ Ha Hb
              (same_read_overlaps_mate_01 (rname a) (rname b) (pos a) (reference_end a)
                 (pos b) (reference_end b) a b))
    as (v & la & ra & lb & rb & E & _ & -> & Hwf).
  eexists. split; [exact E |]. split; [exact Hwf |]. repeat split.
Qed.

Lemma make_sv_alignment_item_well_formed_witness :
  exists v,
    make_sv_alignment_item read_a1 read_a2 = Ok v /\ well_formed_item v /\
    chrA v = rname read_a1 /\ chrB v = rname read_a2 /\
    posA v = pos read_a1 /\ endA v = reference_end read_a1 /\
    posB v = pos read_a2 /\ endB v = reference_end read_a2.
Proof.
  apply (make_sv_alignment_item_well_formed read_a1 read_a2); discriminate.
Defined.

(** X20.  Every pair of alignments with cigars gets a type: the item built from
    it is classified with one of the seven types and one of the four join
    types. *)
Theorem every_pair_is_classified (a b : Alignment) :
  cigartuples a <> [] -> cigartuples b <> [] ->
  exists v,
    make_sv_alignment_item a b = Ok v /\
    In (svtype (classify_d v)) svtypes /\ In (join_type (classify_d v)) join_types.
Proof.
  intros Ha Hb. unfold make_sv_alignment_item.
  destruct (pair_item_built a b _ Ha Hb
              (same_read_overlaps_mate_01 (rname a) (rname b) (pos a) (reference_end a)
                 (pos b) (reference_end b) a b))
    as (v & la & ra & lb & rb & E & _ & _ & Hwf).
  exists v. split; [exact E |].
  destruct Hwf as (_ & _ & _ & _ & HsA & HsB & _).
  exact (proj2 (classify_d_classified v) HsA HsB).
Qed.

Lemma every_pair_is_classified_witness :
  exists v,
    make_sv_alignment_item read_a1 read_a2 = Ok v /\
    In (svtype (classify_d v)) svtypes /\ In (join_type (classify_d v)) join_types.
Proof.
  apply (every_pair_is_classified read_a1 read_a2); discriminate.
Defined.

(** ** Choice of the informative pair *)

Lemma informative_pair_inner_spec (ri_flag : Z) (v : list Alignment) :
  forall pri_v : option Alignment,
  match informative_pair_inner ri_flag v pri_v with
  | (Some j, _) => In j v /\ Z.land (flag (segment j)) 64 = ri_flag
  | (None, pri_v') =>
    (forall j, In j v -> Z.land (flag (segment j)) 64 <> ri_flag) /\
    (forall p, pri_v' = Some p -> (is_primary p = true /\ In p v) \/ pri_v = Some p) /\
    (pri_v' = None -> pri_v = None /\ forall j, In j v -> is_primary j = false)
  end.
Proof.
  induction v as [|j v IH]; intros pri_v; cbn [informative_pair_inner].
  - split; [intros j [] |]. split; [auto |]. intros ->. split; [reflexivity | intros j []].
  - destruct (Z.land (flag (segment j)) 64 =? ri_flag) eqn:Ej.
    + apply Z.eqb_eq in Ej. split; [now left | exact Ej].
    + apply Z.eqb_neq in Ej.
      specialize (IH (if negb (truthy (Z.land (flag (segment j)) 2304)) then Some j else pri_v)).
      destruct (informative_pair_inner ri_flag v _) as [[j' |] pri_v'].
      * destruct IH as [Hin Hb]. split; [now right | exact Hb].
      * destruct IH as (Hno & Hsome & Hnone). split; [| split].
        -- intros j0 [<- | Hj0]; [exact Ej | now apply Hno].
        -- intros p Hp. destruct (Hsome p Hp) as [[Hpp Hpin] | Hpj].
           ++ left. split; [exact Hpp | now right].
           ++ fold (is_primary j) in Hpj. destruct (is_primary j) eqn:Epj.
              ** injection Hpj as <-. left. split; [exact Epj | now left].
              ** now right.
        -- intros Hn. destruct (Hnone Hn) as [Hpv Hall].
           fold (is_primary j) in Hpv. destruct (is_primary j) eqn:Epj; [discriminate Hpv |].
           split; [exact Hpv |]. intros j0 [<- | Hj0]; [exact Epj | now apply Hall].
Qed.

Lemma informative_pair_outer_spec (u v : list Alignment) :
  forall (scanned : list Alignment) (pri_u pri_v : option Alignment),
  (forall p, pri_u = Some p -> is_primary p = true /\ In p scanned) ->
  (forall p, pri_v = Some p -> is_primary p = true /\ In p v) ->
  (forall i j, In i scanned -> In j v -> same_read_bit i j = false) ->
  (pri_u = None -> forall i, In i scanned -> is_primary i = false) ->
  (pri_v = None -> scanned <> [] -> forall j, In j v -> is_primary j = false) ->
  match informative_pair_outer u v pri_u pri_v with
  | Some (i, j) =>
    In i (scanned ++ u) /\ In j v /\
    (same_read_bit i j = true \/
     (is_primary i = true /\ is_primary j = true /\ same_read_bit i j = false))
  | None =>
    (forall i j, In i (scanned ++ u) -> In j v -> same_read_bit i j = false) /\
    ((forall i, In i (scanned ++ u) -> is_primary i = false) \/
     (forall j, In j v -> is_primary j = false))
  end.
Proof.
  induction u as [|i u IH]; intros scanned pri_u pri_v Hpu Hpv Hno Hnu Hnv;
    cbn [informative_pair_outer].
  - rewrite app_nil_r. destruct pri_u as [a |].
    + destruct (Hpu a eq_refl) as [Hpa Hina]. destruct pri_v as [b |].
      * destruct (Hpv b eq_refl) as [Hpb Hinb].
        split; [exact Hina |]. split; [exact Hinb |]. right. auto.
      * split; [exact Hno |]. right. apply (Hnv eq_refl). intros ->. destruct Hina.
    + destruct pri_v; (split; [exact Hno | left; exact (Hnu eq_refl)]).
  - pose proof (informative_pair_inner_spec (Z.land (flag (segment i)) 64) v pri_v) as Hin.
    destruct (informative_pair_inner (Z.land (flag (segment i)) 64) v pri_v) as [[j |] pri_v'].
    + destruct Hin as [Hj Hbit]. split; [apply in_or_app; right; now left |].
      split; [exact Hj |]. left. unfold same_read_bit. apply Z.eqb_eq. now symmetry.
    + destruct Hin as (Hnoi & Hsome & Hnone).
      fold (is_primary i).
      specialize (IH (scanned ++ [i])%list (if is_primary i then Some i else pri_u) pri_v').
      replace ((scanned ++ [i]) ++ u)%list with (scanned ++ i :: u)%list in IH
        by (rewrite <- app_assoc; reflexivity).
      apply IH; clear IH.
      * intros p Hp. destruct (is_primary i) eqn:Epi.
        -- injection Hp as <-. split; [exact Epi | apply in_or_app; right; now left].
        -- destruct (Hpu p Hp) as [H1 H2]. split; [exact H1 | apply in_or_app; now left].
      * intros p Hp. destruct (Hsome p Hp) as [H | H]; [exact H | now apply Hpv].
      * intros i0 j0 Hi0 Hj0. apply in_app_or in Hi0. destruct Hi0 as [Hi0 | [<- | []]].
        -- now apply Hno.
        -- unfold same_read_bit. apply Z.eqb_neq. intros E. now apply (Hnoi j0 Hj0).
      * intros Hn i0 Hi0. destruct (is_primary i) eqn:Epi; [discriminate Hn |].
        apply in_app_or in Hi0. destruct Hi0 as [Hi0 | [<- | []]];
          [now apply Hnu | exact Epi].
      * intros Hn _. exact (proj2 (Hnone Hn)).
Qed.

(** X21.  The pair [informative_pair] picks is made of an alignment of each
    side, and the two are either on the same read, or both primary and on
    different reads.  It picks none exactly when no two alignments of the
    two sides are on the same read and one of the sides has no primary
    alignment. *)
Theorem informative_pair_is_split_or_primaries (u v : list Alignment) :
  match informative_pair u v with
  | Some (i, j) =>
    In i u /\ In j v /\
    (same_read_bit i j = true \/
     (is_primary i = true /\ is_primary j = true /\ same_read_bit i j = false))
  | None =>
    (forall i j, In i u -> In j v -> same_read_bit i j = false) /\
    ((forall i, In i u -> is_primary i = false) \/
     (forall j, In j v -> is_primary j = false))
  end.
Proof.
  unfold informative_pair.
  apply (informative_pair_outer_spec u v [] None None); try discriminate.
  - intros i j [].
  - intros _ i [].
  - intros _ H. contradiction.
Qed.

(** ** The pair guessed for a template *)

Lemma py_index_in_range {A : Type} (l : list A) (i : Z) :
  0 <= i < Z.of_nat (length l) -> exists x, py_index l i = Ok x /\ In x l.
Proof.
  intros Hi. unfold py_index.
  replace (i <? 0) with false by (symmetry; apply Z.ltb_ge; lia).
  replace ((0 <=? i) && (i <? Z.of_nat (length l))) with true
    by (symmetry; apply andb_true_iff; split; [apply Z.leb_le | apply Z.ltb_lt]; lia).
  destruct (l !! Z.to_nat i) as [x |] eqn:E.
  - exists x. split; [reflexivity |]. apply list_elem_of_In. eapply list_elem_of_lookup_2. exact E.
  - apply lookup_ge_None in E. lia.
Qed.

Lemma spans_event_in_range (cigar_index : Z) (a : AlignedSegment) :
  spans_event cigar_index a = true ->
  0 <= cigar_index < Z.of_nat (length (cigartuples a)).
Proof.
  unfold spans_event. intros H. apply andb_true_iff in H. destruct H as [H1 H2].
  apply Z.ltb_lt in H1. apply Z.ltb_lt in H2. lia.
Qed.

Lemma guess_roles_spec (aligns : list (node_info * Alignment)) :
  roles_of aligns (guess_roles aligns).
Proof.
  unfold guess_roles.
  assert (H : forall (todo scanned : list (node_info * Alignment)) roles,
            roles_of scanned roles ->
            roles_of (scanned ++ todo)
              (fold_left (fun '(pri_first, sup_first, pri_second, sup_second) '(_, i) =>
                 if negb (truthy (Z.land (flag (segment i)) 2304)) then
                   if truthy (Z.land (flag (segment i)) 64)
                   then (Some i, sup_first, pri_second, sup_second)
                   else (pri_first, sup_first, Some i, sup_second)
                 else
                   if truthy (Z.land (flag (segment i)) 64)
                   then (pri_first, Some i, pri_second, sup_second)
                   else (pri_first, sup_first, pri_second, Some i))
                 todo roles)).
  { induction todo as [|[n i] todo IH]; intros scanned roles Hr.
    - rewrite app_nil_r. exact Hr.
    - cbn [fold_left].
      replace (scanned ++ (n, i) :: todo)%list with ((scanned ++ [(n, i)]) ++ todo)%list
        by (rewrite <- app_assoc; reflexivity).
      apply IH. destruct roles as [[[pf sf] ps] ss].
      assert (Hmono : forall j, (exists m, In (m, j) scanned) ->
                exists m, In (m, j) (scanned ++ [(n, i)])).
      { intros j [m Hm]. exists m. apply in_or_app. now left. }
      assert (Hi : exists m, In (m, i) (scanned ++ [(n, i)])).
      { exists n. apply in_or_app. right. now left. }
      cbv beta zeta delta [roles_of] in Hr |- *. destruct Hr as (H1 & H2 & H3 & H4).
      fold (is_primary i).
      destruct (is_primary i) eqn:Ep, (truthy (Z.land (flag (segment i)) 64)) eqn:Ef;
        cbn [negb]; (split; [| split; [| split]]); intros j Hj;
        first
          [ injection Hj as <-; (split; [exact Hi | split; assumption])
          | destruct (H1 j Hj) as (He & Hp & Hf); (split; [exact (Hmono j He) | split; assumption])
          | destruct (H2 j Hj) as (He & Hp & Hf); (split; [exact (Hmono j He) | split; assumption])
          | destruct (H3 j Hj) as (He & Hp & Hf); (split; [exact (Hmono j He) | split; assumption])
          | destruct (H4 j Hj) as (He & Hp & Hf); (split; [exact (Hmono j He) | split; assumption])
          ]. }
  apply (H aligns [] (None, None, None, None)).
  cbv beta zeta delta [roles_of]. (split; [| split; [| split]]); discriminate.
Qed.

Lemma land_64 (f : Z) : Z.land f 64 = 0 \/ Z.land f 64 = 64.
Proof.
  destruct (Z.testbit f 6) eqn:E; [right | left]; apply Z.bits_inj'; intros n Hn;
    rewrite Z.land_spec; change 64 with (2 ^ 6); rewrite Z.pow2_bits_eqb by lia;
    destruct (Z.eqb_spec 6 n) as [<- | Hne];
    rewrite ?E, ?andb_false_r, ?andb_true_r, ?Z.bits_0; try reflexivity.
Qed.

Lemma same_read_bit_truthy (a b : AlignedSegment) :
  same_read_bit a b = Bool.eqb (truthy (Z.land (flag a) 64)) (truthy (Z.land (flag b) 64)).
Proof.
  unfold same_read_bit, truthy.
  destruct (land_64 (flag a)) as [-> | ->], (land_64 (flag b)) as [-> | ->]; reflexivity.
Qed.

(** X22.  [guess_informative_pair] always returns.  From two alignments it
    returns a spanning tuple when one of them spans the event, and the two
    ordered by their event positions otherwise.  From any other number it
    returns nothing, or two alignments of the template ordered by position
    that are the two parts of a split read or the two primary mates. *)
Theorem guess_informative_pair_returns (aligns : list (node_info * Alignment)) :
  exists g,
    guess_informative_pair aligns = Ok g /\
    match g with
    | GuessPair a b =>
      exists na nb, In (na, a) aligns /\ In (nb, b) aligns /\
        if Nat.eqb (length aligns) 2 then
          n_event_pos na <= n_event_pos nb /\
          spans_event (n_cigar_index na) a = false /\ spans_event (n_cigar_index nb) b = false
        else
          pos a <= pos b /\
          ((same_read_bit a b = true /\ is_primary a <> is_primary b) \/
           (same_read_bit a b = false /\ is_primary a = true /\ is_primary b = true))
    | GuessSpanning (op, chrom, event_pos, stop, len, a) =>
      length aligns = 2%nat /\
      exists n, In (n, a) aligns /\ spans_event (n_cigar_index n) a = true /\
        In (op, len) (cigartuples a) /\
        chrom = rname a /\ event_pos = n_event_pos n /\
        stop = (if op =? 1 then event_pos + 1 else event_pos + len + 1)
    | GuessNone => length aligns <> 2%nat
    end.
Proof.
  assert (Hgen : length aligns <> 2%nat ->
    exists g,
      (let '(pri_first, sup_first, pri_second, sup_second) := guess_roles aligns in
       let ab :=
         match pri_first, sup_first, pri_second, sup_second with
         | Some p, Some s, _, _ => Some (p, s)
         | _, _, Some p, Some s => Some (p, s)
         | Some p, _, Some q, _ => Some (p, q)
         | _, _, _, _ => None
         end in
       match ab with
       | None => Ok GuessNone
       | Some (a, b) => if pos a <? pos b then Ok (GuessPair a b) else Ok (GuessPair b a)
       end) = Ok g /\
      match g with
      | GuessPair a b =>
        exists na nb, In (na, a) aligns /\ In (nb, b) aligns /\
          pos a <= pos b /\
          ((same_read_bit a b = true /\ is_primary a <> is_primary b) \/
           (same_read_bit a b = false /\ is_primary a = true /\ is_primary b = true))
      | GuessSpanning _ => False
      | GuessNone => True
      end).
  { intros Hlen. pose proof (guess_roles_spec aligns) as Hr.
    destruct (guess_roles aligns) as [[[pf sf] ps] ss].
    cbv beta zeta delta [roles_of] in Hr. destruct Hr as (H1 & H2 & H3 & H4).
    assert (Hpair : forall a b,
              (exists na, In (na, a) aligns) -> (exists nb, In (nb, b) aligns) ->
              ((same_read_bit a b = true /\ is_primary a <> is_primary b) \/
               (same_read_bit a b = false /\ is_primary a = true /\ is_primary b = true)) ->
              exists g,
                (if pos a <? pos b then Ok (GuessPair a b) else Ok (GuessPair b a)) = Ok g /\
                match g with
                | GuessPair a b =>
                  exists na nb, In (na, a) aligns /\ In (nb, b) aligns /\
                    pos a <= pos b /\
                    ((same_read_bit a b = true /\ is_primary a <> is_primary b) \/
                     (same_read_bit a b = false /\ is_primary a = true /\ is_primary b = true))
                | GuessSpanning _ => False
                | GuessNone => True
                end).
    { intros a b [na Hna] [nb Hnb] Hab. destruct (pos a <? pos b) eqn:E.
      - apply Z.ltb_lt in E. eexists. split; [reflexivity |].
        exists na, nb. repeat split; try assumption. lia.
      - apply Z.ltb_ge in E. eexists. split; [reflexivity |].
        exists nb, na. repeat split; try assumption.
        unfold same_read_bit in *. rewrite (Z.eqb_sym (Z.land (flag b) 64)).
        destruct Hab as [[Hs Hp] | (Hs & Hp1 & Hp2)]; [left | right]; auto. }
    destruct pf as [p |], sf as [s |], ps as [q |], ss as [t |];
      try (eexists; split; [reflexivity | exact I]);
      repeat match goal with
      | H : forall i, Some ?x = Some i -> _ |- _ =>
        let E := fresh "E" in
        let P := fresh "P" in
        let F := fresh "F" in
        destruct (H x eq_refl) as (E & P & F); clear H
      end;
      apply Hpair; try assumption;
      rewrite same_read_bit_truthy;
      repeat match goal with H : truthy _ = _ |- _ => rewrite H end;
      repeat match goal with H : is_primary _ = _ |- _ => rewrite H end;
      cbn; first [left; split; [reflexivity | discriminate] | right; auto]. }
  destruct aligns as [|[na a] [|[nb b] [|x rest]]];
    try (destruct Hgen as (g & E & Hg); [cbn; lia |];
         exists g; split; [exact E |];
         destruct g as [a0 b0 | t |]; [| contradiction | cbn; lia];
         destruct Hg as (n1 & n2 & ? & ? & ? & ?); exists n1, n2; cbn [length Nat.eqb]; auto).
  clear Hgen. cbn [guess_informative_pair length Nat.eqb].
  destruct (spans_event (n_cigar_index na) a) eqn:Ea.
  - destruct (py_index_in_range _ _ (spans_event_in_range _ _ Ea)) as ([op len] & E & Hin).
    unfold guess_spanning. rewrite E. cbn [mbind res_bind fst snd].
    eexists. split; [reflexivity |]. split; [reflexivity |].
    exists na. repeat split; try assumption. now left.
  - destruct (spans_event (n_cigar_index nb) b) eqn:Eb.
    + destruct (py_index_in_range _ _ (spans_event_in_range _ _ Eb)) as ([op len] & E & Hin).
      unfold guess_spanning. rewrite E. cbn [mbind res_bind fst snd].
      eexists. split; [reflexivity |]. split; [reflexivity |].
      exists nb. repeat split; try assumption. right. now left.
    + destruct (n_event_pos na <? n_event_pos nb) eqn:E.
      * apply Z.ltb_lt in E. eexists. split; [reflexivity |].
        exists na, nb. split; [now left |]. split; [right; now left |].
        repeat split; try assumption. lia.
      * apply Z.ltb_ge in E. eexists. split; [reflexivity |].
        exists nb, na. split; [right; now left |]. split; [now left |].
        repeat split; assumption.
Qed.

(** ** Grouping and counting *)

Lemma group_get_add {A : Type} (k k' : string) (x : A) (g : list (string * list A)) :
  group_get (group_add k' x g) k =
    if String.eqb k k' then Some (default [] (group_get g k) ++ [x])%list
    else group_get g k.
Proof.
  induction g as [|[k0 l] g IH]; cbn [group_add group_get].
  - destruct (String.eqb k k'); reflexivity.
  - destruct (String.eqb_spec k' k0) as [-> | Hne]; cbn [group_get].
    + destruct (String.eqb k k0); reflexivity.
    + destruct (String.eqb_spec k k0) as [-> | Hne'].
      * destruct (String.eqb_spec k0 k') as [<- | _]; [contradiction | reflexivity].
      * exact IH.
Qed.

Lemma group_fold_get {A : Type} (key : A -> string) (l : list A) (k : string) :
  forall g,
  group_get (fold_left (fun g x => group_add (key x) x g) l g) k =
    match group_get g k, List.filter (fun y => String.eqb (key y) k) l with
    | Some m0, m => Some (m0 ++ m)%list
    | None, [] => None
    | None, m => Some m
    end.
Proof.
  induction l as [|x l IH]; intros g; cbn [fold_left List.filter].
  - destruct (group_get g k); [now rewrite app_nil_r | reflexivity].
  - rewrite IH, group_get_add. rewrite (String.eqb_sym k (key x)).
    destruct (String.eqb (key x) k).
    + destruct (group_get g k) as [m0 |]; cbn [default].
      * now rewrite <- app_assoc.
      * reflexivity.
    + reflexivity.
Qed.

(** The group of a key is the list of the elements with that key, in
    their order. *)
Lemma defaultdict_get_group_by {A : Type} (key : A -> string) (l : list A) (k : string) :
  defaultdict_get (group_by key l) k = List.filter (fun y => String.eqb (key y) k) l.
Proof.
  unfold defaultdict_get, group_by. rewrite group_fold_get. cbn [group_get].
  destruct (List.filter _ l); reflexivity.
Qed.

Lemma group_get_group_by {A : Type} (key : A -> string) (l : list A) (k : string) :
  group_get (group_by key l) k =
    match List.filter (fun y => String.eqb (key y) k) l with
    | [] => None
    | m => Some m
    end.
Proof. unfold group_by. rewrite group_fold_get. reflexivity. Qed.

Lemma group_get_In {A : Type} (g : list (string * list A)) (k : string) (m : list A) :
  group_get g k = Some m -> In (k, m) g.
Proof.
  induction g as [|[k0 l] g IH]; cbn [group_get]; [discriminate |].
  destruct (String.eqb_spec k k0) as [-> | _].
  - intros [= ->]. now left.
  - intros H. right. exact (IH H).
Qed.

Lemma group_add_keys {A : Type} (k k' : string) (x : A) (g : list (string * list A)) :
  In k' (map fst (group_add k x g)) -> k' = k \/ In k' (map fst g).
Proof.
  induction g as [|[k0 l] g IH]; cbn [group_add].
  - intros [<- | []]. now left.
  - destruct (String.eqb_spec k k0) as [-> | _]; cbn [map fst In].
    + intros [<- | H]; auto.
    + intros [<- | H]; [auto |]. destruct (IH H); auto.
Qed.

Lemma group_by_keys {A : Type} (key : A -> string) (l : list A) (k : string) :
  In k (map fst (group_by key l)) -> exists x, In x l /\ key x = k.
Proof.
  unfold group_by.
  enough (H : forall g, In k (map fst (fold_left (fun g x => group_add (key x) x g) l g)) ->
            In k (map fst g) \/ exists x, In x l /\ key x = k).
  { intros Hk. destruct (H [] Hk) as [[] | Hx]. exact Hx. }
  induction l as [|x l IH]; intros g; cbn [fold_left]; [auto |].
  intros Hk. destruct (IH _ Hk) as [Hg | (y & Hy & Ey)].
  - destruct (group_add_keys _ _ _ _ Hg) as [-> | Hg']; [| auto].
    right. exists x. split; [now left | reflexivity].
  - right. exists y. split; [now right | exact Ey].
Qed.

Lemma counter_add_keys {K : Type} (eqb : K -> K -> bool) (k : K) (c : list (K * Z))
    (kn : K * Z) :
  In kn (counter_add eqb k c) -> kn.1 = k \/ In kn.1 (map fst c).
Proof.
  induction c as [|[k0 n] c IH]; cbn [counter_add].
  - intros [<- | []]. now left.
  - destruct (eqb k k0); cbn [In map fst].
    + intros [<- | H]; [auto |]. right. right. now apply (in_map fst) in H.
    + intros [<- | H]; [auto |]. destruct (IH H); auto.
Qed.

Lemma counter_add_nonempty {K : Type} (eqb : K -> K -> bool) (k : K) (c : list (K * Z)) :
  counter_add eqb k c <> [].
Proof. destruct c as [|[k0 n] c]; cbn [counter_add]; [| destruct (eqb k k0)]; discriminate. Qed.

Lemma Counter_keys {K : Type} (eqb : K -> K -> bool) (l : list K) (kn : K * Z) :
  In kn (Counter eqb l) -> In kn.1 l.
Proof.
  unfold Counter.
  enough (H : forall c, In kn (fold_left (fun c k => counter_add eqb k c) l c) ->
            In kn.1 (map fst c) \/ In kn.1 l).
  { intros Hk. destruct (H [] Hk) as [[] | Hx]. exact Hx. }
  induction l as [|x l IH]; intros c; cbn [fold_left].
  - intros H. left. now apply (in_map fst) in H.
  - intros Hk. destruct (IH _ Hk) as [Hc | Hl]; [| right; now right].
    apply list_elem_of_In, list_elem_of_fmap in Hc. destruct Hc as (kn' & E & Hc).
    apply list_elem_of_In in Hc. destruct (counter_add_keys _ _ _ _ Hc) as [E' | Hc'].
    + right. left. congruence.
    + left. congruence.
Qed.

Lemma Counter_nonempty {K : Type} (eqb : K -> K -> bool) (l : list K) :
  l <> [] -> Counter eqb l <> [].
Proof.
  unfold Counter.
  assert (H : forall l c, c <> [] -> fold_left (fun c k => counter_add eqb k c) l c <> []).
  { clear l. induction l as [|x l IH]; intros c Hc; cbn [fold_left]; [exact Hc |].
    apply IH, counter_add_nonempty. }
  destruct l as [|x l]; [congruence |]. intros _. cbn [fold_left].
  apply H, counter_add_nonempty.
Qed.

Lemma most_common_0_In {K : Type} (c : list (K * Z)) (x : K * Z) :
  most_common_0 c = Ok x -> In x c.
Proof.
  destruct c as [|x0 c]; cbn [most_common_0]; [discriminate |].
  intros [= <-].
  enough (H : forall best, fold_left (fun best y => if y.2 >? best.2 then y else best) c best
                           = best \/
                           In (fold_left (fun best y => if y.2 >? best.2 then y else best) c best) c).
  { destruct (H x0) as [-> | Hin]; [now left | now right]. }
  induction c as [|y c IH]; intros best; cbn [fold_left]; [now left |].
  destruct (IH (if y.2 >? best.2 then y else best)) as [-> | Hin].
  - destruct (y.2 >? best.2); [right; now left | now left].
  - right. now right.
Qed.

(** The most common key of a non-empty list is one of its elements. *)
Lemma most_common_of_list {K : Type} (eqb : K -> K -> bool) (l : list K) :
  l <> [] -> exists k n, most_common_0 (Counter eqb l) = Ok (k, n) /\ In k l.
Proof.
  intros Hl. pose proof (Counter_nonempty eqb l Hl) as Hc.
  destruct (most_common_0 (Counter eqb l)) as [[k n] |] eqn:E.
  - exists k, n. split; [reflexivity |].
    exact (Counter_keys eqb l (k, n) (most_common_0_In _ _ E)).
  - destruct (Counter eqb l); [congruence | discriminate E].
Qed.

Lemma for_each_app {A S : Type} (body : S -> A -> res S) (l1 l2 : list A) (st : S) :
  for_each body (l1 ++ l2) st = (st ← for_each body l1 st; for_each body l2 st).
Proof.
  revert st. induction l1 as [|x l1 IH]; intros st; cbn [for_each app mbind res_bind];
    [reflexivity |].
  destruct (body st x) as [st' |]; cbn [mbind res_bind]; [apply IH | reflexivity].
Qed.

(** A loop keeps what every run of its body keeps. *)
Lemma for_each_invariant {A S : Type} (body : S -> A -> res S) (Q : S -> Prop) (P : A -> Prop)
    (l : list A) :
  (forall st x st', P x -> body st x = Ok st' -> Q st -> Q st') ->
  (forall x, In x l -> P x) ->
  forall st st', for_each body l st = Ok st' -> Q st -> Q st'.
Proof.
  intros Hbody. induction l as [|x l IH]; intros HP st st'; cbn [for_each].
  - intros [= <-]. auto.
  - destruct (body st x) as [st1 |] eqn:E; cbn [mbind res_bind]; [| discriminate].
    intros Hl HQ. apply (IH (fun y Hy => HP y (or_intror Hy)) st1 st' Hl).
    exact (Hbody st x st1 (HP x (or_introl eq_refl)) E HQ).
Qed.

(** A loop returns when every run of its body does. *)
Lemma for_each_returns {A S : Type} (body : S -> A -> res S) (Q : S -> Prop) (P : A -> Prop)
    (l : list A) :
  (forall st x, P x -> Q st -> exists st', body st x = Ok st' /\ Q st') ->
  (forall x, In x l -> P x) ->
  forall st, Q st -> exists st', for_each body l st = Ok st' /\ Q st'.
Proof.
  intros Hbody. induction l as [|x l IH]; intros HP st HQ; cbn [for_each].
  - eauto.
  - destruct (Hbody st x (HP x (or_introl eq_refl)) HQ) as (st1 & E & HQ1).
    rewrite E. cbn [mbind res_bind]. apply (IH (fun y Hy => HP y (or_intror Hy)) st1 HQ1).
Qed.

(** What one run of the body establishes for good is true at the end. *)
Lemma for_each_establishes {A S : Type} (body : S -> A -> res S) (Q : S -> Prop)
    (l : list A) (x : A) :
  (forall st y st', body st y = Ok st' -> Q st -> Q st') ->
  (forall st st', body st x = Ok st' -> Q st') ->
  In x l ->
  forall st st', for_each body l st = Ok st' -> Q st'.
Proof.
  intros Hkeep Hx Hin st st' Hl.
  apply in_split in Hin. destruct Hin as (l1 & l2 & ->).
  rewrite for_each_app in Hl.
  destruct (for_each body l1 st) as [st1 |]; cbn [mbind res_bind for_each] in Hl;
    [| discriminate].
  destruct (body st1 x) as [st2 |] eqn:E; cbn [mbind res_bind] in Hl; [| discriminate].
  apply (for_each_invariant body Q (fun _ => True) l2 (fun st y st' _ => Hkeep st y st')
           (fun _ _ => I) st2 st' Hl).
  exact (Hx st1 st2 E).
Qed.

(** ** Calls from the reads of two clusters *)

Lemma informative_pair_In (u v : list Alignment) (a b : Alignment) :
  informative_pair u v = Some (a, b) -> In a u /\ In b v.
Proof.
  intros E. unfold informative_pair in E.
  pose proof (informative_pair_outer_spec u v [] None None) as H.
  rewrite E in H. cbn [app] in H.
  destruct H as (Ha & Hb & _); try discriminate; auto.
  - intros i j [].
  - intros _ i [].
  - intros _ H. contradiction.
Qed.

(** The pair the loop of [call_from_reads] takes from the two groups of a
    template. *)
Lemma chosen_pair_In (u v : list Alignment) (a b : Alignment) :
  match u, v with
  | [u_0], [v_0] => Some (u_0, v_0)
  | _, _ => informative_pair u v
  end = Some (a, b) ->
  In a u /\ In b v.
Proof.
  destruct u as [|u_0 [|u_1 u]]; try apply informative_pair_In.
  destruct v as [|v_0 [|v_1 v]]; try apply informative_pair_In.
  intros [= <- <-]. split; now left.
Qed.

Lemma record_item_typed (st : list AlignmentItem * list Z * list Z) (v : AlignmentItem) :
  typed_items st -> In (svtype v) svtypes /\ In (join_type v) join_types ->
  typed_items (record_item st v).
Proof.
  intros Hst Hv. destruct st as [[informative precise_a] precise_b].
  unfold typed_items, record_item in *. cbn [fst] in *.
  intros i Hi. apply in_app_or in Hi. destruct Hi as [Hi | [<- | []]]; auto.
Qed.

Lemma filter_qname_In (l : list Alignment) (k : string) (a : Alignment) :
  In a (List.filter (fun y : Alignment => String.eqb (qname y) k) l) ->
  In a l /\ qname a = k.
Proof.
  intros H. apply List.filter_In in H. destruct H as [H E].
  split; [exact H | now apply String.eqb_eq].
Qed.

Lemma call_from_reads_step_typed (u_reads v_reads : list Alignment)
    (st : list AlignmentItem * list Z * list Z) (qname_ : string) :
  (forall a, In a (u_reads ++ v_reads) -> cigartuples a <> []) ->
  typed_items st ->
  exists st',
    call_from_reads_step (group_by (fun r : Alignment => qname r) u_reads)
      (group_by (fun r : Alignment => qname r) v_reads) st qname_ = Ok st' /\
    typed_items st'.
Proof.
  intros Hct Hst. unfold call_from_reads_step. cbv zeta.
  rewrite !defaultdict_get_group_by.
  set (u := List.filter _ u_reads). set (v := List.filter _ v_reads).
  destruct (match u, v with
            | [u_0], [v_0] => Some (u_0, v_0)
            | _, _ => informative_pair u v
            end) as [[a b] |] eqn:E; [| eauto].
  apply chosen_pair_In in E. destruct E as [Ha Hb].
  apply filter_qname_In in Ha, Hb. destruct Ha as [Ha _], Hb as [Hb _].
  destruct (pair_item_built a b 0) as (v_item & la & ra & lb & rb & Ev & _ & _ & Hwf);
    [apply Hct, in_or_app; now left | apply Hct, in_or_app; now right | now left |].
  rewrite Ev. cbn [mbind res_bind]. eexists. split; [reflexivity |].
  apply record_item_typed; [exact Hst |].
  destruct Hwf as (_ & _ & _ & _ & HsA & HsB & _).
  exact (proj2 (classify_d_classified v_item) HsA HsB).
Qed.

Lemma call_from_reads_cases (u_reads v_reads : list Alignment)
    (insert_size insert_stdev : Z) :
  (forall a, In a (u_reads ++ v_reads) -> cigartuples a <> []) ->
  exists call,
    call_from_reads u_reads v_reads insert_size insert_stdev = Ok call /\
    (call = ∅ \/
     exists informative_0 rest precise_a precise_b svtype jointype,
       make_call (informative_0 :: rest) precise_a precise_b svtype jointype
         insert_size insert_stdev = Ok call /\
       In svtype svtypes /\ In jointype join_types).
Proof.
  intros Hct. unfold call_from_reads. cbv zeta.
  set (grp_u := group_by _ u_reads). set (grp_v := group_by _ v_reads).
  destruct (for_each_returns (call_from_reads_step grp_u grp_v) typed_items (fun _ => True)
              (List.filter (fun k => bool_decide (is_Some (group_get grp_v k))) (map fst grp_u)))
    with (st := ([] : list AlignmentItem, [] : list Z, [] : list Z))
    as ([[informative precise_a] precise_b] & E & Hst).
  - intros st k _ Hst. now apply call_from_reads_step_typed.
  - auto.
  - intros i [].
  - rewrite E. cbn [mbind res_bind].
    destruct informative as [|informative_0 rest]; [eauto |].
    destruct (most_common_of_list pair_eqb
                (map (fun i => (svtype i, join_type i)) (informative_0 :: rest)))
      as ([svtype_ jointype] & n & Em & Hin); [discriminate |].
    rewrite Em. cbn [mbind res_bind].
    destruct (make_call_total informative_0 rest precise_a precise_b svtype_ jointype
                insert_size insert_stdev) as (call & Hcall).
    destruct Hcall as (sides & a & ca & pa & b & cb & pb & svlen & Hcall & _).
    cbv zeta in Hcall. exists call. split; [exact Hcall |]. right.
    exists informative_0, rest, precise_a, precise_b, svtype_, jointype.
    split; [exact Hcall |].
    apply in_map_iff in Hin. destruct Hin as (i & [= <- <-] & Hi).
    exact (Hst i Hi).
Qed.

(** X23.  [call_from_reads] makes nothing of two clusters that share no
    template: it returns the empty dictionary. *)
Theorem call_from_reads_needs_shared_template (u_reads v_reads : list Alignment)
    (insert_size insert_stdev : Z) :
  (forall a b, In a u_reads -> In b v_reads -> qname a <> qname b) ->
  call_from_reads u_reads v_reads insert_size insert_stdev = Ok ∅.
Proof.
  intros Hno. unfold call_from_reads. cbv zeta.
  set (grp_u := group_by _ u_reads). set (grp_v := group_by _ v_reads).
  destruct (List.filter _ (map fst grp_u)) as [|k qnames] eqn:E; [reflexivity |].
  exfalso.
  assert (Hk : In k (k :: qnames)) by now left.
  rewrite <- E in Hk. apply List.filter_In in Hk. destruct Hk as [Hu Hv].
  apply group_by_keys in Hu. destruct Hu as (a & Ha & Eka).
  apply bool_decide_eq_true in Hv. subst grp_v. rewrite group_get_group_by in Hv.
  destruct (List.filter (fun y : Alignment => String.eqb (qname y) k) v_reads)
    as [|b m] eqn:Ef; [destruct Hv; discriminate |].
  assert (Hb : In b (b :: m)) by now left.
  rewrite <- Ef in Hb. apply filter_qname_In in Hb. destruct Hb as [Hb Ekb].
  apply (Hno a b Ha Hb). congruence.
Qed.

Lemma call_from_reads_needs_shared_template_witness :
  (forall a b, In a [read_a1] -> In b [read_t2] -> qname a <> qname b) /\
  call_from_reads [read_a1] [read_t2] 300 50 = Ok ∅.
Proof.
  assert (H : forall a b, In a [read_a1] -> In b [read_t2] -> qname a <> qname b).
  { intros a b [<- | []] [<- | []]. discriminate. }
  split; [exact H |].
  exact (call_from_reads_needs_shared_template [read_a1] [read_t2] 300 50 H).
Defined.

(** X24.  On reads that all have a cigar [call_from_reads] returns: the empty
    dictionary, or a call with the eleven fields whose type and join type
    are among those the classifier writes. *)
Theorem call_from_reads_vocabulary (u_reads v_reads : list Alignment)
    (insert_size insert_stdev : Z) :
  (forall a, In a (u_reads ++ v_reads) -> cigartuples a <> []) ->
  exists call,
    call_from_reads u_reads v_reads insert_size insert_stdev = Ok call /\
    (call = ∅ \/
     (dom call = call_keys /\
      exists svtype jointype,
        call !! "svtype" = Some (PStr svtype) /\ In svtype svtypes /\
        call !! "join_type" = Some (PStr jointype) /\ In jointype join_types)).
Proof.
  intros Hct.
  destruct (call_from_reads_cases u_reads v_reads insert_size insert_stdev Hct)
    as (call & E & [-> | Hc]).
  - exists ∅. auto.
  - destruct Hc as (informative_0 & rest & precise_a & precise_b & svtype_ & jointype
                    & Hcall & Hs & Hj).
    exists call. split; [exact E |]. right.
    destruct (make_call_returns informative_0 rest precise_a precise_b svtype_ jointype
                insert_size insert_stdev) as (call' & Hcall' & Hdom & Hsv & Hjt & _).
    assert (call' = call) as -> by congruence.
    split; [exact Hdom |]. exists svtype_, jointype. auto.
Qed.

Lemma call_from_reads_vocabulary_witness :
  (forall a, In a ([read_a1] ++ [read_a2])%list -> cigartuples a <> []) /\
  exists call,
    call_from_reads [read_a1] [read_a2] 300 50 = Ok call /\
    (call = ∅ \/
     (dom call = call_keys /\
      exists svtype jointype,
        call !! "svtype" = Some (PStr svtype) /\ In svtype svtypes /\
        call !! "join_type" = Some (PStr jointype) /\ In jointype join_types)).
Proof.
  assert (H : forall a, In a ([read_a1] ++ [read_a2])%list -> cigartuples a <> []).
  { intros a [<- | [<- | []]]; discriminate. }
  split; [exact H |].
  exact (call_from_reads_vocabulary [read_a1] [read_a2] 300 50 H).
Defined.

Lemma pair_item_strands (a b : Alignment) (read_overlaps_mate : Z) (v : AlignmentItem) :
  pair_item a b read_overlaps_mate = Ok v ->
  (strandA v = 3 \/ strandA v = 5) /\ (strandB v = 3 \/ strandB v = 5).
Proof.
  unfold pair_item. destruct (start_end_query_pair a b) as [[[qa1 qa2] qb1] qb2].
  destruct (mask_soft_clips _ _ _ _) as [[[[la ra] lb] rb] |]; [| discriminate].
  cbn [mbind res_bind]. unfold new_AlignmentItem. cbn [left_clipA right_clipA].
  assert (HA : (Z.land (flag a) 16 =? 0) = true \/ (Z.land (flag a) 16 =? 0) = false)
    by (destruct (Z.land (flag a) 16 =? 0); auto).
  assert (HB : (Z.land (flag b) 16 =? 0) = true \/ (Z.land (flag b) 16 =? 0) = false)
    by (destruct (Z.land (flag b) 16 =? 0); auto).
  destruct (truthy la && truthy ra);
    [ destruct (py_first (cigartuples a)) as [a_0 |]; [| discriminate];
      destruct (py_last (cigartuples a)) as [a_1 |]; [| discriminate];
      cbn [mbind res_bind]; destruct (a_0.2 >=? a_1.2) |];
    cbn [mbind res_bind set_right_clipA set_left_clipA left_clipB right_clipB];
    (destruct (truthy lb && truthy rb);
     [ destruct (py_first (cigartuples b)) as [b_0 |]; [| discriminate];
       destruct (py_last (cigartuples b)) as [b_1 |]; [| discriminate];
       cbn [mbind res_bind]; destruct (b_0.2 >=? b_1.2) |]);
    cbn [mbind res_bind]; intros [= <-]; cbn [strandA strandB set_right_clipB set_left_clipB];
    destruct HA as [-> | ->], HB as [-> | ->]; auto.
Qed.

Lemma classified_pair_typed (a b : Alignment) (read_overlaps_mate : Z) (v : AlignmentItem) :
  pair_item a b read_overlaps_mate = Ok v ->
  In (svtype (classify_d v)) svtypes /\ In (join_type (classify_d v)) join_types.
Proof.
  intros E. destruct (pair_item_strands a b read_overlaps_mate v E) as [HA HB].
  exact (proj2 (classify_d_classified v) HA HB).
Qed.

Lemma call_from_reads_step_Ok (grp_u grp_v : list (string * list Alignment))
    (st st' : list AlignmentItem * list Z * list Z) (qname_ : string) :
  call_from_reads_step grp_u grp_v st qname_ = Ok st' -> typed_items st -> typed_items st'.
Proof.
  unfold call_from_reads_step. cbv zeta.
  destruct (match defaultdict_get grp_u qname_, defaultdict_get grp_v qname_ with
            | [u_0], [v_0] => Some (u_0, v_0)
            | _, _ => informative_pair (defaultdict_get grp_u qname_)
                        (defaultdict_get grp_v qname_)
            end) as [[a b] |]; [| intros [= <-]; auto].
  destruct (pair_item a b 0) as [v_item |] eqn:E; [| discriminate].
  cbn [mbind res_bind]. intros [= <-] Hst.
  apply record_item_typed; [exact Hst |]. exact (classified_pair_typed a b 0 v_item E).
Qed.

(** What [call_from_reads] returns, when it returns: nothing, or the call
    [make_call] makes of a non-empty list of hypotheses for a type and a
    join type of the two vocabularies. *)
Lemma call_from_reads_Ok (u_reads v_reads : list Alignment)
    (insert_size insert_stdev : Z) (call : gmap string pyval) :
  call_from_reads u_reads v_reads insert_size insert_stdev = Ok call ->
  call = ∅ \/
  exists informative_0 rest precise_a precise_b svtype jointype,
    make_call (informative_0 :: rest) precise_a precise_b svtype jointype
      insert_size insert_stdev = Ok call /\
    In svtype svtypes /\ In jointype join_types.
Proof.
  unfold call_from_reads. cbv zeta.
  set (grp_u := group_by _ u_reads). set (grp_v := group_by _ v_reads).
  destruct (for_each _ _ _) as [[[informative precise_a] precise_b] |] eqn:E;
    [| discriminate].
  cbn [mbind res_bind].
  pose proof (for_each_invariant (call_from_reads_step grp_u grp_v) typed_items
                (fun _ => True) _
                (fun st x st' _ => call_from_reads_step_Ok grp_u grp_v st st' x)
                (fun _ _ => I) _ _ E) as Hst.
  destruct informative as [|informative_0 rest]; [intros [= <-]; now left |].
  destruct (most_common_of_list pair_eqb
              (map (fun i => (svtype i, join_type i)) (informative_0 :: rest)))
    as ([svtype_ jointype] & n & Em & Hin); [discriminate |].
  rewrite Em. cbn [mbind res_bind]. intros Hcall. right.
  exists informative_0, rest, precise_a, precise_b, svtype_, jointype.
  split; [exact Hcall |].
  apply in_map_iff in Hin. destruct Hin as (i & [= <- <-] & Hi).
  apply Hst; [intros i0 [] | exact Hi].
Qed.

(** ** The two paths past the consensus *)

Lemma call_keys_list (k : string) :
  k ∈ call_keys ->
  In k ["svtype"; "join_type"; "chrA"; "chrB"; "cipos95A"; "cipos95B";
        "posA"; "posB"; "preciseA"; "preciseB"; "svlen"].
Proof. unfold call_keys. rewrite elem_of_list_to_set, list_elem_of_In. auto. Qed.

Lemma call_keys_literal (k : string) :
  In k ["svtype"; "join_type"; "chrA"; "chrB"; "cipos95A"; "cipos95B";
        "posA"; "posB"; "preciseA"; "preciseB"; "svlen"] ->
  k ∈ call_keys.
Proof. unfold call_keys. rewrite elem_of_list_to_set, list_elem_of_In. auto. Qed.

Lemma finished_insert (info m : gmap string pyval) (k : string) (v : pyval) :
  ~ In k ["svtype"; "join_type"; "chrA"; "chrB"; "cipos95A"; "cipos95B";
          "posA"; "posB"; "preciseA"; "preciseB"; "svlen"; "pe"; "supp"; "spanning"] ->
  finished info m -> finished info (<[k := v]> m).
Proof.
  intros Hk (Hkeeps & pe & supp & spanning & Hpe & Hsupp & Hspan). split.
  - intros k0 Hk0. rewrite lookup_insert_ne; [now apply Hkeeps |].
    intros ->. apply Hk. apply call_keys_list in Hk0. cbn in Hk0 |- *. intuition.
  - exists pe, supp, spanning.
    rewrite !lookup_insert_ne by (intros ->; apply Hk; cbn; auto 20). auto.
Qed.

(** The union [info.update(attrs)] of a call and an aggregate. *)
Lemma finished_union (attrs info : gmap string pyval) (pe supp spanning : Z) :
  dom attrs = attr_keys ->
  attrs !! "pe" = Some (PInt pe) -> attrs !! "supp" = Some (PInt supp) ->
  attrs !! "spanning" = Some (PInt spanning) ->
  finished info (attrs ∪ info).
Proof.
  intros Hdom Hpe Hsupp Hspan. split.
  - intros k Hk. apply lookup_union_r, not_elem_of_dom. rewrite Hdom.
    unfold attr_keys. rewrite elem_of_list_to_set, list_elem_of_In.
    apply call_keys_list in Hk. cbn in Hk |- *.
    each_key Hk; intuition discriminate.
  - exists pe, supp, spanning. repeat split; apply lookup_union_Some_l; assumption.
Qed.

Lemma finished_annotatable (info out : gmap string pyval) (a b : Z) :
  finished info out ->
  info !! "posA" = Some (PInt a) -> info !! "posB" = Some (PInt b) ->
  (forall k, In k ["chrA"; "cipos95A"; "chrB"; "cipos95B"] -> is_Some (info !! k)) ->
  is_Some (out !! "contig") -> is_Some (out !! "contig2") ->
  annotatable out.
Proof.
  intros [Hkeeps Hsu] Ha Hb Hkeys Hc Hc2.
  assert (HA : out !! "posA" = Some (PInt a))
    by (rewrite Hkeeps; [exact Ha | apply call_keys_literal; cbn; auto 20]).
  assert (HB : out !! "posB" = Some (PInt b))
    by (rewrite Hkeeps; [exact Hb | apply call_keys_literal; cbn; auto 20]).
  split; [eauto |]. split; [| exact Hsu].
  intros k Hk. unfold swapped_keys in Hk. rewrite list_elem_of_In in Hk. cbn in Hk.
  destruct Hk as [<- | [<- | [<- | [<- | [<- | [<- | [<- | [<- | []]]]]]]]];
    try assumption; try (rewrite HA; eauto); try (rewrite HB; eauto);
    (rewrite Hkeeps; [apply Hkeys; cbn; auto 10 | apply call_keys_literal; cbn; auto 20]).
Qed.

Lemma dom_insert_present (m : gmap string pyval) (k : string) (v x : pyval) :
  m !! k = Some x -> dom (<[k := v]> m) = dom m.
Proof.
  intros H. rewrite dom_insert_L.
  apply subseteq_union_1_L, singleton_subseteq_l, elem_of_dom. eauto.
Qed.

Lemma returns_call_Ok (m : res (gmap string pyval)) :
  returns_call m = true -> m = Ok (or_empty m) /\ or_empty m <> ∅.
Proof.
  destruct m as [d |]; cbn; [| discriminate].
  intros H. split; [reflexivity |]. intros ->. discriminate H.
Qed.

Section Tails.

Variable base_assemble : list AlignedSegment -> pyval -> Z -> option assembly.

(** A record that went through the closing statements of either path. *)
Ltac closing_record :=
  repeat match goal with
  | |- context [match ?x with Some _ => _ | None => _ end] => destruct x
  | |- context [if ?c then _ else _] => destruct c
  end;
  intros [= <-];
  (split; [| split; [| split; [| reflexivity]]]);
  first [ repeat (apply finished_insert; [not_in_lit |]); assumption
        | by simplify_map_eq ].

(** What [single] returns past its consensus, when it is a call: the call
    with its support counts and the two contig fields, and this in basic
    mode only. *)
Lemma single_tail_finished (info out : gmap string pyval)
    (informative_reads u_reads v_reads : list AlignedSegment)
    (spanning_alignments : list spanning_tuple)
    (min_found_support min_support to_assemble extended_tags : Z) :
  single_tail base_assemble info informative_reads u_reads v_reads spanning_alignments
    min_found_support min_support to_assemble extended_tags = Ok out ->
  out <> ∅ ->
  finished info out /\ is_Some (out !! "contig") /\ is_Some (out !! "contig2") /\
  truthy extended_tags = false.
Proof.
  intros Hout Hne. unfold single_tail in Hout.
  destruct (getitem info "svtype") as [svtype |]; [| discriminate Hout].
  cbn [mbind res_bind] in Hout. unfold count_attributes in Hout.
  destruct (truthy extended_tags) eqn:Hext.
  { destruct (extended_attrs_empty_or_KeyError informative_reads []
                (map snd spanning_alignments) min_support svtype) as [E | E];
      rewrite E in Hout; discriminate Hout. }
  pose proof (normal_attrs_cases informative_reads [] (map snd spanning_alignments)
                min_support svtype) as Hn.
  cbv zeta in Hn. destruct (forallb has_aligned_bases _).
  2: { rewrite Hn in Hout. discriminate Hout. }
  destruct Hn as (attrs & pe & E & Hdom & _ & _ & _ & _ & Hsupp & Hsc & Hspan & Hpe & _).
  rewrite E in Hout. cbn [mbind res_bind] in Hout.
  rewrite (getint_Some _ _ _ Hpe), (getint_Some _ _ _ Hsupp), (getint_Some _ _ _ Hspan) in Hout.
  cbn [mbind res_bind] in Hout.
  set (supp := count_reads _ _ + 2 * count_reads _ _) in *.
  set (spanning := Z.of_nat (length (map snd spanning_alignments))) in *.
  set (sc := count_reads soft_clipped _) in *.
  set (pe' := if min_found_support >? pe + supp + 2 * spanning then min_found_support else pe).
  set (attrs' := if min_found_support >? pe + supp + 2 * spanning then _ else attrs) in Hout.
  assert (Hpe' : attrs' !! "pe" = Some (PInt pe')).
  { subst attrs' pe'. destruct (min_found_support >? pe + supp + 2 * spanning);
      by simplify_map_eq. }
  assert (Hsupp' : attrs' !! "supp" = Some (PInt supp)).
  { subst attrs'. destruct (min_found_support >? pe + supp + 2 * spanning);
      by simplify_map_eq. }
  assert (Hsc' : attrs' !! "sc" = Some (PInt sc)).
  { subst attrs'. destruct (min_found_support >? pe + supp + 2 * spanning);
      by simplify_map_eq. }
  assert (Hspan' : attrs' !! "spanning" = Some (PInt spanning)).
  { subst attrs'. destruct (min_found_support >? pe + supp + 2 * spanning);
      by simplify_map_eq. }
  assert (Hdom' : dom attrs' = attr_keys).
  { subst attrs'. destruct (min_found_support >? pe + supp + 2 * spanning); [| exact Hdom].
    now rewrite (dom_insert_present _ _ _ _ Hpe). }
  clearbody attrs'.
  rewrite (size_lookup_Some _ _ _ Hpe') in Hout.
  rewrite (getint_Some _ _ _ Hpe'), (getint_Some _ _ _ Hsupp'), (getint_Some _ _ _ Hspan')
    in Hout.
  cbn [mbind res_bind] in Hout.
  pose proof (finished_union attrs' info pe' supp spanning Hdom' Hpe' Hsupp' Hspan') as Hfin.
  assert (Hkeep : forall (P : gmap string pyval -> Prop) (keep : bool),
            (forall m, finished info m -> is_Some (m !! "contig") -> is_Some (m !! "contig2") ->
               P m) ->
            (if negb keep then Ok ∅ else
               let info := attrs' ∪ info in
               let n_spanning := Z.of_nat (length spanning_alignments) in
               '(as1, as2) ←
                 (if truthy to_assemble || (0 <? n_spanning) then
                    as1 ← assemble_if base_assemble info "preciseA" "posA" u_reads;
                    as2 ← assemble_if base_assemble info "preciseB" "posB" v_reads;
                    Ok (as1, as2)
                  else Ok (None : option assembly, None : option assembly));
               let info := <["linked" := PInt 0]> info in
               let info := <["block_edge" := PInt 0]> info in
               let info := <["contig" := PNone]> info in
               let info := <["contig2" := PNone]> info in
               let rbases := 0 in
               let '(info, rbases) :=
                 match as1 with
                 | Some a1 =>
                   if truthy (left_clips a1) || truthy (right_clips a1) || (0 <? n_spanning)
                   then (<["contig" := contig a1]> info, rbases + ref_bases a1)
                   else (info, rbases)
                 | None => (info, rbases)
                 end in
               let '(info, rbases) :=
                 match as2 with
                 | Some a2 =>
                   if truthy (left_clips a2) || truthy (right_clips a2)
                   then (<["contig2" := contig a2]> info, rbases + ref_bases a2)
                   else (info, rbases)
                 | None => (info, rbases)
                 end in
               Ok (<["ref_bases" := PInt rbases]> info)) = Ok out -> P out).
  { intros P keep HP. destruct keep; cbn [negb]; [| intros [= <-]; congruence].
    cbv zeta.
    destruct (truthy to_assemble || (0 <? Z.of_nat (length spanning_alignments)));
    [ destruct (assemble_if base_assemble (attrs' ∪ info) "preciseA" "posA" u_reads)
        as [as1 |]; [| discriminate];
      destruct (assemble_if base_assemble (attrs' ∪ info) "preciseB" "posB" v_reads)
        as [as2 |]; [| discriminate];
      cbn [mbind res_bind]
    | cbn [mbind res_bind] ];
    repeat match goal with
    | |- context [match ?x with Some _ => _ | None => _ end] => destruct x
    | |- context [if ?c then _ else _] => destruct c
    end;
    intros [= <-]; apply HP;
    first [ repeat (apply finished_insert; [not_in_lit |]); assumption
          | by simplify_map_eq ]. }
  assert (Hall : finished info out /\ is_Some (out !! "contig") /\ is_Some (out !! "contig2")).
  { revert Hout.
    destruct (pe' + supp + 2 * spanning <? min_support);
    [ destruct (py_eq svtype (PStr "INS"));
      [ rewrite (getint_Some _ _ _ Hsc'); cbn [mbind res_bind] | cbn [mbind res_bind] ]
    | cbn [mbind res_bind] ];
    apply (Hkeep (fun m => finished info m /\ is_Some (m !! "contig")
                           /\ is_Some (m !! "contig2"))); auto. }
  destruct Hall as (H1 & H2 & H3). auto.
Qed.

(** The same for [one_edge]. *)
Lemma one_edge_tail_finished (info out : gmap string pyval)
    (u_reads v_reads : list AlignedSegment) (spanning_alignments : list spanning_tuple)
    (min_support block_edge assemble extended_tags : Z) :
  one_edge_tail base_assemble info u_reads v_reads spanning_alignments
    min_support block_edge assemble extended_tags = Ok out ->
  out <> ∅ ->
  finished info out /\ is_Some (out !! "contig") /\ is_Some (out !! "contig2") /\
  truthy extended_tags = false.
Proof.
  intros Hout Hne. unfold one_edge_tail in Hout.
  destruct (getitem info "svtype") as [svtype |]; [| discriminate Hout].
  cbn [mbind res_bind] in Hout. unfold count_attributes in Hout.
  destruct (truthy extended_tags) eqn:Hext.
  { destruct (extended_attrs_empty_or_KeyError u_reads v_reads
                (map snd spanning_alignments) min_support svtype) as [E | E];
      rewrite E in Hout; [| discriminate Hout].
    cbn [mbind res_bind] in Hout. rewrite map_size_empty in Hout.
    cbn [Nat.eqb mbind res_bind] in Hout. injection Hout as <-. congruence. }
  pose proof (normal_attrs_cases u_reads v_reads (map snd spanning_alignments)
                min_support svtype) as Hn.
  cbv zeta in Hn. destruct (forallb has_aligned_bases _).
  2: { rewrite Hn in Hout. discriminate Hout. }
  destruct Hn as (attrs & pe & E & Hdom & _ & _ & _ & _ & Hsupp & Hsc & Hspan & Hpe & _).
  rewrite E in Hout. cbn [mbind res_bind] in Hout.
  rewrite (size_lookup_Some _ _ _ Hpe) in Hout.
  rewrite (getint_Some _ _ _ Hpe), (getint_Some _ _ _ Hsupp) in Hout.
  cbn [mbind res_bind] in Hout.
  pose proof (finished_union attrs info pe _ _ Hdom Hpe Hsupp Hspan) as Hfin.
  revert Hout.
  destruct (_ <? min_support); [intros [= <-]; congruence |].
  destruct (truthy assemble).
  - destruct (assemble_if base_assemble (attrs ∪ info) "preciseA" "posA" u_reads)
      as [as1 |]; [| discriminate].
    destruct (assemble_if base_assemble (attrs ∪ info) "preciseB" "posB" v_reads)
      as [as2 |]; [| discriminate].
    cbn [mbind res_bind]. closing_record.
  - cbn [mbind res_bind]. closing_record.
Qed.

End Tails.

(** ** The edge path and the singleton path, from the reads to the call *)

Lemma spanning_info_fields (svtype_m chrom posA posB posA_95 posB_95 svlen : Z) :
  let info := spanning_info svtype_m chrom posA posB posA_95 posB_95 svlen in
  info !! "svtype" = Some (PStr (if svtype_m =? 2 then "DEL" else "INS")) /\
  info !! "join_type" = Some (PStr "3to5") /\
  info !! "chrA" = Some (PInt chrom) /\ info !! "chrB" = Some (PInt chrom) /\
  info !! "posA" = Some (PInt posA) /\ info !! "posB" = Some (PInt posB) /\
  info !! "cipos95A" = Some (PInt posA_95) /\ info !! "cipos95B" = Some (PInt posB_95) /\
  info !! "preciseA" = Some (PBool true) /\ info !! "preciseB" = Some (PBool true) /\
  info !! "svlen" = Some (PInt svlen).
Proof. unfold spanning_info. cbv zeta. repeat split; by simplify_map_eq. Qed.

(** A field of the call is read in the finished record. *)
Ltac kept Hfin :=
  rewrite (proj1 Hfin) by (apply call_keys_literal; cbn; auto 20).

Lemma finished_typed (info out : gmap string pyval) (svtype jointype : string) :
  finished info out ->
  info !! "svtype" = Some (PStr svtype) -> In svtype svtypes ->
  info !! "join_type" = Some (PStr jointype) -> In jointype join_types ->
  typed_call out.
Proof.
  intros Hfin Hs Hsin Hj Hjin. exists svtype, jointype.
  repeat split; try assumption; kept Hfin; assumption.
Qed.

(** A finished record of a call made from spanning alignments. *)
Lemma finished_spanning (out : gmap string pyval)
    (svtype_m chrom posA posB posA_95 posB_95 svlen : Z) :
  finished (spanning_info svtype_m chrom posA posB posA_95 posB_95 svlen) out ->
  is_Some (out !! "contig") -> is_Some (out !! "contig2") ->
  annotatable out /\ typed_call out /\ spanning_call out /\
  out !! "posA" = Some (PInt posA) /\ out !! "posB" = Some (PInt posB) /\
  out !! "svlen" = Some (PInt svlen).
Proof.
  intros Hfin Hc Hc2.
  destruct (spanning_info_fields svtype_m chrom posA posB posA_95 posB_95 svlen)
    as (Hs & Hj & HcA & HcB & HpA & HpB & HiA & HiB & HprA & HprB & Hl).
  cbv zeta in *.
  split; [| split; [| split; [| split; [| split]]]].
  - apply (finished_annotatable _ out posA posB Hfin HpA HpB); try assumption.
    intros k Hk. cbn in Hk. destruct Hk as [<- | [<- | [<- | [<- | []]]]]; eauto.
  - apply (finished_typed _ out _ "3to5" Hfin Hs); [| exact Hj | in_list].
    destruct (svtype_m =? 2); in_list.
  - unfold spanning_call. repeat split.
    + kept Hfin. rewrite Hs. destruct (svtype_m =? 2); auto.
    + kept Hfin. exact Hj.
    + exists chrom. split; kept Hfin; assumption.
    + kept Hfin. exact HprA.
    + kept Hfin. exact HprB.
  - kept Hfin. exact HpA.
  - kept Hfin. exact HpB.
  - kept Hfin. exact Hl.
Qed.

(** A finished record of a call made by [make_call]. *)
Lemma finished_make_call (out info : gmap string pyval)
    (informative_0 : AlignmentItem) (rest : list AlignmentItem)
    (precise_a precise_b : list Z) (svtype jointype : string) (insert_size insert_stdev : Z) :
  make_call (informative_0 :: rest) precise_a precise_b svtype jointype
    insert_size insert_stdev = Ok info ->
  In svtype svtypes -> In jointype join_types ->
  finished info out ->
  is_Some (out !! "contig") -> is_Some (out !! "contig2") ->
  annotatable out /\ typed_call out.
Proof.
  intros Hcall Hs Hj Hfin Hc Hc2.
  destruct (make_call_total informative_0 rest precise_a precise_b svtype jointype
              insert_size insert_stdev)
    as (call & sides & posA & ciA & prA & posB & ciB & prB & svlen
        & Hcall' & _ & _ & _ & _ & Hsv & Hjt & HchrA & HchrB & HposA & HposB & HciA & HciB & _).
  cbv zeta in Hcall'. assert (call = info) as -> by congruence.
  split.
  - apply (finished_annotatable info out posA posB Hfin HposA HposB); try assumption.
    intros k Hk. cbn in Hk. destruct Hk as [<- | [<- | [<- | [<- | []]]]]; eauto.
  - exact (finished_typed info out svtype jointype Hfin Hsv Hs Hjt Hj).
Qed.

Lemma one_edge_spanning_loop (last : Z) (l : list (node_info * Alignment)) :
  forall st st',
  for_each (one_edge_spanning last) l st = Ok st' ->
  exists new, st' = (st ++ new)%list /\ (existsb spans l = true -> new <> []).
Proof.
  induction l as [|[n a] l IH]; intros st st'; cbn [for_each existsb].
  - intros [= <-]. exists []. split; [now rewrite app_nil_r | discriminate].
  - destruct (one_edge_spanning last st (n, a)) as [st1 |] eqn:Estep;
      cbn [mbind res_bind]; [| discriminate].
    intros H. destruct (IH _ _ H) as (new & -> & Hnew).
    unfold one_edge_spanning in Estep. cbv beta iota zeta in Estep.
    unfold spans at 1. cbn [fst snd].
    destruct (spans_event (n_cigar_index n) a).
    + destruct (py_index (cigartuples a) (n_cigar_index n)) as [ci |];
        cbn [mbind res_bind] in Estep; [| discriminate].
      injection Estep as <-.
      eexists (_ :: new). split; [rewrite <- app_assoc; reflexivity | discriminate].
    + injection Estep as <-. exists new. split; [reflexivity | exact Hnew].
Qed.

Lemma length_pos_nonempty {A : Type} (l : list A) :
  (0 <? Z.of_nat (length l)) = negb (Nat.eqb (length l) 0).
Proof. destruct l; reflexivity. Qed.

Lemma filter_most_common (l : list spanning_alignment) (svtype_m n : Z) :
  most_common_0 (Counter Z.eqb (map sp_op l)) = Ok (svtype_m, n) ->
  List.filter (fun i => sp_op i =? svtype_m) l <> [].
Proof.
  intros E. pose proof (Counter_keys Z.eqb _ _ (most_common_0_In _ _ E)) as Hin.
  cbn [fst] in Hin. apply in_map_iff in Hin. destruct Hin as (t & Et & Ht).
  intros Hf.
  assert (Hin : In t (List.filter (fun i => sp_op i =? svtype_m) l)).
  { apply List.filter_In. split; [exact Ht | now apply Z.eqb_eq]. }
  rewrite Hf in Hin. destruct Hin.
Qed.

Lemma app_singleton_nonempty {A : Type} (l : list A) (x : A) : (l ++ [x])%list <> [].
Proof. intros H. apply app_eq_nil in H. destruct H; discriminate. Qed.

(** One run of the loop of [single] over the templates keeps the items
    typed and drops no spanning alignment. *)
Lemma single_template_keeps (st st' : single_lists)
    (kv : string * list (node_info * Alignment)) :
  single_template st kv = Ok st' ->
  (typed_items st.1.1.1.1.1 -> typed_items st'.1.1.1.1.1) /\
  (st.1.2 <> [] -> st'.1.2 <> []).
Proof.
  destruct st as [[[[[items ir] u] v] sp] gi].
  unfold single_template. cbv beta iota zeta.
  destruct (1 <? Z.of_nat (length kv.2)).
  - destruct (guess_informative_pair kv.2) as [[a b | t |] |]; cbn [mbind res_bind];
      [| | | discriminate].
    + unfold make_sv_alignment_item.
      destruct (pair_item a b _) as [v_item |] eqn:E; cbn [mbind res_bind]; [| discriminate].
      intros [= <-]. cbn [fst snd]. split; [| auto].
      intros H. apply record_item_typed; [exact H |].
      exact (classified_pair_typed _ _ _ _ E).
    + intros [= <-]. cbn [fst snd]. split; [auto |]. intros _. apply app_singleton_nonempty.
    + intros [= <-]. auto.
  - destruct (py_first kv.2) as [[cigar_info a] |]; cbn [mbind res_bind]; [| discriminate].
    cbv beta iota zeta.
    destruct (spans_event (n_cigar_index cigar_info) a).
    + destruct (py_index (cigartuples a) (n_cigar_index cigar_info)) as [ci |];
        cbn [mbind res_bind]; [| discriminate].
      destruct (within_read_end_position _ _ _ _) as [stop |];
        cbn [mbind res_bind]; [| discriminate].
      intros [= <-]. cbn [fst snd]. split; [auto |]. intros _. apply app_singleton_nonempty.
    + intros [= <-]. auto.
Qed.

(** The run over a template of one alignment that spans the event lists
    a spanning alignment. *)
Lemma single_template_lone (st st' : single_lists) (k : string)
    (n : node_info) (a : Alignment) :
  single_template st (k, [(n, a)]) = Ok st' -> spans (n, a) = true -> st'.1.2 <> [].
Proof.
  destruct st as [[[[[items ir] u] v] sp] gi].
  unfold single_template, spans. cbn [fst snd length py_first mbind res_bind].
  change (1 <? Z.of_nat 1) with false. cbv beta iota zeta.
  intros H Hs. rewrite Hs in H.
  destruct (py_index (cigartuples a) (n_cigar_index n)) as [ci |];
    cbn [mbind res_bind] in H; [| discriminate].
  destruct (within_read_end_position _ _ _ _) as [stop |];
    cbn [mbind res_bind] in H; [| discriminate].
  injection H as <-. cbn [fst snd]. apply app_singleton_nonempty.
Qed.

Lemma generic_insertion_item_join (aln : Alignment) (v v' : AlignmentItem) :
  generic_insertion_item aln v = Some v' -> join_type v' = "5to3" \/ join_type v' = "3to5".
Proof.
  unfold generic_insertion_item.
  repeat match goal with |- context [if ?c then _ else _] => destruct c end;
    intros [= <-]; cbn; auto.
Qed.

(** One run of the loop over the lone alignments keeps the items typed
    and the spanning alignments as they are. *)
Lemma single_generic_keeps (st st' : single_lists) (aln : Alignment) :
  single_generic st aln = Ok st' ->
  (typed_items st.1.1.1.1.1 -> typed_items st'.1.1.1.1.1) /\ st'.1.2 = st.1.2.
Proof.
  destruct st as [[[[[[[informative precise_a] precise_b] ir] u] v] sp] gi].
  unfold single_generic. cbv beta iota zeta.
  destruct (negb (truthy (Z.land (flag aln) 2304))); [| intros [= <-]; auto].
  destruct (make_sv_alignment_item aln aln) as [v_item |]; cbn [mbind res_bind];
    [| discriminate].
  destruct (generic_insertion_item aln v_item) as [v' |] eqn:Eg; [| intros [= <-]; auto].
  repeat match goal with |- context [if ?c then _ else _] => destruct c end;
    intros [= <-]; cbn [fst snd]; (split; [| reflexivity]);
    intros H i Hi; apply in_app_or in Hi; destruct Hi as [Hi | [<- | []]];
    try (exact (H i Hi));
    (split; [cbn; in_list |]);
    destruct (generic_insertion_item_join aln v_item v' Eg) as [E | E];
    change (join_type (set_svtype v' "INS")) with (join_type v'); rewrite E; in_list.
Qed.

Section Paths.

Variable base_assemble : list AlignedSegment -> pyval -> Z -> option assembly.

Lemma one_edge_from_reads_cases (u_reads v_reads : list Alignment)
    (spanning_alignments : list spanning_alignment)
    (insert_size insert_stdev min_support block_edge assemble extended_tags : Z)
    (out : gmap string pyval) :
  one_edge_from_reads base_assemble u_reads v_reads spanning_alignments
    insert_size insert_stdev min_support block_edge assemble extended_tags = Ok out ->
  out <> ∅ ->
  annotatable out /\ typed_call out /\ truthy extended_tags = false.
Proof.
  unfold one_edge_from_reads.
  destruct (call_from_reads u_reads v_reads insert_size insert_stdev) as [info |] eqn:E;
    [| discriminate].
  cbn [mbind res_bind].
  destruct (Z.of_nat (size info) <? 2) eqn:Esz; [intros [= <-]; congruence |].
  intros Hout Hne.
  destruct (one_edge_tail_finished base_assemble _ _ _ _ _ _ _ _ _ Hout Hne)
    as (Hfin & Hc & Hc2 & Hext).
  destruct (call_from_reads_Ok _ _ _ _ _ E) as [-> | Hm].
  { rewrite map_size_empty in Esz. discriminate Esz. }
  destruct Hm as (informative_0 & rest & pa & pb & svtype_ & jointype & Hcall & Hs & Hj).
  destruct (finished_make_call out info informative_0 rest pa pb svtype_ jointype
              insert_size insert_stdev Hcall Hs Hj Hfin Hc Hc2) as [Ha Ht].
  auto.
Qed.

Lemma one_edge_cases (u_reads_info v_reads_info : list (node_info * Alignment))
    (clip_length insert_size insert_stdev min_support block_edge assemble extended_tags : Z)
    (out : gmap string pyval) :
  one_edge base_assemble u_reads_info v_reads_info clip_length insert_size insert_stdev
    min_support block_edge assemble extended_tags = Ok out ->
  out <> ∅ ->
  annotatable out /\ typed_call out /\ truthy extended_tags = false /\
  (existsb spans (u_reads_info ++ v_reads_info) = true -> spanning_call out).
Proof.
  unfold one_edge.
  destruct (for_each (one_edge_spanning 1) u_reads_info []) as [s1 |] eqn:E1;
    [| discriminate].
  cbn [mbind res_bind].
  destruct (for_each (one_edge_spanning 0) v_reads_info s1) as [s2 |] eqn:E2;
    [| discriminate].
  cbn [mbind res_bind]. cbv zeta.
  destruct (one_edge_spanning_loop 1 _ _ _ E1) as (n1 & -> & H1).
  destruct (one_edge_spanning_loop 0 _ _ _ E2) as (n2 & -> & H2).
  cbn [app] in *.
  rewrite length_pos_nonempty.
  destruct (n1 ++ n2)%list as [|t s] eqn:Es; cbn [length Nat.eqb negb].
  - intros Hout Hne.
    destruct (one_edge_from_reads_cases _ _ _ _ _ _ _ _ _ _ Hout Hne) as (Ha & Ht & Hext).
    split; [exact Ha | split; [exact Ht | split; [exact Hext |]]].
    intros Hsp. rewrite existsb_app in Hsp. apply app_eq_nil in Es. destruct Es as [-> ->].
    apply orb_true_iff in Hsp. destruct Hsp as [Hsp | Hsp]; exfalso; [now apply H1 | now apply H2].
  - destruct (most_common_of_list Z.eqb (map sp_op (t :: s)))
      as (svtype_m & n & Em & _); [discriminate |].
    rewrite Em. cbn [mbind res_bind].
    pose proof (filter_most_common (t :: s) svtype_m n Em) as Hf.
    rewrite length_pos_nonempty.
    destruct (List.filter (fun i => sp_op i =? svtype_m) (t :: s)) as [|t' s'] eqn:Ef;
      [congruence |].
    cbn [length Nat.eqb negb].
    destruct (spanning_consensus (t' :: s'))
      as [[[[[[posA posA_95] posB] posB_95] chrom] svlen] |]; [| discriminate].
    cbn [mbind res_bind]. intros Hout Hne.
    destruct (one_edge_tail_finished base_assemble _ _ _ _ _ _ _ _ _ Hout Hne)
      as (Hfin & Hc & Hc2 & Hext).
    destruct (finished_spanning out _ _ _ _ _ _ _ Hfin Hc Hc2) as (Ha & Ht & Hsp & _).
    auto.
Qed.


Lemma single_cases (rds : list (node_info * Alignment))
    (insert_size insert_stdev clip_length min_support to_assemble extended_tags : Z)
    (out : gmap string pyval) :
  single base_assemble rds insert_size insert_stdev clip_length min_support to_assemble
    extended_tags = Ok out ->
  out <> ∅ ->
  annotatable out /\ typed_call out /\ truthy extended_tags = false /\
  (forall (n : node_info) (a : Alignment),
     In (qname a, [(n, a)]) (group_by (fun x : node_info * Alignment => qname x.2) rds) ->
     spans (n, a) = true ->
     spanning_call out /\ covers_positions out).
Proof.
  unfold single. cbv zeta.
  destruct ((_ =? 1) && negb (existsb _ rds)); [intros [= <-]; congruence |].
  set (tmp := group_by _ rds).
  destruct (for_each single_template tmp _) as [st1 |] eqn:E1; cbn [mbind res_bind];
    [| discriminate].
  assert (Ht1 : typed_items st1.1.1.1.1.1).
  { apply (for_each_invariant single_template (fun st => typed_items st.1.1.1.1.1)
             (fun _ => True) tmp
             (fun st x st' _ E => proj1 (single_template_keeps st st' x E))
             (fun _ _ => I) _ _ E1).
    intros i []. }
  assert (Hs1 : forall (n : node_info) (a : Alignment), In (qname a, [(n, a)]) tmp -> spans (n, a) = true -> st1.1.2 <> []).
  { intros n a Hin Hsp.
    apply (for_each_establishes single_template (fun st => st.1.2 <> []) tmp
             (qname a, [(n, a)])
             (fun st x st' E => proj2 (single_template_keeps st st' x E))
             (fun st st' E => single_template_lone st st' _ n a E Hsp)
             Hin _ _ E1). }
  destruct st1 as [[[[[items1 ir1] u1] v1] sp1] gi1]. cbv beta iota zeta.
  cbn [fst snd] in Ht1, Hs1.
  match goal with
  | |- context [mbind _ ?m] =>
    match m with
    | (if _ then _ else _) => destruct m as [st2 |] eqn:E2
    end
  end; cbn [mbind res_bind]; [| discriminate].
  assert (H2 : typed_items st2.1.1.1.1.1 /\ st2.1.2 = sp1).
  { revert E2. destruct (_ <? min_support).
    - intros E2.
      apply (for_each_invariant single_generic
               (fun st => typed_items st.1.1.1.1.1 /\ st.1.2 = sp1) (fun _ => True) gi1
               (fun st x st' _ E H =>
                  conj (proj1 (single_generic_keeps st st' x E) (proj1 H))
                       (eq_trans (proj2 (single_generic_keeps st st' x E)) (proj2 H)))
               (fun _ _ => I) _ _ E2).
      split; [exact Ht1 | reflexivity].
    - intros [= <-]. split; [exact Ht1 | reflexivity]. }
  destruct st2 as [[[[[[[informative precise_a] precise_b] ir2] u2] v2] sp2] gi2].
  cbn [fst snd] in H2. destruct H2 as [Ht2 ->]. cbv beta iota zeta.
  destruct ((Z.of_nat (length informative) =? 0) && (Z.of_nat (length sp1) =? 0)) eqn:Eempty;
    [intros [= <-]; congruence |].
  rewrite length_pos_nonempty.
  destruct sp1 as [|t s]; cbn [length Nat.eqb negb].
  - destruct informative as [|informative_0 rest]; [discriminate Eempty |].
    destruct (most_common_of_list pair_eqb
                (map (fun itm => (svtype itm, join_type itm)) (informative_0 :: rest)))
      as ([svtype_ jointype] & n & Em & Hin); [discriminate |].
    rewrite Em. cbn [mbind res_bind].
    destruct (make_call (informative_0 :: rest) precise_a precise_b svtype_ jointype
                insert_size insert_stdev) as [info |] eqn:Ecall; cbn [mbind res_bind];
      [| discriminate].
    destruct (Z.of_nat (size info) <? 2); [intros [= <-]; congruence |].
    intros Hout Hne.
    destruct (single_tail_finished base_assemble _ _ _ _ _ _ _ _ _ _ Hout Hne)
      as (Hfin & Hc & Hc2 & Hext).
    apply in_map_iff in Hin. destruct Hin as (i & [= <- <-] & Hi).
    destruct (Ht2 i Hi) as [Hs Hj].
    destruct (finished_make_call out info informative_0 rest precise_a precise_b _ _
                insert_size insert_stdev Ecall Hs Hj Hfin Hc Hc2) as [Ha Ht].
    split; [exact Ha | split; [exact Ht | split; [exact Hext |]]].
    intros n0 a Hin Hsp. exfalso. now apply (Hs1 n0 a Hin Hsp).
  - destruct (most_common_of_list Z.eqb (map sp_op (t :: s)))
      as (svtype_m & n & Em & _); [discriminate |].
    rewrite Em. cbn [mbind res_bind].
    destruct (spanning_consensus _)
      as [[[[[[posA posA_95] posB] posB_95] chrom] svlen] |]; cbn [mbind res_bind];
      [| discriminate].
    intros Hout Hne.
    destruct (single_tail_finished base_assemble _ _ _ _ _ _ _ _ _ _ Hout Hne)
      as (Hfin & Hc & Hc2 & Hext).
    destruct (finished_spanning out _ _ _ _ _ _ _ Hfin Hc Hc2)
      as (Ha & Ht & Hsp & HpA & HpB & Hl).
    split; [exact Ha | split; [exact Ht | split; [exact Hext |]]].
    intros _ _ _ _. split; [exact Hsp |].
    exists posA, posB, (if svlen >=? Z.abs (posB - posA) then svlen else Z.abs (posB - posA)).
    split; [exact HpA | split; [exact HpB | split; [exact Hl |]]].
    destruct (svlen >=? Z.abs (posB - posA)) eqn:Ecmp; lia.
Qed.

(** X25.  A call [single] returns is complete: it has all the annotation reads
    (integer coordinates and support counts, and the eight fields it
    exchanges), and a type and a join type among those the classifier
    writes. *)
Theorem single_returns_complete_call (rds : list (node_info * Alignment))
    (insert_size insert_stdev clip_length min_support to_assemble extended_tags : Z) :
  let out := single base_assemble rds insert_size insert_stdev clip_length min_support
               to_assemble extended_tags in
  returns_call out = true -> annotatable (or_empty out) /\ typed_call (or_empty out).
Proof.
  intros out Hret. destruct (returns_call_Ok out Hret) as [Hout Hne].
  destruct (single_cases rds insert_size insert_stdev clip_length min_support to_assemble
                extended_tags _ Hout Hne) as (Ha & Ht & _). auto.
Qed.

(** X26.  A call [one_edge] returns is complete in the same sense. *)
Theorem one_edge_returns_complete_call (u_reads_info v_reads_info : list (node_info * Alignment))
    (clip_length insert_size insert_stdev min_support block_edge assemble extended_tags : Z) :
  let out := one_edge base_assemble u_reads_info v_reads_info clip_length insert_size
               insert_stdev min_support block_edge assemble extended_tags in
  returns_call out = true -> annotatable (or_empty out) /\ typed_call (or_empty out).
Proof.
  intros out Hret. destruct (returns_call_Ok out Hret) as [Hout Hne].
  destruct (one_edge_cases u_reads_info v_reads_info clip_length insert_size insert_stdev
                min_support block_edge assemble extended_tags _ Hout Hne) as (Ha & Ht & _). auto.
Qed.

(** X27.  With the extended tags asked for, neither path ever returns a call:
    whatever the reads, [single] and [one_edge] return the empty
    dictionary or raise. *)
Theorem extended_tags_yield_no_call (rds u_reads_info v_reads_info : list (node_info * Alignment))
    (insert_size insert_stdev clip_length min_support to_assemble block_edge assemble
     extended_tags : Z) :
  truthy extended_tags = true ->
  returns_call (single base_assemble rds insert_size insert_stdev clip_length min_support
                  to_assemble extended_tags) = false /\
  returns_call (one_edge base_assemble u_reads_info v_reads_info clip_length insert_size
                  insert_stdev min_support block_edge assemble extended_tags) = false.
Proof.
  intros Hext. split.
  - destruct (returns_call _) eqn:E; [exfalso | reflexivity].
    destruct (returns_call_Ok _ E) as [Hout Hne].
    destruct (single_cases rds insert_size insert_stdev clip_length min_support to_assemble
                extended_tags _ Hout Hne) as (_ & _ & Hno & _). congruence.
  - destruct (returns_call _) eqn:E; [exfalso | reflexivity].
    destruct (returns_call_Ok _ E) as [Hout Hne].
    destruct (one_edge_cases u_reads_info v_reads_info clip_length insert_size insert_stdev
                min_support block_edge assemble extended_tags _ Hout Hne) as (_ & _ & Hno & _). congruence.
Qed.

(** X28.  As soon as one alignment of either cluster spans the event, a call
    [one_edge] returns is made from the spanning alignments alone: a
    deletion or an insertion joined 3to5, its two ends precise and on one
    chromosome. *)
Theorem one_edge_spanning_call (u_reads_info v_reads_info : list (node_info * Alignment))
    (clip_length insert_size insert_stdev min_support block_edge assemble extended_tags : Z) :
  let out := one_edge base_assemble u_reads_info v_reads_info clip_length insert_size
               insert_stdev min_support block_edge assemble extended_tags in
  existsb spans (u_reads_info ++ v_reads_info) = true ->
  returns_call out = true -> spanning_call (or_empty out).
Proof.
  intros out Hsp Hret. destruct (returns_call_Ok out Hret) as [Hout Hne].
  destruct (one_edge_cases u_reads_info v_reads_info clip_length insert_size insert_stdev
                min_support block_edge assemble extended_tags _ Hout Hne) as (_ & _ & _ & H). auto.
Qed.

(** X29.  When a template of the cluster has a single alignment and this one
    spans the event, a call [single] returns is made from the spanning
    alignments, and its length is at least the distance between its two
    positions. *)
Theorem single_spanning_call (rds : list (node_info * Alignment))
    (insert_size insert_stdev clip_length min_support to_assemble extended_tags : Z)
    (n : node_info) (a : Alignment) :
  let out := single base_assemble rds insert_size insert_stdev clip_length min_support
               to_assemble extended_tags in
  List.filter (fun x : node_info * Alignment => String.eqb (qname x.2) (qname a)) rds
    = [(n, a)] ->
  spans (n, a) = true ->
  returns_call out = true ->
  spanning_call (or_empty out) /\ covers_positions (or_empty out).
Proof.
  intros out Hlone Hsp Hret. destruct (returns_call_Ok out Hret) as [Hout Hne].
  destruct (single_cases rds insert_size insert_stdev clip_length min_support to_assemble
                extended_tags _ Hout Hne) as (_ & _ & _ & H).
  apply (H n a); [| exact Hsp].
  apply group_get_In. rewrite group_get_group_by. cbv beta. rewrite Hlone. reflexivity.
Qed.

End Paths.

Lemma single_returns_complete_call_witness :
  let out := single no_assembly [(node_at 0 200, read_a1); (node_at 0 300, read_a2)]
               300 50 0 1 0 0 in
  returns_call out = true /\ annotatable (or_empty out) /\ typed_call (or_empty out).
Proof.
  split; [vm_compute; reflexivity |].
  apply (single_returns_complete_call no_assembly
           [(node_at 0 200, read_a1); (node_at 0 300, read_a2)] 300 50 0 1 0 0).
  vm_compute. reflexivity.
Defined.

Lemma one_edge_returns_complete_call_witness :
  let out := one_edge no_assembly [(node_at 0 200, read_a1)] [(node_at 0 300, read_a2)]
               0 300 50 1 1 0 0 in
  returns_call out = true /\ annotatable (or_empty out) /\ typed_call (or_empty out).
Proof.
  split; [vm_compute; reflexivity |].
  apply (one_edge_returns_complete_call no_assembly
           [(node_at 0 200, read_a1)] [(node_at 0 300, read_a2)] 0 300 50 1 1 0 0).
  vm_compute. reflexivity.
Defined.

Lemma extended_tags_yield_no_call_witness :
  truthy 1 = true /\
  returns_call (single no_assembly [(node_at 0 200, read_a1); (node_at 0 300, read_a2)]
                  300 50 0 1 0 1) = false /\
  returns_call (one_edge no_assembly [(node_at 0 200, read_a1)] [(node_at 0 300, read_a2)]
                  0 300 50 1 1 0 1) = false.
Proof.
  split; [reflexivity |].
  apply (extended_tags_yield_no_call no_assembly
           [(node_at 0 200, read_a1); (node_at 0 300, read_a2)]
           [(node_at 0 200, read_a1)] [(node_at 0 300, read_a2)] 300 50 0 1 0 1 0 1).
  reflexivity.
Defined.

Lemma one_edge_spanning_call_witness :
  let out := one_edge no_assembly [(node_at 1 150, read_del)] [(node_at 0 300, read_a2)]
               0 300 50 1 1 0 0 in
  existsb spans ([(node_at 1 150, read_del)] ++ [(node_at 0 300, read_a2)]) = true /\
  returns_call out = true /\ spanning_call (or_empty out).
Proof.
  split; [reflexivity |]. split; [vm_compute; reflexivity |].
  apply (one_edge_spanning_call no_assembly
           [(node_at 1 150, read_del)] [(node_at 0 300, read_a2)] 0 300 50 1 1 0 0).
  - reflexivity.
  - vm_compute. reflexivity.
Defined.

Lemma single_spanning_call_witness :
  let rds := [(node_at 1 150, read_del); (node_at 0 200, read_a1)] in
  let out := single no_assembly rds 300 50 0 1 0 0 in
  List.filter (fun x : node_info * Alignment => String.eqb (qname x.2) (qname read_del)) rds
    = [(node_at 1 150, read_del)] /\
  spans (node_at 1 150, read_del) = true /\
  returns_call out = true /\
  spanning_call (or_empty out) /\ covers_positions (or_empty out).
Proof.
  split; [reflexivity |]. split; [reflexivity |]. split; [vm_compute; reflexivity |].
  apply (single_spanning_call no_assembly
           [(node_at 1 150, read_del); (node_at 0 200, read_a1)] 300 50 0 1 0 0
           (node_at 1 150) read_del).
  - reflexivity.
  - reflexivity.
  - vm_compute. reflexivity.
Defined.
